(** * PortLib: derived state, HTTP client, dashboard hook and auth store

    A shallow embedding of the TypeScript sources of the campus library
    client, and the properties of its specification checked against it.

    Conventions of the embedding:
    - a JavaScript string is a Rocq [string] whose characters are UTF-16
      code units below 256 (the Latin-1 range); [trim], [toLowerCase] and
      [includes] follow ECMAScript on that range;
    - a JavaScript number is an IEEE 754 binary64 value, Rocq's primitive
      [float]; time values (milliseconds since the epoch) are integers and
      are kept in [Z];
    - [undefined] is [None] where a value may be missing;
    - asynchronous code is a tree ([Async]): a call of [fetch] is a node
      that hands its continuation the promise of an answer, an [await] a
      node whose continuation receives what the network answered;
      [Promise.all] interleaves such trees by the arrival of the answers. *)

From Stdlib Require Import ZArith List String Ascii Bool Lia Floats.
From Stdlib Require Import DecimalString.
From Stdlib Require Uint63.
Import ListNotations.

Open Scope string_scope.

(* ------------------------------------------------------------------ *)
(** ** JavaScript strings *)

Module JsString.

(** [a || d] on an optional string: [undefined] and [""] are falsy. *)
Definition orElse (a : option string) (d : string) : string :=
  match a with
  | Some (String c s) => String c s
  | _ => d
  end.

(** WhiteSpace and LineTerminator code units below 256: TAB, LF, VT, FF,
    CR, SPACE and NO-BREAK SPACE. *)
Definition isWhiteSpace (c : ascii) : bool :=
  let n := N_of_ascii c in
  ((9 <=? n) && (n <=? 13) || (n =? 32) || (n =? 160))%N.

Fixpoint trimStart (s : string) : string :=
  match s with
  | String c s' => if isWhiteSpace c then trimStart s' else s
  | EmptyString => EmptyString
  end.

(** [trimEnd] drops the trailing white space: a character stays when it is
    not white space or when something stays after it. *)
Fixpoint trimEnd (s : string) : string :=
  match s with
  | EmptyString => EmptyString
  | String c s' =>
      match trimEnd s' with
      | EmptyString => if isWhiteSpace c then EmptyString else String c EmptyString
      | r => String c r
      end
  end.

Definition trim (s : string) : string := trimEnd (trimStart s).

(** [!s] on a string. *)
Definition isEmpty (s : string) : bool :=
  match s with EmptyString => true | String _ _ => false end.

(** Lower-case mapping of one code unit: A-Z, and the Latin-1 capitals
    U+00C0..U+00DE except the multiplication sign U+00D7. *)
Definition lowerChar (c : ascii) : ascii :=
  let n := N_of_ascii c in
  if ((65 <=? n) && (n <=? 90) || (192 <=? n) && (n <=? 222) && negb (n =? 215))%N
  then ascii_of_N (n + 32)
  else c.

Fixpoint toLowerCase (s : string) : string :=
  match s with
  | EmptyString => EmptyString
  | String c s' => String (lowerChar c) (toLowerCase s')
  end.

(** [s.startsWith(p)]. *)
Fixpoint startsWith (s p : string) : bool :=
  match p, s with
  | EmptyString, _ => true
  | String a p', String b s' => Ascii.eqb a b && startsWith s' p'
  | String _ _, EmptyString => false
  end.

(** [s.includes(sub)]: [sub] occurs at some position of [s]. *)
Fixpoint includes (s sub : string) : bool :=
  startsWith s sub ||
  match s with
  | EmptyString => false
  | String _ s' => includes s' sub
  end.

(** Every character is white space (so is it of the empty string). *)
Fixpoint allWhiteSpace (s : string) : bool :=
  match s with
  | EmptyString => true
  | String c s' => isWhiteSpace c && allWhiteSpace s'
  end.

(** [sub] is a contiguous part of [s]. *)
Definition occursIn (sub s : string) : Prop :=
  exists pre post, s = pre ++ sub ++ post.

(** Some contiguous part of [s] spells [word] up to letter case. *)
Definition occursIgnoringCase (word s : string) : Prop :=
  exists pre w post, s = pre ++ w ++ post /\ toLowerCase w = toLowerCase word.

End JsString.

(* ------------------------------------------------------------------ *)
(** ** Availability badges (BookDetailView.tsx, BookBrowsingPage.tsx) *)

Module Availability.
Import JsString.

Inductive Icon := CheckCircle | Timer | Bookmark.

Record BadgeStyles := {
  className : string;
  icon : Icon;
  label : string
}.

(** BookDetailView: [availabilityStyles], computed from [book?.availability]. *)
Definition availabilityStyles (availability : option string) : BadgeStyles :=
  let status := toLowerCase (orElse availability "Available") in
  if includes status "available" then
    {| className := "bg-emerald-100 text-success dark:bg-emerald-900/40 dark:text-emerald-200";
       icon := CheckCircle;
       label := "Available" |}
  else if includes status "checked" then
    {| className := "bg-amber-100 text-warning dark:bg-amber-900/40 dark:text-amber-200";
       icon := Timer;
       label := "Checked Out" |}
  else
    {| className := "bg-primary-100 text-primary dark:bg-blue-900/40 dark:text-blue-200";
       icon := Bookmark;
       label := "On Hold" |}.

(** BookDetailView renders [<span>{availabilityStyles.label}</span>]. *)
Definition detailBadgeText (availability : option string) : string :=
  label (availabilityStyles availability).

(** BookBrowsingPage: [badgeClassByAvailability]. *)
Definition badgeClassByAvailability (availability : option string) : string :=
  let status := toLowerCase (orElse availability "") in
  if includes status "available" then "bg-emerald-100 text-success"
  else if includes status "checked" then "bg-amber-100 text-warning"
  else "bg-primary-100 text-primary".

(** BookBrowsingPage renders [<span>{book.availability}</span>] inside the
    badge: the raw status, nothing when it is missing. *)
Definition listBadgeText (availability : option string) : option string :=
  availability.

(** The three presentations. *)
Inductive Kind := available | checkedOut | onHold.

(** Which presentation a class string of the browsing page is. *)
Definition kindOfBadgeClass (cls : string) : option Kind :=
  if String.eqb cls "bg-emerald-100 text-success" then Some available
  else if String.eqb cls "bg-amber-100 text-warning" then Some checkedOut
  else if String.eqb cls "bg-primary-100 text-primary" then Some onHold
  else None.

(** Which presentation a style record of the detail view is. *)
Definition kindOfStyles (st : BadgeStyles) : Kind :=
  match icon st with
  | CheckCircle => available
  | Timer => checkedOut
  | Bookmark => onHold
  end.

(** The label the detail view shows for a presentation. *)
Definition canonicalLabel (k : Kind) : string :=
  match k with
  | available => "Available"
  | checkedOut => "Checked Out"
  | onHold => "On Hold"
  end.

(** What it means for a status text to fall under a presentation:
    "available" anywhere in it, in any letter case, wins; otherwise
    "checked" anywhere in it; otherwise on hold. *)
Definition classifies (status : string) (k : Kind) : Prop :=
  match k with
  | available => occursIgnoringCase "available" status
  | checkedOut =>
      ~ occursIgnoringCase "available" status /\ occursIgnoringCase "checked" status
  | onHold =>
      ~ occursIgnoringCase "available" status /\ ~ occursIgnoringCase "checked" status
  end.

End Availability.

(* ------------------------------------------------------------------ *)
(** ** Dates: days left and greeting (web and mobile dashboards) *)

Module Dates.

Open Scope Z_scope.

Definition msPerHour : Z := 1000 * 60 * 60.
Definition msPerDay : Z := 1000 * 60 * 60 * 24.

(** What the code reads from the JavaScript host without being passed it:
    the clock behind [new Date()], the local time zone, and the built-in
    date parsers.  [localOffsetAtUTC t] is the offset of local time from
    UTC at the instant [t]; [localOffsetAtLocal l] is the offset in force
    at the local time [l] (ECMAScript's LocalTZA with isUTC true and
    false).  [Date_parse] is [new Date(string)] and [parseISO] is the
    date-fns parser, [None] standing for an Invalid Date. *)
Record Host := {
  Date_now : Z;
  localOffsetAtUTC : Z -> Z;
  localOffsetAtLocal : Z -> Z;
  Date_parse : string -> option Z;
  parseISO : string -> option Z
}.

(** ECMAScript LocalTime(t) and UTC(l). *)
Definition LocalTime (h : Host) (t : Z) : Z := t + localOffsetAtUTC h t.
Definition UTC (h : Host) (l : Z) : Z := l - localOffsetAtLocal h l.

(** Day(t): the day number of a time value. *)
Definition Day (t : Z) : Z := t / msPerDay.

(** [d.setHours(0, 0, 0, 0)]: the instant at which the local day of [t]
    begins. *)
Definition setHoursZero (h : Host) (t : Z) : Z :=
  UTC h (Day (LocalTime h t) * msPerDay).

(** [d.getHours()]. *)
Definition getHours (h : Host) (t : Z) : Z :=
  (LocalTime h t / msPerHour) mod 24.

(** [Math.ceil(a / b)] and [Math.round(a / b)] on integers, [b] positive:
    the ceiling and the rounding of the exact quotient.  The quotient in
    double precision has the same ceiling as long as the difference stays
    below 2^26 days, far beyond the dates a library lends to. *)
Definition ceilDiv (a b : Z) : Z := - ((- a) / b).
Definition roundDiv (a b : Z) : Z := (2 * a + b) / (2 * b).

(** Web dashboard: [calculateDaysLeft(dueDate)].  [None] is NaN, the
    result on a due date that does not parse. *)
Definition calculateDaysLeft (h : Host) (dueDate : string) : option Z :=
  let today := setHoursZero h (Date_now h) in
  match Date_parse h dueDate with
  | None => None
  | Some d =>
      let due := setHoursZero h d in
      let diffTime := due - today in
      let diffDays := ceilDiv diffTime (1000 * 60 * 60 * 24) in
      Some diffDays
  end.

(** Web dashboard: [greeting]. *)
Definition greeting (h : Host) : string :=
  let hour := getHours h (Date_now h) in
  if hour <? 12 then "Good Morning"
  else if hour <? 17 then "Good Afternoon"
  else "Good Evening".

(** Mobile dashboard: [parseDate(value)]; a missing, empty or unparseable
    value yields the current time. *)
Definition parseDate (h : Host) (value : option string) : Z :=
  match value with
  | None => Date_now h
  | Some EmptyString => Date_now h
  | Some v =>
      match parseISO h v with
      | Some parsed => parsed
      | None =>
          match Date_parse h v with
          | Some fallback => fallback
          | None => Date_now h
          end
      end
  end.

(** date-fns [differenceInCalendarDays(later, earlier)] (a dependency, not
    part of the repository): both dates are moved to the start of their
    local day, read as local timestamps, and the difference is rounded to
    whole days. *)
Definition differenceInCalendarDays (h : Host) (later earlier : Z) : Z :=
  let laterTimestamp := LocalTime h (setHoursZero h later) in
  let earlierTimestamp := LocalTime h (setHoursZero h earlier) in
  roundDiv (laterTimestamp - earlierTimestamp) msPerDay.

(** Mobile dashboard: [getDaysLeft] and [getDaysOverdue]. *)
Definition getDaysLeft (h : Host) (dueDate : option string) : Z :=
  Z.max 0 (differenceInCalendarDays h (parseDate h dueDate) (Date_now h)).

Definition getDaysOverdue (h : Host) (dueDate : option string) : Z :=
  Z.max 0 (differenceInCalendarDays h (Date_now h) (parseDate h dueDate)).

(** A host whose local time is UTC shifted by a constant [offset]. *)
Definition fixedOffsetHost (offset now : Z) (parse iso : string -> option Z) : Host :=
  {| Date_now := now;
     localOffsetAtUTC := fun _ => offset;
     localOffsetAtLocal := fun _ => offset;
     Date_parse := parse;
     parseISO := iso |}.

(** The same host read at another moment: only the clock differs. *)
Definition atTime (h : Host) (now : Z) : Host :=
  {| Date_now := now;
     localOffsetAtUTC := localOffsetAtUTC h;
     localOffsetAtLocal := localOffsetAtLocal h;
     Date_parse := Date_parse h;
     parseISO := parseISO h |}.

(** Sample hosts for examples.  [sampleParse] reads three dates, each at
    midnight UTC; [utcAt now] is a host on UTC time whose clock shows
    [now]. *)
Definition jan05 : Z := 1704412800000.
Definition jan08 : Z := 1704672000000.
Definition jan10 : Z := 1704844800000.

Definition sampleParse (s : string) : option Z :=
  if String.eqb s "2024-01-05" then Some jan05
  else if String.eqb s "2024-01-08" then Some jan08
  else if String.eqb s "2024-01-10" then Some jan10
  else None.

Definition utcAt (now : Z) : Host :=
  fixedOffsetHost 0 now sampleParse sampleParse.

(** A host on US Eastern time around the start of daylight saving time
    on 2024-03-10 (07:00 UTC, 02:00 local): five hours behind UTC before
    it, four hours behind after it. *)
Definition easternAt (now : Z) (parse : string -> option Z) : Host :=
  {| Date_now := now;
     localOffsetAtUTC := fun t => if t <? 1710054000000 then -18000000 else -14400000;
     localOffsetAtLocal := fun l => if l <? 1710036000000 then -18000000 else -14400000;
     Date_parse := parse;
     parseISO := parse |}.

(** The ceiling of the rational [a / b], stated without division. *)
Definition isCeilingOf (k a b : Z) : Prop :=
  b * (k - 1) < a <= b * k.

(** The local day number of an instant, and the offset from UTC in force
    at the midnight with which that local day begins. *)
Definition localDay (h : Host) (t : Z) : Z := Day (LocalTime h t).

Definition offsetAtMidnight (h : Host) (t : Z) : Z :=
  localOffsetAtLocal h (localDay h t * msPerDay).

(** How far from midnight the local clock stands at the instant at which
    the host begins local day [d]: nothing, unless a clock change skips
    that midnight, in which case the day begins that much later. *)
Definition startOfDaySkew (h : Host) (d : Z) : Z :=
  localOffsetAtUTC h (UTC h (d * msPerDay)) - localOffsetAtLocal h (d * msPerDay).

(** Every local day of the host begins within six hours of midnight. *)
Definition daysBeginNearMidnight (h : Host) : Prop :=
  forall d, 4 * Z.abs (startOfDaySkew h d) < msPerDay.

(** 2024-03-10 and 2024-03-11 at midnight of US Eastern time (05:00 and
    04:00 UTC), as a host on that time reads a date and time given
    without a zone. *)
Definition mar10Eastern : Z := 1710046800000.
Definition mar11Eastern : Z := 1710129600000.

Definition marchParse (s : string) : option Z :=
  if String.eqb s "2024-03-10T00:00" then Some mar10Eastern
  else if String.eqb s "2024-03-11T00:00" then Some mar11Eastern
  else None.

End Dates.

(* ------------------------------------------------------------------ *)
(** ** Values received from the server *)

Module Json.
Import JsString.

(** A parsed JSON text, as [response.json()] resolves to. *)
#[local] Set Warnings "-register-all".
Inductive value :=
| JNull
| JBool (b : bool)
| JNum (x : float)
| JStr (s : string)
| JArr (items : list value)
| JObj (fields : list (string * value)).

(** What the code can throw or reject with. [PlainError] is an [Error]
    that is not an [ApiClientError] (a TypeError from [fetch], a
    SyntaxError from [response.json()], ...); [NotAnError] is any other
    thrown value. *)
Inductive Thrown :=
| ApiClientError (message : string) (statusCode : option Z) (errors : option value)
| PlainError (message : string)
| NotAnError (v : value).

(** A settled promise. *)
Inductive Outcome (A : Type) :=
| Resolved (a : A)
| Rejected (e : Thrown).
Arguments Resolved {A} a.
Arguments Rejected {A} e.

Fixpoint lookup (key : string) (fields : list (string * value)) : option value :=
  match fields with
  | [] => None
  | (k, v) :: rest => if String.eqb k key then Some v else lookup key rest
  end.

(** The message of the TypeError raised by a property read on [null]
    (the text is the engine's; V8's is used). *)
Definition nullReadMessage (key : string) : string :=
  "Cannot read properties of null (reading '" ++ key ++ "')".

(** [v.key]: [None] is [undefined]; reading a property of [null] throws. *)
Definition member (v : value) (key : string) : Outcome (option value) :=
  match v with
  | JNull => Rejected (PlainError (nullReadMessage key))
  | JObj fields => Resolved (lookup key fields)
  | _ => Resolved None
  end.

(** [v?.key] on a value that may be [undefined]. *)
Definition optMember (v : option value) (key : string) : option value :=
  match v with
  | Some (JObj fields) => lookup key fields
  | _ => None
  end.

(** [a ?? b]: the right operand only when the left is [null] or [undefined]. *)
Definition nullish (a b : option value) : option value :=
  match a with
  | None | Some JNull => b
  | _ => a
  end.

(** ToBoolean. *)
Definition truthy (v : option value) : bool :=
  match v with
  | None | Some JNull => false
  | Some (JBool b) => b
  | Some (JNum x) => negb (PrimFloat.is_zero x) && negb (PrimFloat.is_nan x)
  | Some (JStr s) => negb (isEmpty s)
  | Some (JArr _) | Some (JObj _) => true
  end.

(** [a || b]. *)
Definition orValue (a b : option value) : option value :=
  if truthy a then a else b.

(** [Number.isFinite(v)]: a number that is neither NaN nor infinite. *)
Definition Number_isFinite (v : option value) : bool :=
  match v with
  | Some (JNum x) => PrimFloat.is_finite x
  | _ => false
  end.

(** [Array.isArray(raw) ? raw : []]. *)
Definition arrayOrEmpty (raw : value) : list value :=
  match raw with
  | JArr items => items
  | _ => []
  end.

Section ToString.

(** Number::toString of the host. *)
Variable numberToString : float -> string.

(** [Array.prototype.join]: the elements are converted from left to
    right, and the first conversion that throws ends the join. *)
Fixpoint joinWith (sep : string) (parts : list (Outcome string)) : Outcome string :=
  match parts with
  | [] => Resolved ""
  | p :: rest =>
      match p with
      | Rejected e => Rejected e
      | Resolved first =>
          match rest with
          | [] => Resolved first
          | _ =>
              match joinWith sep rest with
              | Rejected e => Rejected e
              | Resolved others => Resolved (first ++ sep ++ others)
              end
          end
      end
  end.

(** The message of the TypeError raised when an object cannot be
    converted to a primitive value (the text is the engine's; V8's is
    used). *)
Definition notPrimitiveMessage : string :=
  "Cannot convert object to primitive value".

(** ToString on a parsed JSON value, as [new Error(message)] applies it.
    An array is joined with commas, a [null] element giving the empty
    string.  An object is converted by the [toString] it finds: the
    inherited [Object.prototype.toString] gives "[object Object]"; a
    property of its own named [toString] hides that method and, being
    parsed data, is not a function, [valueOf] then gives back the object
    itself, and the conversion throws a TypeError. *)
Fixpoint ToString (v : value) : Outcome string :=
  match v with
  | JNull => Resolved "null"
  | JBool true => Resolved "true"
  | JBool false => Resolved "false"
  | JNum x => Resolved (numberToString x)
  | JStr s => Resolved s
  | JArr items =>
      joinWith "," (map (fun e => match e with
                                  | JNull => Resolved ""
                                  | _ => ToString e
                                  end) items)
  | JObj fields =>
      match lookup "toString" fields with
      | Some _ => Rejected (PlainError notPrimitiveMessage)
      | None => Resolved "[object Object]"
      end
  end.

End ToString.

(** A value that ToString converts: no object that would be converted
    has a property of its own named [toString]. *)
Fixpoint printable (v : value) : bool :=
  match v with
  | JArr items => forallb printable items
  | JObj fields =>
      match lookup "toString" fields with
      | Some _ => false
      | None => true
      end
  | _ => true
  end.

End Json.

(* ------------------------------------------------------------------ *)
(** ** Asynchronous code *)

Module Async.
Import Json.

Record Request := {
  method : string;
  url : string;
  headers : list (string * string);
  body : option value
}.

(** A response: its status and what [response.json()] settles to. *)
Record Response := {
  status : Z;
  json : Outcome value
}.

(** [response.ok]: the status is in the range 200-299. *)
Definition ok (r : Response) : bool :=
  ((200 <=? status r) && (status r <=? 299))%Z.

(** What [fetch] returns: the promise of a response.  Its fate is fixed
    by the network when the request leaves: [number] tells which request
    of the run the promise stands for, [arrives] the moment at which its
    answer arrives, and [outcome] that answer, a response or the
    rejection when no response arrives. *)
Record Promise := {
  number : nat;
  arrives : nat;
  outcome : Outcome Response
}.

(** The moment at which the caller has the answer.  A rejection is
    received as it arrives.  A response is received one step later: the
    methods of the client await [response.json()] in turn, and the
    [outcome] of a response comes with what that settles to.  So of two
    answers the one that arrives earlier is received first, and of a
    rejection and a response that arrive together, the rejection. *)
Definition received (pr : Promise) : nat :=
  match outcome pr with
  | Rejected _ => 2 * arrives pr
  | Resolved _ => 2 * arrives pr + 1
  end.

(** An asynchronous computation over a component state [S]: it returns,
    throws, calls [fetch] (the request leaves and the promise is at hand
    at once), awaits a promise (it is suspended until the answer has
    arrived), or queues a state update [setState(prev => f prev)]. *)
Inductive t (S A : Type) :=
| Return (a : A)
| Throw (e : Thrown)
| Issue (rq : Request) (k : Promise -> t S A)
| Await (pr : Promise) (k : Outcome Response -> t S A)
| SetState (f : S -> S) (k : t S A).
Arguments Return {S A} a.
Arguments Throw {S A} e.
Arguments Issue {S A} rq k.
Arguments Await {S A} pr k.
Arguments SetState {S A} f k.

(** [await fetch(rq)]: the request leaves and the caller waits for its
    answer, a response or a rejection. *)
Definition Fetch {S A} (rq : Request) (k : Outcome Response -> t S A) : t S A :=
  Issue rq (fun pr => Await pr k).

Fixpoint bind {S A B} (p : t S A) (f : A -> t S B) : t S B :=
  match p with
  | Return a => f a
  | Throw e => Throw e
  | Issue rq k => Issue rq (fun pr => bind (k pr) f)
  | Await pr k => Await pr (fun r => bind (k r) f)
  | SetState g k => SetState g (bind k f)
  end.

(** [try { p } catch (error) { handler error }]. *)
Fixpoint tryCatch {S A} (p : t S A) (handler : Thrown -> t S A) : t S A :=
  match p with
  | Return a => Return a
  | Throw e => handler e
  | Issue rq k => Issue rq (fun pr => tryCatch (k pr) handler)
  | Await pr k => Await pr (fun r => tryCatch (k r) handler)
  | SetState g k => SetState g (tryCatch k handler)
  end.

(** The promise of [p], observed once settled: [p.then(...)] and
    [p.catch(...)] start from it. *)
Fixpoint settle {S A} (p : t S A) : t S (Outcome A) :=
  match p with
  | Return a => Return (Resolved a)
  | Throw e => Return (Rejected e)
  | Issue rq k => Issue rq (fun pr => settle (k pr))
  | Await pr k => Await pr (fun r => settle (k r))
  | SetState g k => SetState g (settle k)
  end.

(** Back from a settled promise to control flow: [await] of it. *)
Definition await {S A} (o : Outcome A) : t S A :=
  match o with
  | Resolved a => Return a
  | Rejected e => Throw e
  end.

(** [try { p } finally { cleanup }]. *)
Definition tryFinally {S A} (p : t S A) (cleanup : t S unit) : t S A :=
  bind (settle p) (fun o => bind cleanup (fun _ => await o)).

(** A computation that has no access to the component state, run inside
    one that has. *)
Fixpoint lift {S A} (p : t unit A) : t S A :=
  match p with
  | Return a => Return a
  | Throw e => Throw e
  | Issue rq k => Issue rq (fun pr => lift (k pr))
  | Await pr k => Await pr (fun r => lift (k r))
  | SetState _ k => lift k
  end.

(** [Promise.all([p, q])].  The two calls are made in array order, each
    running until it first waits.  From then on, of the computations that
    wait, the one whose answer is received first goes on (the first in
    array order when both are received together) until it waits again or
    settles.  The whole rejects as soon as one of the two has rejected,
    whatever the other still waits for, and resolves once both have
    resolved. *)
Fixpoint promiseAll2 {S A B} (p : t S A) : t S B -> t S (A * B) :=
  fix all_q (q : t S B) : t S (A * B) :=
    match p with
    | Issue rq k => Issue rq (fun pr => promiseAll2 (k pr) q)
    | SetState f k => SetState f (promiseAll2 k q)
    | Throw e =>
        match q with
        | Issue rq k => Issue rq (fun pr => all_q (k pr))
        | SetState f k => SetState f (all_q k)
        | _ => Throw e
        end
    | Return x =>
        match q with
        | Issue rq k => Issue rq (fun pr => all_q (k pr))
        | SetState f k => SetState f (all_q k)
        | Throw e => Throw e
        | Return y => Return (x, y)
        | Await pq kq => Await pq (fun r => all_q (kq r))
        end
    | Await pp kp =>
        match q with
        | Issue rq k => Issue rq (fun pr => all_q (k pr))
        | SetState f k => SetState f (all_q k)
        | Throw e => Throw e
        | Return y => Await pp (fun r => promiseAll2 (kp r) q)
        | Await pq kq =>
            if (received pp <=? received pq)%nat
            then Await pp (fun r => promiseAll2 (kp r) q)
            else Await pq (fun r => all_q (kq r))
        end
    end.

(** [Promise.all([a, b, c])]: the calls are made in array order, the
    first rejection in time rejects the whole, and the results come in
    array order.  All of three is all of the first two, and of the
    third. *)
Definition promiseAll3 {S A B C} (a : t S A) (b : t S B) (c : t S C)
  : t S (A * B * C) :=
  promiseAll2 (promiseAll2 a b) c.

(** The network: what the [n]-th request of a run is answered, and the
    moment at which that answer arrives. *)
Record Network := {
  answer :> nat -> Request -> Outcome Response;
  arrivesAt : nat -> nat
}.

(** The promise [fetch] returns for the [n]-th request. *)
Definition promise (net : Network) (n : nat) (rq : Request) : Promise :=
  {| number := n; arrives := arrivesAt net n; outcome := net n rq |}.

(** Running a computation against a network from a state: the requests it
    issued in order, how it settled, and the state its updates leave. *)
Fixpoint run {S A} (net : Network) (n : nat) (p : t S A) (s : S)
  : list Request * Outcome A * S :=
  match p with
  | Return a => ([], Resolved a, s)
  | Throw e => ([], Rejected e, s)
  | Issue rq k =>
      let '(trace, o, s') := run net (Datatypes.S n) (k (promise net n rq)) s in
      (rq :: trace, o, s')
  | Await pr k => run net n (k (outcome pr)) s
  | SetState f k => run net n k (f s)
  end.

Definition requestsOf {S A} (r : list Request * Outcome A * S) : list Request :=
  fst (fst r).
Definition outcomeOf {S A} (r : list Request * Outcome A * S) : Outcome A :=
  snd (fst r).
Definition stateOf {S A} (r : list Request * Outcome A * S) : S :=
  snd r.

(** The requests of a run whose answers the computation has received by
    the time it settles, by their numbers, in the order of reception.  A
    request issued and not among them is still in flight. *)
Fixpoint answered {S A} (net : Network) (n : nat) (p : t S A) : list nat :=
  match p with
  | Return _ | Throw _ => []
  | Issue rq k => answered net (Datatypes.S n) (k (promise net n rq))
  | Await pr k => number pr :: answered net n (k (outcome pr))
  | SetState _ k => answered net n k
  end.

(** A computation that cannot go on by itself: it has settled or it
    waits. *)
Definition idle {S A} (p : t S A) : bool :=
  match p with
  | Issue _ _ | SetState _ _ => false
  | _ => true
  end.

(** The requests a computation issues before it first waits, and the
    computation from that wait on. *)
Fixpoint started {S A} (net : Network) (n : nat) (p : t S A) : list Request :=
  match p with
  | Issue rq k => rq :: started net (Datatypes.S n) (k (promise net n rq))
  | SetState _ k => started net n k
  | _ => []
  end.

Fixpoint waiting {S A} (net : Network) (n : nat) (p : t S A) : t S A :=
  match p with
  | Issue rq k => waiting net (Datatypes.S n) (k (promise net n rq))
  | SetState _ k => waiting net n k
  | _ => p
  end.

(** The requests a computation issues as long as the answers it waits
    for are received by the moment [limit]. *)
Fixpoint requestsUntil {S A} (limit : nat) (net : Network) (n : nat) (p : t S A)
  : list Request :=
  match p with
  | Return _ | Throw _ => []
  | Issue rq k => rq :: requestsUntil limit net (Datatypes.S n) (k (promise net n rq))
  | Await pr k =>
      if (received pr <=? limit)%nat then requestsUntil limit net n (k (outcome pr))
      else []
  | SetState _ k => requestsUntil limit net n k
  end.

End Async.

Declare Scope async_scope.
Delimit Scope async_scope with async.
Notation "x <- p ;; q" := (Async.bind p (fun x => q))
  (at level 61, p at next level, right associativity) : async_scope.
Notation "p ;;; q" := (Async.bind p (fun _ => q))
  (at level 61, right associativity) : async_scope.

(* ------------------------------------------------------------------ *)
(** ** The API client (lib/apiClient.ts) *)

Module ApiClient.
Import JsString Json Async.
Open Scope async_scope.

(** What the client takes from its surroundings: the configured base URL,
    the token in storage ([localStorage.getItem("auth_token")], on native
    what [authService.getToken()] resolves to), and two built-ins of the
    host: Number::toString, and [encodeURIComponent], which throws a
    URIError on a malformed string. *)
Record Env := {
  API_BASE_URL : string;
  storedToken : option string;
  numberToString : float -> string;
  encodeURIComponent : string -> Outcome string
}.

Record ApiError := {
  message : string;
  errors : option value;
  statusCode : option Z
}.

(** [getAuthToken]: the stored token, [null] when it is missing or empty. *)
Definition getAuthToken (env : Env) : option string :=
  match storedToken env with
  | Some (String c s) => Some (String c s)
  | _ => None
  end.

(** [getAuthHeaders]. *)
Definition getAuthHeaders (env : Env) : list (string * string) :=
  let token := getAuthToken env in
  let headers := [("Content-Type", "application/json")] in
  match token with
  | Some (String c s) => headers ++ [("Authorization", "Bearer " ++ String c s)]
  | _ => headers
  end.

Definition unexpected : string := "An unexpected error occurred".

(** [handleApiError(error)]. *)
Definition handleApiError (error : Thrown) : ApiError :=
  match error with
  | ApiClientError m code errs =>
      {| message := m; errors := errs; statusCode := code |}
  | PlainError m =>
      {| message := if isEmpty m then unexpected else m;
         errors := None; statusCode := None |}
  | NotAnError _ =>
      {| message := unexpected; errors := None; statusCode := None |}
  end.

(** [a || d] where the default [d] is a string. *)
Definition orString (a : option value) (d : string) : value :=
  match a with
  | Some v => if truthy a then v else JStr d
  | None => JStr d
  end.

(** The message an error body gives: [errorData.message || fallback]. *)
Definition messageOf (m : option value) (verb endpoint : string) : value :=
  orString m (verb ++ " " ++ endpoint ++ " failed").

(** The [if (!response.ok)] branch of the methods: read the error body,
    fall back to [{ message: "Request failed" }] when it is not JSON, and
    build what is thrown.  The arguments of [new ApiClientError(...)] are
    evaluated in order, and a property read on [null] throws first; the
    constructor then hands the message to [Error], which converts it to
    a string, and a conversion that throws leaves with its TypeError. *)
Definition failure (env : Env) (verb endpoint : string) (response : Response) : Thrown :=
  let errorData :=
    match json response with
    | Resolved v => v
    | Rejected _ => JObj [("message", JStr "Request failed")]
    end in
  match member errorData "message" with
  | Rejected e => e
  | Resolved m =>
      match member errorData "errors" with
      | Rejected e => e
      | Resolved errs =>
          match ToString (numberToString env) (messageOf m verb endpoint) with
          | Rejected e => e
          | Resolved text => ApiClientError text (Some (status response)) errs
          end
      end
  end.

(** What a method does with what [fetch] settled to: a rejection is not
    caught, a response that is not ok is turned into a failure, and an ok
    response is parsed. *)
Definition receive (env : Env) (verb endpoint : string) (fetched : Outcome Response)
  : Outcome value :=
  match fetched with
  | Rejected e => Rejected e
  | Resolved response =>
      if negb (ok response) then Rejected (failure env verb endpoint response)
      else json response
  end.

(** [apiClient.get(endpoint)].  No caller in the sources passes the
    [options] argument, and it is left out. *)
Definition getRequest (env : Env) (endpoint : string) : Request :=
  {| method := "GET";
     url := API_BASE_URL env ++ endpoint;
     headers := getAuthHeaders env;
     body := None |}.

Definition get {S} (env : Env) (endpoint : string) : Async.t S value :=
  Fetch (getRequest env endpoint)
        (fun fetched => await (receive env "GET" endpoint fetched)).

(** [apiClient.post(endpoint, data)]; the body is [JSON.stringify(data)]
    when [data] is truthy, kept here as the value that is serialised. *)
Definition postRequest (env : Env) (endpoint : string) (data : option value) : Request :=
  {| method := "POST";
     url := API_BASE_URL env ++ endpoint;
     headers := getAuthHeaders env;
     body := if truthy data then data else None |}.

Definition post {S} (env : Env) (endpoint : string) (data : option value)
  : Async.t S value :=
  Fetch (postRequest env endpoint data)
        (fun fetched => await (receive env "POST" endpoint fetched)).

(** Answers that are all there at once, as those of a server at hand,
    and answers that arrive in the order of the requests. *)
Definition atOnce (n : nat) : nat := 0%nat.
Definition inOrder (n : nat) : nat := n.

(** A network on which no request gets a response: every [fetch] rejects
    with [e]. *)
Definition noResponse (e : Thrown) : Network :=
  {| answer := fun _ _ => Rejected e; arrivesAt := atOnce |}.

(** A network that answers every request with the same response. *)
Definition always (r : Response) : Network :=
  {| answer := fun _ _ => Resolved r; arrivesAt := atOnce |}.

(** A sample environment for examples: the default base URL of the
    source and a stored token.  The sample queries hold letters and
    spaces, so the sample encoder escapes the space and nothing else; no
    sample message is a number, so the number printer is never consulted. *)
Fixpoint encodeSpaces (s : string) : string :=
  match s with
  | EmptyString => EmptyString
  | String c s' =>
      if Ascii.eqb c " " then "%20" ++ encodeSpaces s' else String c (encodeSpaces s')
  end.

Definition sampleEnv : Env :=
  {| API_BASE_URL := "http://192.168.1.6:3000";
     storedToken := Some "token-1";
     numberToString := fun _ => "NaN";
     encodeURIComponent := fun s => Resolved (encodeSpaces s) |}.

End ApiClient.

(* ------------------------------------------------------------------ *)
(** ** Resource services (services/borrowService.ts, hooks/useBorrows) *)

Module BorrowService.
Import JsString Json Async ApiClient.
Open Scope async_scope.

Definition getCurrentBorrows {S} (env : Env) : Async.t S value :=
  get env "/api/borrow/current".

Definition getOverdueBorrows {S} (env : Env) : Async.t S value :=
  get env "/api/borrow/overdue".

Definition payFine {S} (env : Env) (fineId : string) (amount : float) : Async.t S value :=
  let payload := JObj [("fineId", JStr fineId); ("amount", JNum amount)] in
  post env "/api/borrow/pay-fine" (Some payload).

(** [searchBooks(query)] of the React Query hooks. *)
Definition searchBooks {S} (env : Env) (query : string) : Async.t S value :=
  if isEmpty (trim query) then Return (JArr [])
  else
    q <- await (encodeURIComponent env query) ;;
    get env ("/api/books/search?q=" ++ q).

(** [useBookSearch]: whether the query is enabled at all. *)
Definition bookSearchEnabled (query : string) (enabled : bool) : bool :=
  enabled && (0 <? String.length (trim query))%nat.

End BorrowService.

(* ------------------------------------------------------------------ *)
(** ** The dashboard hook (hooks/useDashboardData) *)

Module Dashboard.
Import JsString Json Async ApiClient.
Open Scope async_scope.

Record StudentDashboardData := {
  studentName : value;
  studentId : value;
  major : value;
  totalBorrows : nat;
  activeBorrows : nat;
  totalFines : float;
  overdueBooks : list value;
  currentBorrows : list value
}.

Record DashboardState := {
  data : option StudentDashboardData;
  isLoading : bool;
  isRefreshing : bool;
  isPaying : bool;
  error : option string;
  payError : option string
}.

(** The state [useState] starts from. *)
Definition initialState : DashboardState :=
  {| data := None; isLoading := true; isRefreshing := false;
     isPaying := false; error := None; payError := None |}.

Definition Hook := Async.t DashboardState.

(** [(borrow as any)?.fine ?? borrow.book?.fineAmount ?? 0]: the second
    operand is read only when the first is [null] or [undefined], and
    reading [borrow.book] throws when [borrow] is [null]. *)
Definition fineOf (borrow : value) : Outcome value :=
  match optMember (Some borrow) "fine" with
  | None | Some JNull =>
      match member borrow "book" with
      | Rejected e => Rejected e
      | Resolved book =>
          match optMember book "fineAmount" with
          | None | Some JNull => Resolved (JNum 0)
          | Some v => Resolved v
          end
      end
  | Some v => Resolved v
  end.

(** One step of the reducer: [sum + (Number.isFinite(fine) ? fine : 0)]. *)
Definition addFine (sum : float) (fine : value) : float :=
  (sum + match fine with
         | JNum x => if Number_isFinite (Some fine) then x else 0
         | _ => 0
         end)%float.

(** [overdueBorrows.reduce((sum, borrow) => ..., 0)]. *)
Fixpoint reduceFines (borrows : list value) (sum : float) : Outcome float :=
  match borrows with
  | [] => Resolved sum
  | borrow :: rest =>
      match fineOf borrow with
      | Rejected e => Rejected e
      | Resolved fine => reduceFines rest (addFine sum fine)
      end
  end.

Definition totalFinesOf (overdueBorrows : list value) : Outcome float :=
  reduceFines overdueBorrows 0%float.

(** [a || b || c || d || fallback] over properties of the profile. *)
Fixpoint firstTruthy (profile : option value) (keys : list string) (fallback : string)
  : value :=
  match keys with
  | [] => JStr fallback
  | key :: rest =>
      match optMember profile key with
      | Some v => if truthy (Some v) then v else firstTruthy profile rest fallback
      | None => firstTruthy profile rest fallback
      end
  end.

(** [p.catch(() => null)]. *)
Definition catchNull {S} (p : Async.t S value) : Async.t S value :=
  tryCatch p (fun _ => Return JNull).

Section Hook.

Variable env : Env.

(** [authService.getProfile()]: the service is not among the sources; it
    is some asynchronous computation resolving to the profile, with no
    access to the state of the hook. *)
Variable getProfile : Async.t unit value.

(** The data built from the three responses. *)
Definition buildData (profile currentBorrowsRaw overdueBorrowsRaw : value)
  : Outcome StudentDashboardData :=
  let currentBorrows := arrayOrEmpty currentBorrowsRaw in
  let overdueBorrows := arrayOrEmpty overdueBorrowsRaw in
  let studentName :=
    firstTruthy (Some profile) ["fullName"; "full_name"; "name"; "email"] "Student" in
  let studentId :=
    firstTruthy (Some profile) ["studentId"; "student_id"; "id"] "N/A" in
  let major :=
    firstTruthy (Some profile) ["major"; "department"; "program"] "Major not set" in
  match totalFinesOf overdueBorrows with
  | Rejected e => Rejected e
  | Resolved totalFines =>
      Resolved {| studentName := studentName;
                  studentId := studentId;
                  major := major;
                  totalBorrows := List.length currentBorrows;
                  activeBorrows := List.length currentBorrows;
                  totalFines := totalFines;
                  overdueBooks := overdueBorrows;
                  currentBorrows := currentBorrows |}
  end.

(** [fetchData]. *)
Definition fetchData : Hook unit :=
  SetState (fun prev =>
              {| data := data prev; isLoading := isLoading prev;
                 isRefreshing := isRefreshing prev; isPaying := isPaying prev;
                 error := None; payError := payError prev |})
    (tryCatch
       (fetched <- promiseAll3 (catchNull (lift getProfile))
                     (BorrowService.getCurrentBorrows env)
                     (BorrowService.getOverdueBorrows env) ;;
        let '(profile, currentBorrowsRaw, overdueBorrowsRaw) := fetched in
        d <- await (buildData profile currentBorrowsRaw overdueBorrowsRaw) ;;
        SetState (fun prev =>
                    {| data := Some d; isLoading := false;
                       isRefreshing := isRefreshing prev; isPaying := isPaying prev;
                       error := None; payError := payError prev |})
                 (Return tt))
       (fun caught =>
          let apiError := handleApiError caught in
          SetState (fun prev =>
                      {| data := data prev; isLoading := false;
                         isRefreshing := isRefreshing prev; isPaying := isPaying prev;
                         error := Some (message apiError); payError := payError prev |})
                   (Return tt))).

(** [refresh]. *)
Definition refresh : Hook unit :=
  SetState (fun prev =>
              {| data := data prev; isLoading := isLoading prev;
                 isRefreshing := true; isPaying := isPaying prev;
                 error := None; payError := payError prev |})
    (fetchData ;;;
     SetState (fun prev =>
                 {| data := data prev; isLoading := isLoading prev;
                    isRefreshing := false; isPaying := isPaying prev;
                    error := error prev; payError := payError prev |})
              (Return tt)).

(** What [payFine] resolves to: [{ success, message? }]. *)
Record PayResult := {
  success : bool;
  failureMessage : option string
}.

(** [payFine(fineId, amount)]. *)
Definition payFine (fineId : string) (amount : float) : Hook PayResult :=
  SetState (fun prev =>
              {| data := data prev; isLoading := isLoading prev;
                 isRefreshing := isRefreshing prev; isPaying := true;
                 error := error prev; payError := None |})
    (tryFinally
       (tryCatch
          (BorrowService.payFine env fineId amount ;;;
           fetchData ;;;
           Return {| success := true; failureMessage := None |})
          (fun caught =>
             let apiError := handleApiError caught in
             SetState (fun prev =>
                         {| data := data prev; isLoading := isLoading prev;
                            isRefreshing := isRefreshing prev; isPaying := isPaying prev;
                            error := error prev; payError := Some (message apiError) |})
                      (Return {| success := false;
                                 failureMessage := Some (message apiError) |})))
       (SetState (fun prev =>
                    {| data := data prev; isLoading := isLoading prev;
                       isRefreshing := isRefreshing prev; isPaying := false;
                       error := error prev; payError := payError prev |})
                 (Return tt))).

(** The state after a load that produced [d], and after one that failed
    with [e]. *)
Definition loaded (d : StudentDashboardData) (s : DashboardState) : DashboardState :=
  {| data := Some d; isLoading := false;
     isRefreshing := isRefreshing s; isPaying := isPaying s;
     error := None; payError := payError s |}.

Definition failed (e : Thrown) (s : DashboardState) : DashboardState :=
  {| data := data s; isLoading := false;
     isRefreshing := isRefreshing s; isPaying := isPaying s;
     error := Some (message (handleApiError e)); payError := payError s |}.

(** What a load that starts as request number [n] meets on the network.
    The three calls are made in array order: the profile call issues the
    requests it has before it first waits, and the requests for the
    current and the overdue borrows leave next, as numbers
    [currentNumber] and [overdueNumber].  What the profile call issues
    after its first wait is numbered from there on. *)
Definition profileStarted (net : Network) (n : nat) : list Request :=
  started net n getProfile.

Definition currentNumber (net : Network) (n : nat) : nat :=
  (n + List.length (profileStarted net n))%nat.

Definition overdueNumber (net : Network) (n : nat) : nat :=
  Datatypes.S (currentNumber net n).

Definition currentPromise (net : Network) (n : nat) : Promise :=
  promise net (currentNumber net n) (getRequest env "/api/borrow/current").

Definition overduePromise (net : Network) (n : nat) : Promise :=
  promise net (overdueNumber net n) (getRequest env "/api/borrow/overdue").

Definition currentAnswer (net : Network) (n : nat) : Outcome value :=
  receive env "GET" "/api/borrow/current" (outcome (currentPromise net n)).

Definition overdueAnswer (net : Network) (n : nat) : Outcome value :=
  receive env "GET" "/api/borrow/overdue" (outcome (overduePromise net n)).

(** The profile call from its first wait on, run to its end: the profile
    it resolves to, [null] when it rejects, and the requests it issues. *)
Definition profileAnswer (net : Network) (n : nat) : value :=
  match outcomeOf (run net (Datatypes.S (overdueNumber net n))
                       (waiting net n getProfile) tt) with
  | Resolved v => v
  | Rejected _ => JNull
  end.

Definition profileLater (net : Network) (n : nat) : list Request :=
  requestsOf (run net (Datatypes.S (overdueNumber net n))
                  (waiting net n getProfile) tt).

(** Whether the answer for the current borrows is received before the
    one for the overdue borrows. *)
Definition currentFirst (net : Network) (n : nat) : bool :=
  (received (currentPromise net n) <=? received (overduePromise net n))%nat.

(** What [Promise.all] settles to: the three results when both borrow
    calls resolve, and otherwise the rejection of a borrow call that
    comes first in time. *)
Definition fetched (net : Network) (n : nat) : Outcome (value * value * value) :=
  match currentAnswer net n, overdueAnswer net n with
  | Resolved currentBorrowsRaw, Resolved overdueBorrowsRaw =>
      Resolved (profileAnswer net n, currentBorrowsRaw, overdueBorrowsRaw)
  | Rejected e, Resolved _ => Rejected e
  | Resolved _, Rejected e => Rejected e
  | Rejected e1, Rejected e2 => Rejected (if currentFirst net n then e1 else e2)
  end.

Definition fetchedData (net : Network) (n : nat) : Outcome StudentDashboardData :=
  match fetched net n with
  | Rejected e => Rejected e
  | Resolved (profile, currentBorrowsRaw, overdueBorrowsRaw) =>
      buildData profile currentBorrowsRaw overdueBorrowsRaw
  end.

(** The moment at which [Promise.all] rejects, when it does. *)
Definition rejectedAt (net : Network) (n : nat) : option nat :=
  match currentAnswer net n, overdueAnswer net n with
  | Resolved _, Resolved _ => None
  | Rejected _, Resolved _ => Some (received (currentPromise net n))
  | Resolved _, Rejected _ => Some (received (overduePromise net n))
  | Rejected _, Rejected _ =>
      Some (if currentFirst net n then received (currentPromise net n)
            else received (overduePromise net n))
  end.

(** The requests of a load: the first requests of the three calls, and
    what the profile call has issued since by the time [Promise.all]
    settles. *)
Definition loadRequests (net : Network) (n : nat) : list Request :=
  (profileStarted net n ++
   getRequest env "/api/borrow/current" ::
   getRequest env "/api/borrow/overdue" ::
   match rejectedAt net n with
   | None => profileLater net n
   | Some limit =>
       requestsUntil limit net (Datatypes.S (overdueNumber net n))
                     (waiting net n getProfile)
   end)%list.

(** The request [payFine] posts. *)
Definition payFineRequest (fineId : string) (amount : float) : Request :=
  postRequest env "/api/borrow/pay-fine"
              (Some (JObj [("fineId", JStr fineId); ("amount", JNum amount)])).

End Hook.

(** The fine amount an overdue item carries: its own [fine], else the
    [fineAmount] of its book; [None] when neither is there. *)
Definition fineAmount (borrow : value) : option value :=
  nullish (optMember (Some borrow) "fine")
          (optMember (optMember (Some borrow) "book") "fineAmount").

(** An amount as a summand: itself when it is a finite number, zero when
    it is missing, not a number, NaN or infinite. *)
Definition amountOrZero (amount : option value) : float :=
  match amount with
  | Some (JNum x) => if PrimFloat.is_finite x then x else 0%float
  | _ => 0%float
  end.

(** The sum of a list of numbers, accumulated from the left from zero as
    [reduce] does. *)
Definition sumOf (amounts : list float) : float :=
  fold_left PrimFloat.add amounts 0%float.

(** An item of the overdue list is a record, not [null]. *)
Definition isRecord (borrow : value) : bool :=
  match borrow with
  | JNull => false
  | _ => true
  end.

(** The states around a payment: while it is pending, once it is over,
    and once it has failed with [e]. *)
Definition startPaying (s : DashboardState) : DashboardState :=
  {| data := data s; isLoading := isLoading s;
     isRefreshing := isRefreshing s; isPaying := true;
     error := error s; payError := None |}.

Definition donePaying (s : DashboardState) : DashboardState :=
  {| data := data s; isLoading := isLoading s;
     isRefreshing := isRefreshing s; isPaying := false;
     error := error s; payError := payError s |}.

Definition payFailed (e : Thrown) (s : DashboardState) : DashboardState :=
  {| data := data s; isLoading := isLoading s;
     isRefreshing := isRefreshing s; isPaying := false;
     error := error s; payError := Some (message (handleApiError e)) |}.

(** Samples for examples: a dashboard loaded before the payment, showing
    one overdue book with a fine of 12.5; a server that takes the payment
    and then reports no overdue book; and one that takes the payment and
    is unavailable afterwards. *)
Definition staleData : StudentDashboardData :=
  {| studentName := JStr "Student"; studentId := JStr "N/A";
     major := JStr "Major not set";
     totalBorrows := 1; activeBorrows := 1; totalFines := 12.5;
     overdueBooks := [JObj [("id", JStr "b1"); ("fine", JNum 12.5)]];
     currentBorrows := [JObj [("id", JStr "b1")]] |}.

Definition loadedState : DashboardState :=
  {| data := Some staleData; isLoading := false; isRefreshing := false;
     isPaying := false; error := None; payError := None |}.

Definition paymentTaken : Response :=
  {| status := 200; json := Resolved (JObj [("success", JBool true)]) |}.


Definition serverDownAfterPayment : Network :=
  {| answer := fun _ rq =>
       if String.eqb (method rq) "POST" then Resolved paymentTaken
       else Resolved {| status := 503;
                        json := Rejected (PlainError "Unexpected token <") |};
     arrivesAt := atOnce |}.

(** The fine list of the specification's example: 12.5, none, "bad". *)
Definition sampleOverdue : list value :=
  [ JObj [("id", JStr "b1"); ("fine", JNum 12.5)];
    JObj [("id", JStr "b2")];
    JObj [("id", JStr "b3"); ("fine", JStr "bad")] ].

End Dashboard.

(* ------------------------------------------------------------------ *)
(** ** The auth store (store/authStore.ts) *)

Module AuthStore.
Import JsString.

Record AuthUser := {
  id : option string;
  name : option string;
  email : option string
}.

(** The data fields of [AuthState]. *)
Record AuthState := {
  user : option AuthUser;
  token : option string;
  isAuthenticated : bool;
  hydrated : bool
}.

(** A property of a payload: absent ([undefined]), [null], or a value. *)
Inductive Field (A : Type) :=
| Absent
| Null
| Given (a : A).
Arguments Absent {A}.
Arguments Null {A}.
Arguments Given {A} a.

(** A destructured parameter with default [null]: [{ x = null }]. *)
Definition defaultNull {A} (f : Field A) : option A :=
  match f with
  | Absent | Null => None
  | Given a => Some a
  end.

(** [Boolean(token)]. *)
Definition Boolean (token : option string) : bool :=
  match token with
  | Some s => negb (isEmpty s)
  | None => false
  end.

Definition initial : AuthState :=
  {| user := None; token := None; isAuthenticated := false; hydrated := false |}.

(** [setHydrated: (value) => set({ hydrated: value })]; [set] merges the
    given fields into the state. *)
Definition setHydrated (value : bool) (s : AuthState) : AuthState :=
  {| user := user s; token := token s; isAuthenticated := isAuthenticated s;
     hydrated := value |}.

(** [setAuth: ({ user = null, token = null }) => set({ user, token,
    isAuthenticated: Boolean(token) })]. *)
Definition setAuth (payloadUser : Field AuthUser) (payloadToken : Field string)
  (s : AuthState) : AuthState :=
  let user := defaultNull payloadUser in
  let token := defaultNull payloadToken in
  {| user := user; token := token; isAuthenticated := Boolean token;
     hydrated := hydrated s |}.

(** [logout]. *)
Definition logout (s : AuthState) : AuthState :=
  {| user := None; token := None; isAuthenticated := false;
     hydrated := hydrated s |}.

(** The actions of the store, and a run of them. *)
Inductive Action :=
| SetHydrated (value : bool)
| SetAuth (payloadUser : Field AuthUser) (payloadToken : Field string)
| Logout.

Definition step (s : AuthState) (a : Action) : AuthState :=
  match a with
  | SetHydrated v => setHydrated v s
  | SetAuth u t => setAuth u t s
  | Logout => logout s
  end.

Definition runActions (actions : list Action) (s : AuthState) : AuthState :=
  fold_left step actions s.

(** A token is truthy when it is a non-empty string. *)
Definition truthyToken (token : option string) : Prop :=
  exists c s, token = Some (String c s).

(** The invariant: authenticated exactly when the token is truthy. *)
Definition consistent (s : AuthState) : Prop :=
  isAuthenticated s = true <-> truthyToken (token s).

End AuthStore.

(* ------------------------------------------------------------------ *)
(** ** Numbers as text *)

Module Numbers.

(** ToString of a number that is an integer: its decimal digits, with a
    minus sign when negative. *)
Definition Z_text (z : Z) : string := NilZero.string_of_int (Z.to_int z).

(** A count that may be NaN, as [calculateDaysLeft] returns it. *)
Definition countText (n : option Z) : string :=
  match n with
  | Some z => Z_text z
  | None => "NaN"
  end.


(** The double-quote character. *)
Definition quote : string := String (Ascii.ascii_of_nat 34) EmptyString.

End Numbers.

(* ------------------------------------------------------------------ *)
(** ** The other methods of the API client (lib/apiClient.ts) *)

Module ApiClientMethods.
Import JsString Json Async ApiClient.

(** [apiClient.put(endpoint, data)]. *)
Definition putRequest (env : Env) (endpoint : string) (data : option value) : Request :=
  {| method := "PUT";
     url := API_BASE_URL env ++ endpoint;
     headers := getAuthHeaders env;
     body := if truthy data then data else None |}.

Definition put {S} (env : Env) (endpoint : string) (data : option value)
  : Async.t S value :=
  Fetch (putRequest env endpoint data)
        (fun fetched => await (receive env "PUT" endpoint fetched)).

(** [apiClient.delete(endpoint)]. *)
Definition deleteRequest (env : Env) (endpoint : string) : Request :=
  {| method := "DELETE";
     url := API_BASE_URL env ++ endpoint;
     headers := getAuthHeaders env;
     body := None |}.

Definition delete {S} (env : Env) (endpoint : string) : Async.t S value :=
  Fetch (deleteRequest env endpoint)
        (fun fetched => await (receive env "DELETE" endpoint fetched)).

End ApiClientMethods.

(* ------------------------------------------------------------------ *)
(** ** The days-left badge of the web dashboard *)

Module WebDashboard.
Import Numbers.

Inductive BadgeIcon := CheckCircle | Timer | AlertCircle.

Record Badge := {
  className : string;
  icon : BadgeIcon;
  text : string
}.

(** [daysLeft > n] and [daysLeft >= n]; both are false on NaN. *)
Definition gt (daysLeft : option Z) (n : Z) : bool :=
  match daysLeft with Some d => (n <? d)%Z | None => false end.
Definition ge (daysLeft : option Z) (n : Z) : bool :=
  match daysLeft with Some d => (n <=? d)%Z | None => false end.

(** [DaysLeftBadge({ daysLeft })]. *)
Definition DaysLeftBadge (daysLeft : option Z) : Badge :=
  if gt daysLeft 7 then
    {| className := "inline-flex items-center space-x-xs rounded-full px-sm py-xs text-sm font-semibold bg-success-light text-success";
       icon := CheckCircle;
       text := countText daysLeft ++ " Days Left" |}
  else if ge daysLeft 3 then
    {| className := "inline-flex items-center space-x-xs rounded-full px-sm py-xs text-sm font-semibold bg-warning-light text-warning";
       icon := Timer;
       text := countText daysLeft ++ " Days Left" |}
  else
    {| className := "inline-flex items-center space-x-xs rounded-full px-sm py-xs text-sm font-semibold bg-error-light text-error";
       icon := AlertCircle;
       text := match daysLeft with
               | Some 1%Z => "1 Day Left"
               | _ => countText daysLeft ++ " Days Left"
               end |}.

(** What the borrow card shows: the badge of [calculateDaysLeft(borrow.dueDate)]. *)
Definition cardBadge (h : Dates.Host) (dueDate : string) : Badge :=
  DaysLeftBadge (Dates.calculateDaysLeft h dueDate).

End WebDashboard.

(* ------------------------------------------------------------------ *)
(** ** The theme provider (theme/ThemeContext.tsx) *)

Module Theme.
Import Json.

Inductive ThemeMode := light | dark.

(** The string a mode is: [ThemeMode = "light" | "dark"]. *)
Definition modeText (m : ThemeMode) : string :=
  match m with light => "light" | dark => "dark" end.


Definition STORAGE_KEY : string := "portlib-theme-mode".



(** The device's secure store (expo-secure-store, a dependency): the
    entries it holds, and whether it is out of order, in which case every
    call rejects and nothing is written. *)
Record SecureStore := {
  entries : list (string * string);
  outOfOrder : bool
}.

Fixpoint entry (key : string) (l : list (string * string)) : option string :=
  match l with
  | [] => None
  | (k, v) :: rest => if String.eqb k key then Some v else entry key rest
  end.

Definition getItemAsync (store : SecureStore) (key : string) : Outcome (option string) :=
  if outOfOrder store then Rejected (PlainError "secure store unavailable")
  else Resolved (entry key (entries store)).

Definition setItemAsync (store : SecureStore) (key value : string)
  : SecureStore * Outcome unit :=
  if outOfOrder store then (store, Rejected (PlainError "secure store unavailable"))
  else ({| entries := (key, value) :: entries store; outOfOrder := false |},
        Resolved tt).

(** The state of [ThemeProvider]. *)
Record ThemeState := {
  mode : ThemeMode;
  ready : bool
}.

Definition initialTheme : ThemeState := {| mode := light; ready := false |}.

(** The effect that runs on mount: [load()]. *)
Definition load (store : SecureStore) (s : ThemeState) : ThemeState :=
  let loaded :=
    match getItemAsync store STORAGE_KEY with
    | Resolved (Some stored) =>
        if String.eqb stored "dark" then dark
        else if String.eqb stored "light" then light
        else mode s
    | Resolved None => mode s
    | Rejected _ => mode s
    end in
  {| mode := loaded; ready := true |}.

(** [toggleTheme()].  A render of the provider defines the function
    anew, and the function reads the [mode] of that render: the next
    mode is the opposite of the mode it captured, not of the state at the
    time of the call.  The state is updated at once; a failure to persist
    the mode is logged and otherwise ignored.  The write is taken to reach
    the store before the next call does. *)
Definition toggleTheme (captured : ThemeMode) (store : SecureStore) (s : ThemeState)
  : SecureStore * ThemeState :=
  let nextMode := match captured with light => dark | dark => light end in
  (fst (setItemAsync store STORAGE_KEY (modeText nextMode)),
   {| mode := nextMode; ready := ready s |}).


(** The other mode. *)
Definition flip (m : ThemeMode) : ThemeMode :=
  match m with light => dark | dark => light end.

(** The provider between two events: its state, the mode of its last
    render, which is the one the [toggleTheme] in the hands of the
    consumers captured, and the store of the device. *)
Record Provider := {
  current : ThemeState;
  rendered : ThemeMode;
  device : SecureStore
}.

(** What happens to a provider: a consumer calls the [toggleTheme] it
    holds, or React renders the provider again with the state of the
    moment. *)
Inductive Event := Press | Render.

Definition handle (p : Provider) (e : Event) : Provider :=
  match e with
  | Press =>
      let '(store1, s1) := toggleTheme (rendered p) (device p) (current p) in
      {| current := s1; rendered := rendered p; device := store1 |}
  | Render =>
      {| current := current p; rendered := mode (current p); device := device p |}
  end.

Definition after (events : list Event) (p : Provider) : Provider :=
  fold_left handle events p.

(** [n] presses, each followed by a render. *)
Fixpoint rounds (n : nat) : list Event :=
  match n with
  | O => []
  | S n' => Press :: Render :: rounds n'
  end.

End Theme.

(* ------------------------------------------------------------------ *)
(** ** The mobile dashboard (screens/StudentDashboard) *)

Module MobileDashboard.
Import JsString Numbers Dates.
Open Scope Z_scope.

(** [Book] and [Borrow] of services/borrowService.ts, with the fields the
    functions below read. *)
Record Book := {
  title : string;
  bookDueDate : option string
}.

Record Borrow := {
  id : string;
  book : Book;
  borrowDate : string;
  dueDate : string
}.

(** [a || b] on a string and an optional string. *)
Definition orOption (a : string) (b : option string) : option string :=
  if isEmpty a then b else Some a.

(** [borrow.dueDate || borrow.book.dueDate]. *)
Definition dueOf (borrow : Borrow) : option string :=
  orOption (dueDate borrow) (bookDueDate (book borrow)).






Inductive Tone := info | success | warning.

Record ActivityItem := {
  activityTitle : string;
  subtitle : string;
  timestamp : string;
  tone : Tone
}.

Section Activity.

Variable h : Host.

(** date-fns [format(date, "MMM d")]. *)
Variable formatMonthDay : Z -> string.

(** [formatDueDate(value)]. *)
Definition formatDueDate (value : option string) : string :=
  formatMonthDay (parseDate h value).

Definition overdueActivity (borrow : Borrow) : ActivityItem :=
  let due :=
    match dueOf borrow with
    | Some (String c s) => String c s
    | _ => ""
    end in
  {| activityTitle := "Overdue: " ++ title (book borrow);
     subtitle := Z_text (getDaysOverdue h (Some due)) ++ " days overdue";
     timestamp := formatDueDate (Some due);
     tone := warning |}.

Definition currentActivity (borrow : Borrow) : ActivityItem :=
  {| activityTitle := title (book borrow);
     subtitle :=
       "Due " ++ formatDueDate (match dueOf borrow with
                                | Some (String c s) => Some (String c s)
                                | _ => Some (borrowDate borrow)
                                end);
     timestamp := formatDueDate (Some (if isEmpty (borrowDate borrow)
                                       then dueDate borrow
                                       else borrowDate borrow));
     tone := info |}.

(** [recentActivity]. *)
Definition recentActivity (overdueBooks currentBorrows : list Borrow) : list ActivityItem :=
  let activity :=
    (map overdueActivity (firstn 2 overdueBooks) ++
     map currentActivity (firstn 3 currentBorrows))%list in
  match activity with
  | [] =>
      [ {| activityTitle := "No recent activity";
           subtitle := "Borrow a book to see updates here.";
           timestamp := formatMonthDay (Date_now h);
           tone := info |} ]
  | _ => activity
  end.

End Activity.

(** [hasContent]. *)
Definition hasContent (overdueBooks currentBorrows : list Borrow) : bool :=
  (0 <? List.length currentBorrows)%nat || (0 <? List.length overdueBooks)%nat.

End MobileDashboard.

(* ------------------------------------------------------------------ *)
(** ** The book detail view (components/web/BookDetailView.tsx) *)

Module BookDetail.
Import JsString.

(** [str.slice(0, n)]. *)
Definition slice0 (n : nat) (s : string) : string := String.substring 0 n s.

(** [descriptionPreview]. *)
Definition descriptionPreview (description : option string) (showFullDescription : bool)
  : option string :=
  match description with
  | Some d =>
      if negb (isEmpty d) && negb showFullDescription
      then Some (slice0 320 d ++ (if (320 <? String.length d)%nat then "..." else ""))
      else Some d
  | None => None
  end.

(** What is rendered: [descriptionPreview || "No description available."]. *)
Definition shownDescription (description : option string) (showFullDescription : bool)
  : string :=
  orElse (descriptionPreview description showFullDescription)
         "No description available.".

(** [isAvailable], which decides whether the Borrow button is rendered. *)
Definition isAvailable (availability : option string) : bool :=
  includes (toLowerCase (orElse availability "")) "available".

End BookDetail.

(* ------------------------------------------------------------------ *)
(** ** The book browsing page (components/web/BookBrowsingPage.tsx) *)

Module BookBrowsing.
Import JsString Numbers Json Async ApiClient.
Open Scope async_scope.

(** Messages of the TypeErrors of reading a property of [undefined] and
    of calling what is not a function (the texts are the engine's; V8's
    are used). *)
Definition undefinedReadMessage (key : string) : string :=
  "Cannot read properties of undefined (reading '" ++ key ++ "')".

Definition notAFunctionMessage (callee : string) : string :=
  callee ++ " is not a function".

(** [(book.availability || "").toLowerCase()]: a [null] book has no
    properties, and a truthy availability that is not a string has no
    [toLowerCase]. *)
Definition loweredAvailability (book : value) : Outcome string :=
  match member book "availability" with
  | Rejected e => Rejected e
  | Resolved a =>
      if truthy a then
        match a with
        | Some (JStr s) => Resolved (toLowerCase s)
        | _ =>
            Rejected (PlainError
                        (notAFunctionMessage
                           ("(book.availability || " ++ quote ++ quote ++ ").toLowerCase")))
        end
      else Resolved (toLowerCase "")
  end.

(** The filter callback:
    [(book.availability || "").toLowerCase() === availabilityFilter.toLowerCase()]. *)
Definition matchesFilter (availabilityFilter : string) (book : value) : Outcome bool :=
  match loweredAvailability book with
  | Rejected e => Rejected e
  | Resolved status => Resolved (String.eqb status (toLowerCase availabilityFilter))
  end.

(** [array.filter(callback)] with a callback that may throw. *)
Fixpoint filterArray (callback : value -> Outcome bool) (items : list value)
  : Outcome (list value) :=
  match items with
  | [] => Resolved []
  | item :: rest =>
      match callback item with
      | Rejected e => Rejected e
      | Resolved keep =>
          match filterArray callback rest with
          | Rejected e => Rejected e
          | Resolved kept => Resolved (if keep then item :: kept else kept)
          end
      end
  end.

(** What [fetchBooks] resolves to: [{ items: filtered, nextPage: null }]
    for an array response, [{ ...response, items: filtered }] otherwise. *)
Inductive Page :=
| FinalPage (items : list value)
| SpreadPage (response : value) (items : option value).

(** The part of [fetchBooks] after the response has arrived. *)
Definition toPage (availabilityFilter : string) (response : value) : Outcome Page :=
  match response with
  | JArr books =>
      if String.eqb availabilityFilter "all" then Resolved (FinalPage books)
      else
        match filterArray (matchesFilter availabilityFilter) books with
        | Rejected e => Rejected e
        | Resolved filtered => Resolved (FinalPage filtered)
        end
  | _ =>
      match member response "items" with
      | Rejected e => Rejected e
      | Resolved items =>
          if String.eqb availabilityFilter "all" then Resolved (SpreadPage response items)
          else
            match items with
            | None => Rejected (PlainError (undefinedReadMessage "filter"))
            | Some JNull => Rejected (PlainError (nullReadMessage "filter"))
            | Some (JArr books) =>
                match filterArray (matchesFilter availabilityFilter) books with
                | Rejected e => Rejected e
                | Resolved filtered =>
                    Resolved (SpreadPage response (Some (JArr filtered)))
                end
            | Some _ =>
                Rejected (PlainError (notAFunctionMessage "response.items.filter"))
            end
      end
  end.

(** The endpoint [fetchBooks] requests; [pageParam] defaults to 1. *)
Definition booksEndpoint (env : Env) (debouncedSearch activeCategory : string)
  (pageParam : option float) : Outcome string :=
  let page := numberToString env (match pageParam with Some p => p | None => 1%float end) in
  let isSearching := (2 <=? String.length (trim debouncedSearch))%nat in
  if isSearching then
    match encodeURIComponent env debouncedSearch with
    | Rejected e => Rejected e
    | Resolved q => Resolved ("/books/search?q=" ++ q ++ "&page=" ++ page ++ "&limit=10")
    end
  else if negb (isEmpty activeCategory) && negb (String.eqb activeCategory "All") then
    match encodeURIComponent env activeCategory with
    | Rejected e => Rejected e
    | Resolved c =>
        Resolved ("/books/available?page=" ++ page ++ "&limit=10" ++ "&category=" ++ c)
    end
  else Resolved ("/books/available?page=" ++ page ++ "&limit=10").

(** [fetchBooks({ pageParam })]. *)
Definition fetchBooks {S} (env : Env) (debouncedSearch activeCategory : string)
  (availabilityFilter : string) (pageParam : option float) : Async.t S Page :=
  endpoint <- await (booksEndpoint env debouncedSearch activeCategory pageParam) ;;
  response <- get env endpoint ;;
  await (toPage availabilityFilter response).

(** [getNextPageParam: (lastPage) => lastPage.nextPage ?? null]; [None]
    is [null], no further page. *)
Definition getNextPageParam (lastPage : Page) : option value :=
  match lastPage with
  | FinalPage _ => None
  | SpreadPage response _ =>
      match optMember (Some response) "nextPage" with
      | None | Some JNull => None
      | Some p => Some p
      end
  end.

(** The availability text a book carries, as the card and its badge read
    it: the string under [availability], or none. *)
Definition statusOf (book : value) : option string :=
  match optMember (Some book) "availability" with
  | Some (JStr s) => Some s
  | _ => None
  end.

(** A book the filter callback can read: not [null], and with an
    availability that is a string or falsy. *)
Definition readable (book : value) : bool :=
  match book with
  | JNull => false
  | _ =>
      match optMember (Some book) "availability" with
      | Some (JStr _) => true
      | a => negb (truthy a)
      end
  end.

(** The filter on readable books. *)
Definition keeps (availabilityFilter : string) (book : value) : bool :=
  String.eqb (toLowerCase (orElse (statusOf book) ""))
             (toLowerCase availabilityFilter).

(** The items of a page when they are an array. *)
Definition itemsOf (page : Page) : option (list value) :=
  match page with
  | FinalPage items => Some items
  | SpreadPage _ (Some (JArr items)) => Some items
  | SpreadPage _ _ => None
  end.

(** A listing of three books, for examples. *)
Definition sampleListing : value :=
  JArr [ JObj [("id", JStr "b1"); ("availability", JStr "AVAILABLE")];
         JObj [("id", JStr "b2"); ("availability", JStr "available now")];
         JObj [("id", JStr "b3"); ("availability", JStr "Checked Out")] ].

End BookBrowsing.

(* ------------------------------------------------------------------ *)
(** ** The navigator (navigation/AppNavigator) *)

Module Navigator.
Import AuthStore.

Inductive Shown :=
| Spinner
| DashboardStack
| AuthStack.

(** [AppNavigator]. *)
Definition AppNavigator (s : AuthState) : Shown :=
  if negb (hydrated s) then Spinner
  else if isAuthenticated s then DashboardStack
  else AuthStack.

End Navigator.

(* ------------------------------------------------------------------ *)
(** ** The profile page: password form (components/web/UserProfilePage) *)

Module ProfilePage.
Import JsString.

Record PasswordPayload := {
  currentPassword : string;
  newPassword : string;
  confirmPassword : string
}.

(** [passwordError]. *)
Definition passwordError (passwordForm : PasswordPayload) : option string :=
  if negb (isEmpty (newPassword passwordForm))
     && negb (isEmpty (confirmPassword passwordForm))
     && negb (String.eqb (newPassword passwordForm) (confirmPassword passwordForm))
  then Some "Passwords do not match"
  else None.

(** [disabled] of the Update Password button. *)
Definition updateDisabled (passwordForm : PasswordPayload) (isPending : bool) : bool :=
  match passwordError passwordForm with
  | Some (String _ _) => true
  | _ => false
  end || isPending.

End ProfilePage.

(* ================================================================== *)
(** * Properties *)

(* ------------------------------------------------------------------ *)
(** ** Strings *)

Module JsStringFacts.
Import JsString.

Lemma append_empty_r (s : string) : s ++ "" = s.
Proof.
  induction s as [|c s IH]; simpl; [reflexivity | now rewrite IH].
Qed.

Lemma append_assoc (a b c : string) : (a ++ b) ++ c = a ++ (b ++ c).
Proof.
  induction a as [|x a IH]; simpl; [reflexivity | now rewrite IH].
Qed.

Lemma startsWith_spec (s p : string) :
  startsWith s p = true <-> exists post, s = p ++ post.
Proof.
  revert s; induction p as [|a p IH]; intros s.
  - destruct s; simpl; split; intros; eauto.
  - destruct s as [|b s]; simpl.
    + split; [discriminate | intros [post H]; discriminate].
    + rewrite andb_true_iff, Ascii.eqb_eq, IH. split.
      * intros [-> [post ->]]. now exists post.
      * intros [post H]. injection H as -> ->. split; [reflexivity | now exists post].
Qed.

(** [includes] decides occurrence as a contiguous part. *)
Lemma includes_spec (s sub : string) :
  includes s sub = true <-> occursIn sub s.
Proof.
  unfold occursIn. induction s as [|c s IH].
  - cbn [includes]. rewrite orb_false_r, startsWith_spec. split.
    + intros [post H]. now exists "", post.
    + intros [pre [post H]]. destruct pre; [now exists post | discriminate].
  - cbn [includes]. rewrite orb_true_iff, startsWith_spec, IH. split.
    + intros [[post H] | [pre [post H]]].
      * now exists "", post.
      * exists (String c pre), post. simpl. now rewrite H.
    + intros [pre [post H]]. destruct pre as [|x pre].
      * left. now exists post.
      * right. injection H as _ H. now exists pre, post.
Qed.

Lemma toLowerCase_app (a b : string) :
  toLowerCase (a ++ b) = toLowerCase a ++ toLowerCase b.
Proof.
  induction a as [|c a IH]; simpl; [reflexivity | now rewrite IH].
Qed.

(** A prefix of the lower-cased string is the lower-casing of a prefix. *)
Lemma toLowerCase_split (s x y : string) :
  toLowerCase s = x ++ y ->
  exists a b, s = a ++ b /\ toLowerCase a = x /\ toLowerCase b = y.
Proof.
  revert s; induction x as [|c x IH]; intros s H.
  - exists "", s. simpl in *. auto.
  - destruct s as [|d s]; [discriminate|].
    simpl in H. injection H as Hc H.
    destruct (IH s H) as [a [b [-> [Ha Hb]]]].
    exists (String d a), b. simpl. now rewrite Hc, Ha, Hb.
Qed.

(** Searching the lower-cased status for a lower-case word is searching
    the status for the word up to letter case. *)
Lemma includes_toLowerCase (s word : string) :
  includes (toLowerCase s) (toLowerCase word) = true <-> occursIgnoringCase word s.
Proof.
  rewrite includes_spec. unfold occursIn, occursIgnoringCase. split.
  - intros [pre [post H]].
    destruct (toLowerCase_split _ _ _ H) as [a [r [-> [_ Hr]]]].
    destruct (toLowerCase_split _ _ _ Hr) as [w [b [-> [Hw _]]]].
    now exists a, w, b.
  - intros [pre [w [post [-> Hw]]]].
    exists (toLowerCase pre), (toLowerCase post).
    now rewrite !toLowerCase_app, Hw.
Qed.

Lemma trimStart_all_space (s : string) :
  trimStart s = "" <-> (forall c, occursIn (String c "") s -> isWhiteSpace c = true).
Proof.
  induction s as [|x s IH]; simpl.
  - split; [|reflexivity]. intros _ c [pre [post H]].
    destruct pre; discriminate.
  - destruct (isWhiteSpace x) eqn:Hx.
    + rewrite IH. split.
      * intros H c [pre [post E]]. destruct pre as [|y pre].
        -- simpl in E. injection E as <- _. exact Hx.
        -- injection E as _ E. apply H. now exists pre, post.
      * intros H c [pre [post E]]. apply H.
        exists (String x pre), post. simpl. now rewrite E.
    + split; [discriminate|]. intros H.
      rewrite (H x) in Hx; [discriminate|]. now exists "", s.
Qed.

Lemma trimEnd_not_space (c : ascii) (s : string) :
  isWhiteSpace c = false -> trimEnd (String c s) <> "".
Proof.
  intros H. simpl. destruct (trimEnd s); [rewrite H|]; discriminate.
Qed.

(** The trimmed string is empty exactly when every character is white
    space. *)
Lemma trim_empty_iff (s : string) :
  trim s = "" <-> (forall c, occursIn (String c "") s -> isWhiteSpace c = true).
Proof.
  rewrite <- trimStart_all_space. unfold trim. split.
  - intros H. induction s as [|x s IH]; [reflexivity|].
    simpl in *. destruct (isWhiteSpace x) eqn:Hx; [now apply IH|].
    exfalso. revert H. now apply trimEnd_not_space.
  - intros ->. reflexivity.
Qed.

End JsStringFacts.

(* ------------------------------------------------------------------ *)
(** ** Availability classification *)

Module AvailabilityFacts.
Import JsString JsStringFacts Availability.

(** The two searches of the if-chain, read on the raw status. *)
Lemma includes_available (s : string) :
  includes (toLowerCase s) "available" = true <-> occursIgnoringCase "available" s.
Proof. exact (includes_toLowerCase s "available"). Qed.

Lemma includes_checked (s : string) :
  includes (toLowerCase s) "checked" = true <-> occursIgnoringCase "checked" s.
Proof. exact (includes_toLowerCase s "checked"). Qed.

Ltac split_searches s :=
  let Ha := fresh "Ha" in
  let Hc := fresh "Hc" in
  pose proof (includes_available s) as Ha;
  pose proof (includes_checked s) as Hc;
  destruct (includes (toLowerCase s) "available");
  destruct (includes (toLowerCase s) "checked").

Ltac settle_kind :=
  repeat match goal with
  | H : true = true <-> _ |- _ =>
      let H' := fresh in assert (H' := proj1 H eq_refl); clear H
  | H : false = true <-> _ |- _ =>
      let H' := fresh in
      assert (H' := fun x => Bool.diff_false_true (proj2 H x)); clear H
  end.

(** The class chosen by the browsing page is the presentation the status
    falls under. *)
Lemma badgeClass_classifies (raw : option string) (k : Kind) :
  kindOfBadgeClass (badgeClassByAvailability raw) = Some k <->
  classifies (orElse raw "") k.
Proof.
  unfold badgeClassByAvailability.
  split_searches (orElse raw ""); settle_kind;
    destruct k; cbn; split; intros G;
    try discriminate G; try reflexivity; try tauto; auto.
Qed.

(** The styles chosen by the detail view are the presentation the status,
    defaulted to "Available", falls under. *)
Lemma styles_classifies (raw : option string) (k : Kind) :
  kindOfStyles (availabilityStyles raw) = k <->
  classifies (orElse raw "Available") k.
Proof.
  unfold availabilityStyles.
  split_searches (orElse raw "Available"); settle_kind;
    destruct k; cbn; split; intros G;
    try discriminate G; try reflexivity; try tauto; auto.
Qed.

Lemma detail_label (raw : option string) :
  detailBadgeText raw = canonicalLabel (kindOfStyles (availabilityStyles raw)).
Proof.
  unfold detailBadgeText, availabilityStyles.
  destruct (includes _ "available"); [reflexivity|].
  destruct (includes _ "checked"); reflexivity.
Qed.

(** C2, as the code has it.  Classification is a case-insensitive
    substring match into available, checked-out or on-hold, with
    "available" tested first and "checked" second.  The browsing page
    classifies a missing or empty status as on-hold and shows the raw
    status text; the detail view classifies a missing or empty status as
    available and shows the canonical label of the presentation. *)
Theorem availability_classification (raw : option string) :
  (forall k, kindOfBadgeClass (badgeClassByAvailability raw) = Some k <->
             classifies (orElse raw "") k) /\
  listBadgeText raw = raw /\
  (forall k, kindOfStyles (availabilityStyles raw) = k <->
             classifies (orElse raw "Available") k) /\
  detailBadgeText raw = canonicalLabel (kindOfStyles (availabilityStyles raw)) /\
  kindOfBadgeClass (badgeClassByAvailability None) = Some onHold /\
  kindOfBadgeClass (badgeClassByAvailability (Some "")) = Some onHold /\
  kindOfStyles (availabilityStyles None) = available /\
  kindOfStyles (availabilityStyles (Some "")) = available.
Proof.
  split; [intro k; apply badgeClass_classifies|].
  split; [reflexivity|].
  split; [intro k; apply styles_classifies|].
  split; [apply detail_label|].
  repeat split; reflexivity.
Qed.

(** C2 as stated fails on the detail view and on a status holding both
    words: a missing or an empty status is shown as available, not
    on-hold; a status containing "checked" is shown as available when it
    also contains "available"; and the detail view shows its canonical
    label, not the status text it was given. *)
Lemma availability_counterexample :
  kindOfStyles (availabilityStyles None) <> onHold /\
  kindOfStyles (availabilityStyles (Some "")) <> onHold /\
  includes (toLowerCase "Checked out - unavailable") "checked" = true /\
  kindOfBadgeClass (badgeClassByAvailability (Some "Checked out - unavailable"))
    <> Some checkedOut /\
  kindOfStyles (availabilityStyles (Some "Checked out - unavailable")) <> checkedOut /\
  detailBadgeText (Some "AVAILABLE now") <> "AVAILABLE now".
Proof.
  repeat split; try reflexivity; vm_compute; discriminate.
Qed.

(** The examples of the specification. *)
Example availability_examples :
  map (fun s => kindOfBadgeClass (badgeClassByAvailability (Some s)))
      ["AVAILABLE"; "available now"; "Available"; "checked out"; "Reserved"]
  = [Some available; Some available; Some available; Some checkedOut; Some onHold]
  /\
  map (fun s => kindOfStyles (availabilityStyles (Some s)))
      ["AVAILABLE"; "available now"; "Available"; "checked out"; "Reserved"]
  = [available; available; available; checkedOut; onHold].
Proof. split; reflexivity. Qed.

End AvailabilityFacts.

(* ------------------------------------------------------------------ *)
(** ** Days left and greeting *)

Module DatesFacts.
Import Dates.
Open Scope Z_scope.

Lemma msPerDay_pos : 0 < msPerDay.
Proof. reflexivity. Qed.

(** [ceilDiv] is the mathematical ceiling of the quotient. *)
Lemma ceilDiv_ceiling (a b : Z) : 0 < b -> isCeilingOf (ceilDiv a b) a b.
Proof.
  intros Hb. unfold isCeilingOf, ceilDiv.
  pose proof (Z.mul_div_le (- a) b Hb).
  pose proof (Z.mul_succ_div_gt (- a) b Hb).
  lia.
Qed.

Lemma ceiling_unique (k k' a b : Z) :
  0 < b -> isCeilingOf k a b -> isCeilingOf k' a b -> k = k'.
Proof. unfold isCeilingOf. intros Hb H H'. nia. Qed.

Lemma ceilDiv_multiple (x b : Z) : 0 < b -> ceilDiv (x * b) b = x.
Proof.
  intros Hb. unfold ceilDiv.
  replace (- (x * b)) with ((- x) * b) by ring.
  rewrite Z.div_mul by lia. lia.
Qed.

Lemma roundDiv_multiple (x b : Z) : 0 < b -> roundDiv (x * b) b = x.
Proof.
  intros Hb. unfold roundDiv.
  replace (2 * (x * b) + b) with (x * (2 * b) + b) by ring.
  rewrite Z.div_add_l by lia.
  rewrite Z.div_small by lia. lia.
Qed.

Section FixedOffset.

Variables (offset now : Z) (parse iso : string -> option Z).

Let h := fixedOffsetHost offset now parse iso.

Lemma setHoursZero_fixed (t : Z) :
  setHoursZero h t = Day (t + offset) * msPerDay - offset.
Proof. reflexivity. Qed.

(** The start of the local day is a local midnight, at or before [t] and
    less than a day away. *)
Lemma setHoursZero_midnight (t : Z) :
  (LocalTime h (setHoursZero h t)) mod msPerDay = 0 /\
  setHoursZero h t <= t < setHoursZero h t + msPerDay.
Proof.
  rewrite setHoursZero_fixed. unfold LocalTime, Day.
  cbn [localOffsetAtUTC h fixedOffsetHost].
  pose proof msPerDay_pos as Hd.
  split.
  - replace ((t + offset) / msPerDay * msPerDay - offset + offset)
      with ((t + offset) / msPerDay * msPerDay) by ring.
    apply Z.mod_mul. lia.
  - pose proof (Z.mul_div_le (t + offset) msPerDay Hd).
    pose proof (Z.mul_succ_div_gt (t + offset) msPerDay Hd).
    lia.
Qed.

Lemma differenceInCalendarDays_fixed (later earlier : Z) :
  differenceInCalendarDays h later earlier =
  Day (later + offset) - Day (earlier + offset).
Proof.
  unfold differenceInCalendarDays. rewrite !setHoursZero_fixed.
  unfold LocalTime. cbn [localOffsetAtUTC h fixedOffsetHost].
  set (a := Day (later + offset)). set (b := Day (earlier + offset)).
  replace (a * msPerDay - offset + offset - (b * msPerDay - offset + offset))
    with ((a - b) * msPerDay) by ring.
  apply roundDiv_multiple, msPerDay_pos.
Qed.

Lemma calculateDaysLeft_fixed (dueDate : string) (D : Z) :
  parse dueDate = Some D ->
  calculateDaysLeft h dueDate = Some (Day (D + offset) - Day (now + offset)).
Proof.
  intros HD. unfold calculateDaysLeft.
  change (Date_parse h dueDate) with (parse dueDate). rewrite HD.
  change (Date_now h) with now.
  rewrite !setHoursZero_fixed. f_equal.
  set (a := Day (D + offset)). set (b := Day (now + offset)).
  replace (a * msPerDay - offset - (b * msPerDay - offset))
    with ((a - b) * msPerDay) by ring.
  apply (ceilDiv_multiple _ msPerDay), msPerDay_pos.
Qed.

End FixedOffset.

(** On any host, [calculateDaysLeft] is NaN exactly on an invalid due
    date, and otherwise the ceiling of the difference of the two local
    midnights in days. *)
Lemma calculateDaysLeft_ceiling (h : Host) (dueDate : string) :
  match Date_parse h dueDate with
  | Some D =>
      exists k, calculateDaysLeft h dueDate = Some k /\
                isCeilingOf k (setHoursZero h D - setHoursZero h (Date_now h)) msPerDay
  | None => calculateDaysLeft h dueDate = None
  end.
Proof.
  unfold calculateDaysLeft. destruct (Date_parse h dueDate) as [D|]; [|reflexivity].
  eexists. split; [reflexivity|]. apply (ceilDiv_ceiling _ msPerDay), msPerDay_pos.
Qed.

(** The start of the local day, and with it the calendar-day difference,
    depends on an instant only through its local day number. *)
Lemma setHoursZero_same_day (h : Host) (t1 t2 : Z) :
  Day (LocalTime h t1) = Day (LocalTime h t2) -> setHoursZero h t1 = setHoursZero h t2.
Proof. unfold setHoursZero. now intros ->. Qed.

Lemma roundDiv_zero : roundDiv 0 msPerDay = 0.
Proof. reflexivity. Qed.

Lemma differenceInCalendarDays_self (h : Host) (t : Z) :
  differenceInCalendarDays h t t = 0.
Proof.
  unfold differenceInCalendarDays. rewrite Z.sub_diag. apply roundDiv_zero.
Qed.

Lemma getHours_atTime (h : Host) (now t : Z) :
  getHours (atTime h now) t = getHours h t.
Proof. reflexivity. Qed.

Lemma setHoursZero_atTime (h : Host) (now t : Z) :
  setHoursZero (atTime h now) t = setHoursZero h t.
Proof. reflexivity. Qed.

Lemma differenceInCalendarDays_atTime (h : Host) (now a b : Z) :
  differenceInCalendarDays (atTime h now) a b = differenceInCalendarDays h a b.
Proof. reflexivity. Qed.

Lemma calendarDays_from_now (h : Host) (now1 now2 : Z) (v : option string) :
  Day (LocalTime h now1) = Day (LocalTime h now2) ->
  differenceInCalendarDays h (parseDate (atTime h now1) v) now1 =
  differenceInCalendarDays h (parseDate (atTime h now2) v) now2 /\
  differenceInCalendarDays h now1 (parseDate (atTime h now1) v) =
  differenceInCalendarDays h now2 (parseDate (atTime h now2) v).
Proof.
  intros Hday. pose proof (setHoursZero_same_day h _ _ Hday) as Hz.
  unfold parseDate. cbn [atTime Date_now parseISO Date_parse].
  assert (Hself : differenceInCalendarDays h now1 now1 =
                  differenceInCalendarDays h now2 now2)
    by now rewrite !differenceInCalendarDays_self.
  assert (Hl : forall d, differenceInCalendarDays h d now1 =
                         differenceInCalendarDays h d now2)
    by (intros d; unfold differenceInCalendarDays; now rewrite Hz).
  assert (Hr : forall d, differenceInCalendarDays h now1 d =
                         differenceInCalendarDays h now2 d)
    by (intros d; unfold differenceInCalendarDays; now rewrite Hz).
  destruct v as [[|c s]|]; auto.
  destruct (parseISO h (String c s)); auto.
  destruct (Date_parse h (String c s)); auto.
Qed.

Lemma setHoursZero_localDay (h : Host) (t : Z) :
  setHoursZero h t = localDay h t * msPerDay - offsetAtMidnight h t.
Proof. reflexivity. Qed.

Lemma ceilDiv_add_multiple (x r b : Z) :
  0 < b -> ceilDiv (x * b + r) b = x + ceilDiv r b.
Proof.
  intros Hb. unfold ceilDiv.
  replace (- (x * b + r)) with (- r + (- x) * b) by ring.
  rewrite Z.div_add by lia. lia.
Qed.

Lemma ceilDiv_within (r b : Z) :
  0 < b ->
  (- b < r <= 0 -> ceilDiv r b = 0) /\ (0 < r <= b -> ceilDiv r b = 1).
Proof.
  intros Hb. unfold ceilDiv. split; intros Hr.
  - rewrite Z.div_small by lia. reflexivity.
  - replace (- r) with (b - r + (-1) * b) by ring.
    rewrite Z.div_add by lia. rewrite Z.div_small by lia. reflexivity.
Qed.

Lemma roundDiv_near_multiple (x r b : Z) :
  2 * Z.abs r < b -> roundDiv (x * b + r) b = x.
Proof.
  intros Hr. unfold roundDiv.
  replace (2 * (x * b + r) + b) with (2 * r + b + x * (2 * b)) by ring.
  rewrite Z.div_add by lia. rewrite Z.div_small by lia. reflexivity.
Qed.

(** The web dashboard's count on any host: the calendar-day difference,
    moved by the ceiling of the difference between the offsets of the two
    midnights. *)
Lemma calculateDaysLeft_days (h : Host) (dueDate : string) (D : Z) :
  Date_parse h dueDate = Some D ->
  setHoursZero h D - setHoursZero h (Date_now h) =
    (localDay h D - localDay h (Date_now h)) * msPerDay +
    (offsetAtMidnight h (Date_now h) - offsetAtMidnight h D) /\
  calculateDaysLeft h dueDate =
    Some (localDay h D - localDay h (Date_now h) +
          ceilDiv (offsetAtMidnight h (Date_now h) - offsetAtMidnight h D) msPerDay).
Proof.
  intros HD. unfold calculateDaysLeft. rewrite HD.
  rewrite !setHoursZero_localDay.
  set (dD := localDay h D). set (dN := localDay h (Date_now h)).
  set (oD := offsetAtMidnight h D). set (oN := offsetAtMidnight h (Date_now h)).
  assert (Heq : dD * msPerDay - oD - (dN * msPerDay - oN) =
                (dD - dN) * msPerDay + (oN - oD)) by ring.
  split; [exact Heq|]. rewrite Heq.
  now rewrite (ceilDiv_add_multiple _ _ msPerDay msPerDay_pos).
Qed.

(** The calendar-day difference of date-fns on a host whose days begin
    near midnight is the difference of the local day numbers. *)
Lemma differenceInCalendarDays_days (h : Host) (later earlier : Z) :
  daysBeginNearMidnight h ->
  differenceInCalendarDays h later earlier = localDay h later - localDay h earlier.
Proof.
  intros Hnear. unfold differenceInCalendarDays, LocalTime, setHoursZero.
  fold (localDay h later) (localDay h earlier).
  set (dl := localDay h later). set (de := localDay h earlier).
  pose proof (Hnear dl) as Hl. pose proof (Hnear de) as He.
  unfold startOfDaySkew in Hl, He.
  set (sl := localOffsetAtUTC h (UTC h (dl * msPerDay))) in *.
  set (se := localOffsetAtUTC h (UTC h (de * msPerDay))) in *.
  unfold UTC.
  set (ol := localOffsetAtLocal h (dl * msPerDay)) in *.
  set (oe := localOffsetAtLocal h (de * msPerDay)) in *.
  replace (dl * msPerDay - ol + sl - (de * msPerDay - oe + se))
    with ((dl - de) * msPerDay + ((sl - ol) - (se - oe))) by ring.
  apply roundDiv_near_multiple. lia.
Qed.

Lemma fixedOffset_near_midnight (offset now : Z) (parse iso : string -> option Z) :
  daysBeginNearMidnight (fixedOffsetHost offset now parse iso).
Proof.
  intros d. unfold startOfDaySkew.
  cbn [localOffsetAtUTC localOffsetAtLocal fixedOffsetHost].
  rewrite Z.sub_diag. reflexivity.
Qed.

Lemma eastern_near_midnight (now : Z) (parse : string -> option Z) :
  daysBeginNearMidnight (easternAt now parse).
Proof.
  intros d. unfold startOfDaySkew, UTC.
  cbn [localOffsetAtUTC localOffsetAtLocal easternAt].
  unfold msPerDay.
  destruct (Z.ltb_spec (d * (1000 * 60 * 60 * 24)) 1710036000000) as [Hl|Hl].
  - destruct (Z.ltb_spec (d * (1000 * 60 * 60 * 24) - -18000000) 1710054000000);
      lia.
  - destruct (Z.ltb_spec (d * (1000 * 60 * 60 * 24) - -14400000) 1710054000000);
      lia.
Qed.

(** C1, as the code has it.  On every host the web dashboard's
    [calculateDaysLeft] returns, for a valid due date, the ceiling of the
    difference between the two local midnights in days, and NaN for an
    invalid one.  The two midnights are the calendar-day difference
    apart, less the amount by which the offset from UTC at the due date's
    midnight exceeds the one at today's.  So the count is the
    calendar-day difference, negative by the number of days an item is
    overdue, when the two offsets are equal; with a clock change in
    between it is the calendar-day difference when the due date's
    midnight has the larger offset and one more when it has the smaller.
    The mobile dashboard's [getDaysLeft] is never negative, and on a
    host whose days begin near midnight it is the calendar-day
    difference clamped at zero, clock change or not, the days overdue
    being what [getDaysOverdue] returns. *)
Theorem days_left_computation (h : Host) :
  (forall dueDate : string,
     match Date_parse h dueDate with
     | Some D =>
         let days := localDay h D - localDay h (Date_now h) in
         let shift := offsetAtMidnight h (Date_now h) - offsetAtMidnight h D in
         exists k,
           calculateDaysLeft h dueDate = Some k /\
           isCeilingOf k (setHoursZero h D - setHoursZero h (Date_now h)) msPerDay /\
           setHoursZero h D - setHoursZero h (Date_now h) = days * msPerDay + shift /\
           (shift = 0 -> k = days) /\
           (- msPerDay < shift < 0 -> k = days) /\
           (0 < shift <= msPerDay -> k = days + 1)
     | None => calculateDaysLeft h dueDate = None
     end) /\
  (forall dueDate : option string,
     0 <= getDaysLeft h dueDate /\ 0 <= getDaysOverdue h dueDate) /\
  (daysBeginNearMidnight h ->
   forall dueDate : option string,
     let days := localDay h (parseDate h dueDate) - localDay h (Date_now h) in
     getDaysLeft h dueDate = Z.max 0 days /\
     getDaysOverdue h dueDate = Z.max 0 (- days)).
Proof.
  split; [|split].
  - intros dueDate. pose proof (calculateDaysLeft_ceiling h dueDate) as Hc.
    destruct (Date_parse h dueDate) as [D|] eqn:HD; [|exact Hc].
    destruct Hc as [k [Hk Hceil]].
    destruct (calculateDaysLeft_days h dueDate D HD) as [Hdiff Hdays].
    cbv zeta. exists k. split; [exact Hk|]. split; [exact Hceil|].
    split; [exact Hdiff|].
    rewrite Hk in Hdays. injection Hdays as ->.
    destruct (ceilDiv_within
                (offsetAtMidnight h (Date_now h) - offsetAtMidnight h D)
                msPerDay msPerDay_pos) as [H0 H1].
    split; [|split]; intros Hs.
    + rewrite H0 by (rewrite Hs; pose proof msPerDay_pos; lia). lia.
    + rewrite H0 by lia. lia.
    + rewrite H1 by lia. reflexivity.
  - intros dueDate. unfold getDaysLeft, getDaysOverdue. lia.
  - intros Hnear dueDate. cbv zeta. unfold getDaysLeft, getDaysOverdue.
    rewrite !(differenceInCalendarDays_days h _ _ Hnear).
    split; f_equal; lia.
Qed.

(** The examples of the specification through the theorem: in UTC on
    2024-01-08 an item due on 2024-01-10 has two days left on both
    dashboards.  And across a clock change: on US Eastern time on
    2024-03-11, an item due on 2024-03-10 is one day overdue; the two
    midnights are 23 hours apart, the web dashboard shows 0 and the
    mobile dashboard one day overdue. *)
Lemma days_left_on_jan08 :
  calculateDaysLeft (utcAt jan08) "2024-01-10" = Some 2 /\
  getDaysLeft (utcAt jan08) (Some "2024-01-10") = 2 /\
  calculateDaysLeft (easternAt mar11Eastern marchParse) "2024-03-10T00:00" = Some 0 /\
  getDaysLeft (easternAt mar11Eastern marchParse) (Some "2024-03-10T00:00") = 0 /\
  getDaysOverdue (easternAt mar11Eastern marchParse) (Some "2024-03-10T00:00") = 1.
Proof.
  destruct (days_left_computation (utcAt jan08)) as [Hweb [_ Hmobile]].
  destruct (days_left_computation (easternAt mar11Eastern marchParse))
    as [Hweb' [_ Hmobile']].
  specialize (Hweb "2024-01-10"). specialize (Hweb' "2024-03-10T00:00").
  cbn [Date_parse utcAt fixedOffsetHost easternAt] in Hweb, Hweb'.
  change (sampleParse "2024-01-10") with (Some jan10) in Hweb.
  change (marchParse "2024-03-10T00:00") with (Some mar10Eastern) in Hweb'.
  cbv zeta in Hweb, Hweb'.
  destruct Hweb as [k [Hk [_ [_ [Hsame _]]]]].
  destruct Hweb' as [k' [Hk' [_ [_ [_ [_ Hless]]]]]].
  destruct (Hmobile (fixedOffset_near_midnight 0 jan08 sampleParse sampleParse)
              (Some "2024-01-10")) as [Hleft _].
  destruct (Hmobile' (eastern_near_midnight mar11Eastern marchParse)
              (Some "2024-03-10T00:00")) as [Hleft' Hover'].
  split; [|split; [|split; [|split]]].
  - rewrite Hk, (Hsame eq_refl). reflexivity.
  - rewrite Hleft. reflexivity.
  - rewrite Hk', Hless by (vm_compute; split; [reflexivity | discriminate]).
    reflexivity.
  - rewrite Hleft'. reflexivity.
  - rewrite Hover'. reflexivity.
Defined.

(** C1 as stated fails on the mobile dashboard: on 2024-01-08, an item
    due on 2024-01-05 has ceiling -3, and [getDaysLeft] returns 0. *)
Lemma days_left_counterexample :
  Date_parse (utcAt jan08) "2024-01-05" = Some jan05 /\
  ceilDiv (setHoursZero (utcAt jan08) jan05 - setHoursZero (utcAt jan08) jan08) msPerDay
    = -3 /\
  getDaysLeft (utcAt jan08) (Some "2024-01-05") = 0 /\
  getDaysLeft (utcAt jan08) (Some "2024-01-05")
    <> ceilDiv (setHoursZero (utcAt jan08) jan05 - setHoursZero (utcAt jan08) jan08)
               msPerDay.
Proof.
  repeat split; try reflexivity. vm_compute. discriminate.
Qed.

(** The example of the specification, and the overdue case on the web
    dashboard. *)
Example days_left_examples :
  calculateDaysLeft (utcAt jan08) "2024-01-10" = Some 2 /\
  getDaysLeft (utcAt jan08) (Some "2024-01-10") = 2 /\
  calculateDaysLeft (utcAt jan08) "2024-01-05" = Some (-3) /\
  getDaysOverdue (utcAt jan08) (Some "2024-01-05") = 3 /\
  calculateDaysLeft (utcAt jan08) "next week" = None.
Proof. repeat split; reflexivity. Qed.

(** Where the ceiling matters: the local day of 2024-03-10 on US Eastern
    time has 23 hours, and an item due the next day is one day away. *)
Example days_left_short_day :
  let parse := fun _ : string => Some 1710129600000 in
  let h := easternAt 1710090000000 parse in
  setHoursZero h 1710129600000 - setHoursZero h (Date_now h) = 23 * msPerHour /\
  calculateDaysLeft h "2024-03-11T00:00" = Some 1.
Proof. split; reflexivity. Qed.

(** C8, as the code has it.  The derived-state functions take no "now":
    they read the host clock.  Their output is determined by the explicit
    input together with that reading: [greeting] by the local hour of the
    clock, the days-left functions by the due date and the local day of
    the clock. *)
Theorem derived_state_depends_on_clock (h : Host) (now1 now2 : Z) :
  (getHours h now1 = getHours h now2 ->
   greeting (atTime h now1) = greeting (atTime h now2)) /\
  (Day (LocalTime h now1) = Day (LocalTime h now2) ->
   forall dueDate,
     calculateDaysLeft (atTime h now1) dueDate =
     calculateDaysLeft (atTime h now2) dueDate) /\
  (Day (LocalTime h now1) = Day (LocalTime h now2) ->
   forall dueDate,
     getDaysLeft (atTime h now1) dueDate = getDaysLeft (atTime h now2) dueDate /\
     getDaysOverdue (atTime h now1) dueDate = getDaysOverdue (atTime h now2) dueDate).
Proof.
  split; [|split].
  - intros Hh. unfold greeting. cbn [atTime Date_now].
    now rewrite !getHours_atTime, Hh.
  - intros Hday dueDate. unfold calculateDaysLeft.
    cbn [atTime Date_now Date_parse]. rewrite !setHoursZero_atTime.
    rewrite (setHoursZero_same_day h _ _ Hday).
    destruct (Date_parse h dueDate); [|reflexivity]. now rewrite !setHoursZero_atTime.
  - intros Hday dueDate. unfold getDaysLeft, getDaysOverdue.
    rewrite !differenceInCalendarDays_atTime. cbn [atTime Date_now].
    destruct (calendarDays_from_now h now1 now2 dueDate Hday) as [-> ->].
    split; reflexivity.
Qed.

(** Two readings of the clock half an hour apart on the same morning
    give the same greeting and the same days left. *)
Lemma same_morning_same_output :
  greeting (utcAt (jan08 + 9 * msPerHour)) = greeting (utcAt (jan08 + 9 * msPerHour + 1800000)) /\
  calculateDaysLeft (utcAt (jan08 + 9 * msPerHour)) "2024-01-10" =
  calculateDaysLeft (utcAt (jan08 + 9 * msPerHour + 1800000)) "2024-01-10".
Proof.
  destruct (derived_state_depends_on_clock (utcAt 0) (jan08 + 9 * msPerHour)
              (jan08 + 9 * msPerHour + 1800000)) as [Hg [Hd _]].
  split; [exact (Hg eq_refl) | exact (Hd eq_refl "2024-01-10")].
Defined.

(** C8 as stated fails: with the same explicit input, two runs at
    different times differ.  [greeting] has no input at all and differs
    between 09:00 and 18:00; [calculateDaysLeft] of the same due date
    differs between 2024-01-08 and the day after. *)
Lemma ambient_clock_counterexample :
  greeting (utcAt (jan08 + 9 * msPerHour)) <> greeting (utcAt (jan08 + 18 * msPerHour)) /\
  calculateDaysLeft (utcAt jan08) "2024-01-10"
    <> calculateDaysLeft (utcAt (jan08 + msPerDay)) "2024-01-10" /\
  getDaysLeft (utcAt jan08) (Some "2024-01-10")
    <> getDaysLeft (utcAt (jan08 + msPerDay)) (Some "2024-01-10").
Proof.
  repeat split; vm_compute; discriminate.
Qed.

(** The bands of the greeting at their boundaries. *)
Example greeting_boundaries :
  map (fun hour => greeting (utcAt (jan08 + hour * msPerHour))) [0; 11; 12; 16; 17; 23]
  = ["Good Morning"; "Good Morning"; "Good Afternoon"; "Good Afternoon";
     "Good Evening"; "Good Evening"].
Proof. reflexivity. Qed.

End DatesFacts.

(* ------------------------------------------------------------------ *)
(** ** Running asynchronous code *)

Module AsyncFacts.
Import Json Async.

Lemma run_bind {S A B} (net : Network) (p : Async.t S A) (f : A -> Async.t S B) :
  forall n s,
    run net n (bind p f) s =
    let '(tr, o, s1) := run net n p s in
    match o with
    | Resolved a =>
        let '(tr2, o2, s2) := run net (n + List.length tr) (f a) s1 in
        ((tr ++ tr2)%list, o2, s2)
    | Rejected e => (tr, Rejected e, s1)
    end.
Proof.
  induction p as [a|e|rq k IH|pr k IH|g k IH]; intros n s; cbn [bind run].
  - rewrite Nat.add_0_r. now destruct (run net n (f a) s) as [[tr o] s'].
  - reflexivity.
  - rewrite IH.
    destruct (run net (Datatypes.S n) (k (promise net n rq)) s) as [[tr o] s1].
    destruct o as [a|e]; [|reflexivity].
    cbn [List.length]. rewrite Nat.add_succ_r.
    now destruct (run net _ (f a) s1) as [[tr2 o2] s2].
  - apply IH.
  - apply IH.
Qed.

Lemma run_tryCatch {S A} (net : Network) (p : Async.t S A) (h : Thrown -> Async.t S A) :
  forall n s,
    run net n (tryCatch p h) s =
    let '(tr, o, s1) := run net n p s in
    match o with
    | Resolved a => (tr, Resolved a, s1)
    | Rejected e =>
        let '(tr2, o2, s2) := run net (n + List.length tr) (h e) s1 in
        ((tr ++ tr2)%list, o2, s2)
    end.
Proof.
  induction p as [a|e|rq k IH|pr k IH|g k IH]; intros n s; cbn [tryCatch run].
  - reflexivity.
  - rewrite Nat.add_0_r. now destruct (run net n (h e) s) as [[tr o] s'].
  - rewrite IH.
    destruct (run net (Datatypes.S n) (k (promise net n rq)) s) as [[tr o] s1].
    destruct o as [a|e]; [reflexivity|].
    cbn [List.length]. rewrite Nat.add_succ_r.
    now destruct (run net _ (h e) s1) as [[tr2 o2] s2].
  - apply IH.
  - apply IH.
Qed.

Lemma run_settle {S A} (net : Network) (p : Async.t S A) :
  forall n s,
    run net n (settle p) s =
    let '(tr, o, s1) := run net n p s in (tr, Resolved o, s1).
Proof.
  induction p as [a|e|rq k IH|pr k IH|g k IH]; intros n s; cbn [settle run];
    try reflexivity.
  - rewrite IH.
    now destruct (run net (Datatypes.S n) (k (promise net n rq)) s) as [[tr o] s1].
  - apply IH.
  - apply IH.
Qed.

Lemma run_lift {S A} (net : Network) (p : Async.t unit A) :
  forall n (s : S) u,
    run net n (lift p) s =
    let '(tr, o, _) := run net n p u in (tr, o, s).
Proof.
  induction p as [a|e|rq k IH|pr k IH|g k IH]; intros n s u; cbn [lift run];
    try reflexivity.
  - rewrite (IH _ _ _ u).
    now destruct (run net (Datatypes.S n) (k (promise net n rq)) u) as [[tr o] s1].
  - apply IH.
  - apply IH.
Qed.

Lemma run_await {S A} (net : Network) (o : Outcome A) (n : nat) (s : S) :
  run net n (await o) s = ([], o, s).
Proof. now destruct o. Qed.

Lemma run_Fetch {S A} (net : Network) (rq : Request)
  (k : Outcome Response -> Async.t S A) (n : nat) (s : S) :
  run net n (Fetch rq k) s =
  let '(tr, o, s1) := run net (Datatypes.S n) (k (net n rq)) s in (rq :: tr, o, s1).
Proof. reflexivity. Qed.

(** The steps of [Promise.all] of two. *)
Lemma all2_Issue_l {S A B} (rq : Request) (k : Promise -> Async.t S A)
  (q : Async.t S B) :
  promiseAll2 (Issue rq k) q = Issue rq (fun pr => promiseAll2 (k pr) q).
Proof. now destruct q. Qed.

Lemma all2_Issue_r {S A B} (p : Async.t S A) (rq : Request)
  (k : Promise -> Async.t S B) :
  idle p = true ->
  promiseAll2 p (Issue rq k) = Issue rq (fun pr => promiseAll2 p (k pr)).
Proof. now destruct p. Qed.

Lemma all2_idle {S A B} (p : Async.t S A) (q : Async.t S B) :
  idle p = true -> idle q = true -> idle (promiseAll2 p q) = true.
Proof.
  destruct p, q; try discriminate; intros _ _; cbn; try reflexivity.
  now destruct (received pr <=? received pr0)%nat.
Qed.

(** The steps of [Promise.all] when neither computation can go on by
    itself. *)
Lemma all2_Return_Return {S A B} (x : A) (y : B) :
  @promiseAll2 S A B (Return x) (Return y) = Return (x, y).
Proof. reflexivity. Qed.

Lemma all2_Throw_l {S A B} (e : Thrown) (q : Async.t S B) :
  idle q = true -> @promiseAll2 S A B (Throw e) q = Throw e.
Proof. destruct q; cbn; intros H; try discriminate H; reflexivity. Qed.

Lemma all2_Await_Throw {S A B} (pp : Promise)
  (kp : Outcome Response -> Async.t S A) (e : Thrown) :
  @promiseAll2 S A B (Await pp kp) (Throw e) = Throw e.
Proof. reflexivity. Qed.

Lemma all2_Return_Await {S A B} (x : A) (pq : Promise)
  (kq : Outcome Response -> Async.t S B) :
  promiseAll2 (Return x) (Await pq kq) =
  Await pq (fun r => promiseAll2 (Return x) (kq r)).
Proof. reflexivity. Qed.

Lemma all2_Await_Return {S A B} (pp : Promise)
  (kp : Outcome Response -> Async.t S A) (y : B) :
  promiseAll2 (Await pp kp) (Return y) =
  Await pp (fun r => promiseAll2 (kp r) (Return y)).
Proof. reflexivity. Qed.

Lemma all2_Await_Await {S A B} (pp pq : Promise)
  (kp : Outcome Response -> Async.t S A) (kq : Outcome Response -> Async.t S B) :
  promiseAll2 (Await pp kp) (Await pq kq) =
  if (received pp <=? received pq)%nat
  then Await pp (fun r => promiseAll2 (kp r) (Await pq kq))
  else Await pq (fun r => promiseAll2 (Await pp kp) (kq r)).
Proof. reflexivity. Qed.

Lemma all3_Issue {S A B C} (rq : Request) (k : Promise -> Async.t S A)
  (b : Async.t S B) (c : Async.t S C) :
  promiseAll3 (Issue rq k) b c = Issue rq (fun pr => promiseAll3 (k pr) b c).
Proof. unfold promiseAll3. now rewrite !all2_Issue_l. Qed.

End AsyncFacts.

(* ------------------------------------------------------------------ *)
(** ** The API client and the services *)

Module ApiClientFacts.
Import JsString JsStringFacts Json Async ApiClient AsyncFacts.

Lemma run_get {S} (env : Env) (endpoint : string) (net : Network) (n : nat) (s : S) :
  run net n (get env endpoint) s =
  ([getRequest env endpoint],
   receive env "GET" endpoint (net n (getRequest env endpoint)), s).
Proof. unfold get. now rewrite run_Fetch, run_await. Qed.

Lemma run_post {S} (env : Env) (endpoint : string) (data : option value)
  (net : Network) (n : nat) (s : S) :
  run net n (post env endpoint data) s =
  ([postRequest env endpoint data],
   receive env "POST" endpoint (net n (postRequest env endpoint data)), s).
Proof. unfold post. now rewrite run_Fetch, run_await. Qed.

(** Induction on a parsed value, with the property at hand for the
    elements of an array and the members of an object. *)
Lemma value_induction (P : value -> Prop) :
  P JNull -> (forall b, P (JBool b)) -> (forall x, P (JNum x)) ->
  (forall s, P (JStr s)) ->
  (forall items, Forall P items -> P (JArr items)) ->
  (forall fields, Forall (fun member => P (snd member)) fields -> P (JObj fields)) ->
  forall v, P v.
Proof.
  intros Hnull Hbool Hnum Hstr Harr Hobj. fix IH 1.
  intros [|b|x|s|items|fields];
    [exact Hnull | apply Hbool | apply Hnum | apply Hstr | | ].
  - apply Harr. induction items as [|e rest IHrest]; constructor;
      [apply IH | exact IHrest].
  - apply Hobj. induction fields as [|[k v] rest IHrest]; constructor;
      [apply IH | exact IHrest].
Qed.

(** ToString throws on a value exactly when the value is not printable,
    and then it throws the TypeError of the conversion. *)
Lemma ToString_printable (numberToString : float -> string) (v : value) :
  match ToString numberToString v with
  | Resolved _ => printable v = true
  | Rejected e => printable v = false /\ e = PlainError notPrimitiveMessage
  end.
Proof.
  induction v as [|[|]|x|s|items IHitems|fields _] using value_induction;
    cbn [ToString printable]; try reflexivity.
  - induction IHitems as [|e rest He _ IHrest]; [reflexivity|].
    cbn [map joinWith forallb].
    assert (He' : match (match e with
                         | JNull => Resolved ""
                         | _ => ToString numberToString e
                         end) with
                  | Resolved _ => printable e = true
                  | Rejected t =>
                      printable e = false /\ t = PlainError notPrimitiveMessage
                  end)
      by (destruct e; try reflexivity; exact He).
    destruct (match e with JNull => Resolved "" | _ => ToString numberToString e end)
      as [first|t].
    + rewrite He'. cbn [andb].
      destruct rest as [|e' rest']; [reflexivity|].
      destruct (joinWith "," (map _ (e' :: rest'))) as [others|t]; exact IHrest.
    + destruct He' as [-> ->]. split; reflexivity.
  - destruct (lookup "toString" fields); [split|]; reflexivity.
Qed.

(** X1.  When an error response keeps its status.  A response that is
    not ok makes the client reject, and the rejection is reported with
    the status code of the response exactly when its body is not [null]
    and the message it gives can be converted to a string; otherwise
    what is reported is a TypeError, without status code and without
    field errors.  A body that is not JSON is reported as "Request
    failed", and a body with a message that is a non-empty string is
    reported with that message and its field errors. *)
Theorem error_response_status (env : Env) (verb endpoint : string) (response : Response) :
  let thrown := failure env verb endpoint response in
  let reported := handleApiError thrown in
  (ok response = false ->
   receive env verb endpoint (Resolved response) = Rejected thrown) /\
  (statusCode reported = Some (status response) <->
   json response <> Resolved JNull /\
   forall fields,
     json response = Resolved (JObj fields) ->
     printable (messageOf (lookup "message" fields) verb endpoint) = true) /\
  (statusCode reported = Some (status response) \/
   statusCode reported = None /\ errors reported = None /\
   exists m, thrown = PlainError m) /\
  (forall e, json response = Rejected e ->
             thrown = ApiClientError "Request failed" (Some (status response)) None) /\
  (forall fields c m,
     json response = Resolved (JObj fields) ->
     lookup "message" fields = Some (JStr (String c m)) ->
     thrown = ApiClientError (String c m) (Some (status response))
                             (lookup "errors" fields)).
Proof.
  cbv zeta. split; [unfold receive; now intros ->|]. unfold failure.
  destruct (json response) as [body|e].
  - destruct body as [|b|x|s|items|fields]; cbn [member].
    + (* null *)
      split; [split; [discriminate | intros [H _]; now elim H]|].
      split; [right; repeat split; now eexists|]. split; [discriminate|discriminate].
    + split; [split; [intros _; split; [discriminate|discriminate] | reflexivity]|].
      split; [now left|]. split; discriminate.
    + split; [split; [intros _; split; [discriminate|discriminate] | reflexivity]|].
      split; [now left|]. split; discriminate.
    + split; [split; [intros _; split; [discriminate|discriminate] | reflexivity]|].
      split; [now left|]. split; discriminate.
    + split; [split; [intros _; split; [discriminate|discriminate] | reflexivity]|].
      split; [now left|]. split; discriminate.
    + pose proof (ToString_printable (numberToString env)
                    (messageOf (lookup "message" fields) verb endpoint)) as Hp.
      destruct (ToString (numberToString env)
                  (messageOf (lookup "message" fields) verb endpoint)) as [text|t] eqn:Ht.
      * split; [split; [intros _; split; [discriminate|]|reflexivity]|].
        { intros fields' Heq. injection Heq as <-. exact Hp. }
        split; [now left|]. split; [discriminate|].
        intros fields' c m Heq Hm. injection Heq as <-.
        unfold messageOf, orString in Ht. rewrite Hm in Ht. cbn in Ht.
        injection Ht as <-. reflexivity.
      * destruct Hp as [Hp ->]. cbn [handleApiError statusCode errors].
        split; [split; [discriminate|]|].
        { intros [_ H]. rewrite (H fields eq_refl) in Hp. discriminate Hp. }
        split; [right; repeat split; now eexists|]. split; [discriminate|].
        intros fields' c m Heq Hm. injection Heq as <-.
        unfold messageOf, orString in Ht. rewrite Hm in Ht. cbn in Ht.
        discriminate Ht.
  - cbn. split; [split; [intros _; split; [discriminate|discriminate] | reflexivity]|].
    split; [now left|]. split; [reflexivity|discriminate].
Qed.

(** Two bodies that lose the status: [null], and a message that is an
    object with a [toString] of its own. *)
Example status_lost :
  statusCode (handleApiError
                (failure sampleEnv "GET" "/api/borrow/current"
                   {| status := 500; json := Resolved JNull |})) = None /\
  failure sampleEnv "GET" "/api/borrow/current"
    {| status := 500;
       json := Resolved (JObj [("message", JObj [("toString", JNum 1)])]) |}
  = PlainError "Cannot convert object to primitive value" /\
  failure sampleEnv "GET" "/api/borrow/current"
    {| status := 500; json := Resolved (JObj [("message", JObj [("code", JNum 1)])]) |}
  = ApiClientError "[object Object]" (Some 500%Z) None.
Proof. repeat split; reflexivity. Qed.

(** C5, as the code has it.  When no response arrives the rejection of
    [fetch] leaves the client as it is, and [handleApiError] turns it into
    an ApiError without status code and without field errors, whose
    message is the error's own message when it has one and the generic
    text only when the message is empty or the thrown value is not an
    Error. *)
Theorem transport_failure_error (S : Type) (env : Env) (endpoint : string)
  (data : option value) (s : S) (e : Thrown) :
  outcomeOf (run (noResponse e) 0 (get env endpoint) s) = Rejected e /\
  outcomeOf (run (noResponse e) 0 (post env endpoint data) s) = Rejected e /\
  (forall m,
     handleApiError (PlainError m) =
     {| message := if isEmpty m then unexpected else m;
        errors := None; statusCode := None |}) /\
  (forall v,
     handleApiError (NotAnError v) =
     {| message := unexpected; errors := None; statusCode := None |}).
Proof.
  rewrite run_get, run_post. repeat split; reflexivity.
Qed.

(** C5 as stated fails: a [fetch] that rejects with TypeError "Failed to
    fetch" surfaces with that message, not with the generic text. *)
Lemma transport_failure_counterexample :
  outcomeOf (run (noResponse (PlainError "Failed to fetch")) 0
                 (get sampleEnv "/api/borrow/current") tt)
    = Rejected (PlainError "Failed to fetch") /\
  message (handleApiError (PlainError "Failed to fetch")) = "Failed to fetch" /\
  message (handleApiError (PlainError "Failed to fetch")) <> unexpected /\
  statusCode (handleApiError (PlainError "Failed to fetch")) = None.
Proof.
  repeat split; try reflexivity. vm_compute. discriminate.
Qed.

(** C6 at the failing input: a response that is not ok and whose body is
    the JSON text [null].  The read of [errorData.message] throws a
    TypeError; no ApiClientError is raised and the status code is lost. *)
Theorem null_error_body_loses_status (S : Type) (env : Env) (endpoint : string)
  (code : Z) (s : S) :
  let response := {| status := code; json := Resolved JNull |} in
  let thrown := PlainError (nullReadMessage "message") in
  failure env "GET" endpoint response = thrown /\
  outcomeOf (run (always response) 0 (get env endpoint) s)
    = (if ok response then Resolved JNull else Rejected thrown) /\
  statusCode (handleApiError thrown) = None /\
  message (handleApiError thrown) = nullReadMessage "message".
Proof.
  intros response thrown. split; [reflexivity|]. split; [|split; reflexivity].
  rewrite run_get. unfold outcomeOf, always, receive. cbn [fst snd answer].
  now destruct (ok response).
Qed.

Example null_error_body_500 :
  outcomeOf (run (always {| status := 500; json := Resolved JNull |}) 0
                 (get sampleEnv "/api/borrow/overdue") tt)
  = Rejected (PlainError "Cannot read properties of null (reading 'message')").
Proof. reflexivity. Qed.

(** The error bodies the client was written for. *)
Example error_bodies :
  let body := JObj [("message", JStr "Fine already paid");
                    ("errors", JObj [("fineId", JArr [JStr "unknown"])])] in
  receive sampleEnv "POST" "/api/borrow/pay-fine"
          (Resolved {| status := 409; json := Resolved body |})
  = Rejected (ApiClientError "Fine already paid" (Some 409%Z)
                (Some (JObj [("fineId", JArr [JStr "unknown"])]))) /\
  receive sampleEnv "GET" "/api/borrow/current"
          (Resolved {| status := 502; json := Rejected (PlainError "Unexpected token <") |})
  = Rejected (ApiClientError "Request failed" (Some 502%Z) None) /\
  receive sampleEnv "GET" "/api/borrow/current"
          (Resolved {| status := 404; json := Resolved (JObj []) |})
  = Rejected (ApiClientError "GET /api/borrow/current failed" (Some 404%Z) None).
Proof. repeat split; reflexivity. Qed.

Lemma allWhiteSpace_spec (s : string) :
  allWhiteSpace s = true <->
  (forall c, occursIn (String c "") s -> isWhiteSpace c = true).
Proof.
  rewrite <- trimStart_all_space.
  induction s as [|c s IH]; simpl; [tauto|].
  destruct (isWhiteSpace c); simpl; [exact IH | split; discriminate].
Qed.

Lemma isEmpty_trim (s : string) : isEmpty (trim s) = allWhiteSpace s.
Proof.
  unfold trim. induction s as [|c s IH]; [reflexivity|].
  cbn [trimStart allWhiteSpace]. destruct (isWhiteSpace c) eqn:Hc; [exact IH|].
  pose proof (trimEnd_not_space c s Hc) as H.
  destruct (trimEnd (String c s)); [congruence | reflexivity].
Qed.

(** C10.  [searchBooks] on a query that is empty or all white space
    resolves to the empty list having issued no request.  On any other
    query it issues one GET to the search endpoint, unless encoding the
    query throws, in which case it issues none either.  The hook
    [useBookSearch] does not even enable the query when it is blank. *)
Theorem searchBooks_requests (S : Type) (env : Env) (query : string)
  (net : Network) (n : nat) (s : S) :
  (allWhiteSpace query = true <->
   (forall c, occursIn (String c "") query -> isWhiteSpace c = true)) /\
  (forall enabled,
     BorrowService.bookSearchEnabled query enabled = enabled && negb (allWhiteSpace query)) /\
  run net n (BorrowService.searchBooks env query) s =
  if allWhiteSpace query then ([], Resolved (JArr []), s)
  else
    match encodeURIComponent env query with
    | Rejected e => ([], Rejected e, s)
    | Resolved q =>
        let endpoint := "/api/books/search?q=" ++ q in
        ([getRequest env endpoint],
         receive env "GET" endpoint (net n (getRequest env endpoint)), s)
    end.
Proof.
  split; [apply allWhiteSpace_spec|].
  split.
  { intros enabled. unfold BorrowService.bookSearchEnabled.
    rewrite <- isEmpty_trim. now destruct (trim query). }
  unfold BorrowService.searchBooks. rewrite isEmpty_trim.
  destruct (allWhiteSpace query); [reflexivity|].
  destruct (encodeURIComponent env query) as [q|e]; [|reflexivity].
  cbn [await bind]. apply run_get.
Qed.

Example searchBooks_examples :
  requestsOf (run (noResponse (PlainError "offline")) 0
                  (BorrowService.searchBooks sampleEnv "") tt) = [] /\
  run (noResponse (PlainError "offline")) 0
      (BorrowService.searchBooks sampleEnv "   ") tt = ([], Resolved (JArr []), tt) /\
  map url (requestsOf (run (noResponse (PlainError "offline")) 0
                           (BorrowService.searchBooks sampleEnv " dune ") tt))
  = ["http://192.168.1.6:3000/api/books/search?q=%20dune%20"].
Proof. repeat split; reflexivity. Qed.

End ApiClientFacts.

(* ------------------------------------------------------------------ *)
(** ** The dashboard hook *)

Module DashboardFacts.
Import JsString Json Async ApiClient AsyncFacts ApiClientFacts Dashboard.

(** On a record the fine read by the reducer is the item's fine amount,
    zero standing in when there is none. *)
Lemma fineOf_record (borrow : value) :
  isRecord borrow = true ->
  exists fine,
    fineOf borrow = Resolved fine /\
    amountOrZero (Some fine) = amountOrZero (fineAmount borrow).
Proof.
  intros Hrec. unfold fineOf, fineAmount, nullish.
  destruct borrow as [|b|x|str|items|fields]; try discriminate Hrec;
    cbn [optMember member];
    try (eexists; split; reflexivity).
  destruct (lookup "fine" fields) as [[| | | | |]|];
    try (eexists; split; reflexivity);
    destruct (optMember (lookup "book" fields) "fineAmount") as [[| | | | |]|];
    eexists; split; reflexivity.
Qed.

Lemma addFine_amount (sum : float) (fine : value) :
  addFine sum fine = (sum + amountOrZero (Some fine))%float.
Proof. destruct fine; reflexivity. Qed.

Lemma reduceFines_records (borrows : list value) :
  forallb isRecord borrows = true ->
  forall sum,
    reduceFines borrows sum =
    Resolved (fold_left PrimFloat.add
                        (map (fun b => amountOrZero (fineAmount b)) borrows) sum).
Proof.
  induction borrows as [|b rest IH]; intros Hall sum; [reflexivity|].
  cbn [forallb] in Hall. apply andb_true_iff in Hall as [Hb Hrest].
  destruct (fineOf_record b Hb) as [fine [Hfine Hamount]].
  cbn [reduceFines map fold_left]. rewrite Hfine, addFine_amount, Hamount.
  now apply IH.
Qed.

(** One [null] among the items makes the reducer throw. *)
Lemma fineOf_null : fineOf JNull = Rejected (PlainError (nullReadMessage "book")).
Proof. reflexivity. Qed.

(** C4.  For a list of overdue borrows (records, none of them [null])
    the total is the sum, accumulated from zero in list order, of each
    item's fine amount, where a missing, [null], non-numeric, NaN or
    infinite amount counts as zero; that total is the [totalFines] of the
    dashboard data. *)
Theorem total_fines_sum (overdueBorrows : list value) :
  forallb isRecord overdueBorrows = true ->
  let total := sumOf (map (fun b => amountOrZero (fineAmount b)) overdueBorrows) in
  totalFinesOf overdueBorrows = Resolved total /\
  (forall profile currentBorrowsRaw,
     exists d, buildData profile currentBorrowsRaw (JArr overdueBorrows) = Resolved d /\
               totalFines d = total) /\
  amountOrZero None = 0%float /\
  amountOrZero (Some JNull) = 0%float /\
  (forall s, amountOrZero (Some (JStr s)) = 0%float) /\
  amountOrZero (Some (JNum nan)) = 0%float /\
  amountOrZero (Some (JNum infinity)) = 0%float /\
  amountOrZero (Some (JNum neg_infinity)) = 0%float.
Proof.
  intros Hall total.
  assert (Htotal : totalFinesOf overdueBorrows = Resolved total)
    by (unfold totalFinesOf; now rewrite reduceFines_records).
  split; [exact Htotal|]. split; [|repeat split; reflexivity].
  intros profile currentBorrowsRaw. unfold buildData.
  cbn [arrayOrEmpty]. rewrite Htotal. eexists. split; reflexivity.
Qed.

(** The example of the specification: 12.5, a missing fine and "bad"
    total 12.5. *)
Lemma total_fines_example :
  forallb isRecord sampleOverdue = true /\
  totalFinesOf sampleOverdue = Resolved 12.5%float.
Proof.
  split; [reflexivity|].
  exact (proj1 (total_fines_sum sampleOverdue eq_refl)).
Defined.

Section Load.

Context {S : Type}.
Variable net : Network.
Variables onCurrent onOverdue : Outcome Response -> Outcome value.

Let profileCall (a : Async.t unit value) : Async.t S value := catchNull (lift a).
Let currentWaits (pb : Promise) : Async.t S value :=
  Await pb (fun r => await (onCurrent r)).
Let overdueWaits (pc : Promise) : Async.t S value :=
  Await pc (fun r => await (onOverdue r)).

(** What the three calls resolve to once the profile call, run from
    request number [m], is over. *)
Let full (m : nat) (a : Async.t unit value) (vb vc : value) (s : S)
  : list Request * Outcome (value * value * value) * S :=
  (requestsOf (run net m a tt),
   Resolved (match outcomeOf (run net m a tt) with
             | Resolved v => v
             | Rejected _ => JNull
             end, vb, vc),
   s).

Let cut (limit m : nat) (a : Async.t unit value) (e : Thrown) (s : S)
  : list Request * Outcome (value * value * value) * S :=
  (requestsUntil limit net m a, Rejected e, s).

Lemma profileCall_Issue (rq : Request) (k : Promise -> Async.t unit value) :
  profileCall (Issue rq k) = Issue rq (fun pr => profileCall (k pr)).
Proof. reflexivity. Qed.

Lemma profileCall_Await (pa : Promise) (k : Outcome Response -> Async.t unit value) :
  profileCall (Await pa k) = Await pa (fun r => profileCall (k r)).
Proof. reflexivity. Qed.

Lemma full_Issue (m : nat) (rq : Request) (k : Promise -> Async.t unit value)
  (vb vc : value) (s : S) :
  full m (Issue rq k) vb vc s =
  let '(tr, o, s1) := full (Datatypes.S m) (k (promise net m rq)) vb vc s in
  (rq :: tr, o, s1).
Proof.
  unfold full, requestsOf, outcomeOf. cbn [run].
  now destruct (run net (Datatypes.S m) (k (promise net m rq)) tt) as [[tr o] u].
Qed.

Lemma full_SetState (m : nat) (f : unit -> unit) (k : Async.t unit value)
  (vb vc : value) (s : S) :
  full m (SetState f k) vb vc s = full m k vb vc s.
Proof. unfold full. cbn [run]. now destruct (f tt). Qed.

(** Both borrow calls have resolved: the profile call runs to its end. *)
Lemma load_both_resolved (a : Async.t unit value) (vb vc : value) :
  forall m s,
    run net m (promiseAll3 (profileCall a) (Return vb) (Return vc)) s = full m a vb vc s.
Proof.
  induction a as [v|e|rq k IH|pa k IH|f k IH]; intros m s.
  - reflexivity.
  - reflexivity.
  - rewrite profileCall_Issue, all3_Issue, full_Issue. cbn [run]. now rewrite IH.
  - rewrite profileCall_Await. unfold promiseAll3. rewrite !all2_Await_Return.
    cbn [run]. apply IH.
  - rewrite full_SetState. apply IH.
Qed.

(** The current borrows have resolved, the overdue borrows are awaited. *)
Lemma load_overdue_awaited (a : Async.t unit value) (vb : value) (pc : Promise) :
  forall m s,
    run net m (promiseAll3 (profileCall a) (Return vb) (overdueWaits pc)) s =
    match onOverdue (outcome pc) with
    | Resolved vc => full m a vb vc s
    | Rejected e => cut (received pc) m a e s
    end.
Proof.
  induction a as [v|e|rq k IH|pa k IH|f k IH]; intros m s.
  - unfold promiseAll3, overdueWaits. cbn [profileCall catchNull lift tryCatch].
    rewrite all2_Return_Return, all2_Return_Await. cbn [run].
    now destruct (onOverdue (outcome pc)).
  - unfold promiseAll3, overdueWaits. cbn [profileCall catchNull lift tryCatch].
    rewrite all2_Return_Return, all2_Return_Await. cbn [run].
    now destruct (onOverdue (outcome pc)).
  - rewrite profileCall_Issue, all3_Issue. cbn [run]. rewrite IH.
    destruct (onOverdue (outcome pc)); [now rewrite full_Issue|].
    unfold cut. reflexivity.
  - rewrite profileCall_Await. unfold promiseAll3, overdueWaits.
    rewrite all2_Await_Return, all2_Await_Await.
    destruct (received pa <=? received pc)%nat eqn:Hle; cbn [run].
    + refine (eq_trans (IH (outcome pa) m s) _).
      destruct (onOverdue (outcome pc)); [reflexivity|].
      unfold cut. cbn [requestsUntil]. now rewrite Hle.
    + destruct (onOverdue (outcome pc)) as [vc|e]; cbn [await].
      * exact (load_both_resolved (Await pa k) vb vc m s).
      * unfold cut. cbn [requestsUntil]. now rewrite Hle.
  - refine (eq_trans (IH m s) _).
    destruct (onOverdue (outcome pc)); [now rewrite full_SetState | reflexivity].
Qed.

(** The overdue borrows have resolved, the current borrows are awaited. *)
Lemma load_current_awaited (a : Async.t unit value) (pb : Promise) (vc : value) :
  forall m s,
    run net m (promiseAll3 (profileCall a) (currentWaits pb) (Return vc)) s =
    match onCurrent (outcome pb) with
    | Resolved vb => full m a vb vc s
    | Rejected e => cut (received pb) m a e s
    end.
Proof.
  induction a as [v|e|rq k IH|pa k IH|f k IH]; intros m s.
  - unfold promiseAll3, currentWaits. cbn [profileCall catchNull lift tryCatch].
    rewrite all2_Return_Await, all2_Await_Return. cbn [run].
    now destruct (onCurrent (outcome pb)).
  - unfold promiseAll3, currentWaits. cbn [profileCall catchNull lift tryCatch].
    rewrite all2_Return_Await, all2_Await_Return. cbn [run].
    now destruct (onCurrent (outcome pb)).
  - rewrite profileCall_Issue, all3_Issue. cbn [run]. rewrite IH.
    destruct (onCurrent (outcome pb)); [now rewrite full_Issue|].
    unfold cut. reflexivity.
  - rewrite profileCall_Await. unfold promiseAll3, currentWaits. rewrite all2_Await_Await.
    destruct (received pa <=? received pb)%nat eqn:Hle;
      rewrite all2_Await_Return; cbn [run].
    + refine (eq_trans (IH (outcome pa) m s) _).
      destruct (onCurrent (outcome pb)); [reflexivity|].
      unfold cut. cbn [requestsUntil]. now rewrite Hle.
    + destruct (onCurrent (outcome pb)) as [vb|e]; cbn [await].
      * exact (load_both_resolved (Await pa k) vb vc m s).
      * unfold cut. cbn [requestsUntil]. now rewrite Hle.
  - refine (eq_trans (IH m s) _).
    destruct (onCurrent (outcome pb)); [now rewrite full_SetState | reflexivity].
Qed.

(** Both borrow calls are awaited.  Whichever answer arrives first is
    received first; the profile call goes on in between as long as its
    own answers arrive no later. *)
Let raced (pb pc : Promise) (m : nat) (a : Async.t unit value) (s : S)
  : list Request * Outcome (value * value * value) * S :=
  match onCurrent (outcome pb), onOverdue (outcome pc) with
  | Resolved vb, Resolved vc => full m a vb vc s
  | Rejected e, Resolved _ => cut (received pb) m a e s
  | Resolved _, Rejected e => cut (received pc) m a e s
  | Rejected e1, Rejected e2 =>
      if (received pb <=? received pc)%nat then cut (received pb) m a e1 s
      else cut (received pc) m a e2 s
  end.

Lemma raced_Issue (pb pc : Promise) (m : nat) (rq : Request)
  (k : Promise -> Async.t unit value) (s : S) :
  raced pb pc m (Issue rq k) s =
  let '(tr, o, s1) := raced pb pc (Datatypes.S m) (k (promise net m rq)) s in
  (rq :: tr, o, s1).
Proof.
  unfold raced.
  destruct (onCurrent (outcome pb)), (onOverdue (outcome pc));
    try destruct (received pb <=? received pc)%nat;
    try apply full_Issue; reflexivity.
Qed.

Lemma raced_SetState (pb pc : Promise) (m : nat) (f : unit -> unit)
  (k : Async.t unit value) (s : S) :
  raced pb pc m (SetState f k) s = raced pb pc m k s.
Proof.
  unfold raced.
  destruct (onCurrent (outcome pb)), (onOverdue (outcome pc));
    try destruct (received pb <=? received pc)%nat;
    try apply full_SetState; reflexivity.
Qed.

Lemma raced_Await (pb pc pa : Promise) (m : nat)
  (k : Outcome Response -> Async.t unit value) (s : S) :
  (received pa <=? received pb)%nat = true ->
  (received pa <=? received pc)%nat = true ->
  raced pb pc m (Await pa k) s = raced pb pc m (k (outcome pa)) s.
Proof.
  intros Hab Hac. unfold raced, cut. cbn [requestsUntil]. rewrite Hab, Hac.
  reflexivity.
Qed.

Lemma load_profile_settled (v : value) (pb pc : Promise) (m : nat) (s : S) :
  run net m (promiseAll3 (Return v) (currentWaits pb) (overdueWaits pc)) s =
  match onCurrent (outcome pb), onOverdue (outcome pc) with
  | Resolved vb, Resolved vc => ([], Resolved (v, vb, vc), s)
  | Rejected e, Resolved _ => ([], Rejected e, s)
  | Resolved _, Rejected e => ([], Rejected e, s)
  | Rejected e1, Rejected e2 =>
      ([], Rejected (if (received pb <=? received pc)%nat then e1 else e2), s)
  end.
Proof.
  unfold promiseAll3, currentWaits, overdueWaits.
  rewrite all2_Return_Await, all2_Await_Await.
  destruct (received pb <=? received pc)%nat; cbn [run].
  - destruct (onCurrent (outcome pb)) as [vb|e1]; cbn [await].
    + rewrite all2_Return_Return, all2_Return_Await. cbn [run].
      now destruct (onOverdue (outcome pc)).
    + now destruct (onOverdue (outcome pc)).
  - destruct (onOverdue (outcome pc)) as [vc|e2]; cbn [await].
    + rewrite all2_Await_Return. cbn [run].
      now destruct (onCurrent (outcome pb)).
    + now destruct (onCurrent (outcome pb)).
Qed.

Lemma load_both_awaited (a : Async.t unit value) (pb pc : Promise) :
  forall m s,
    run net m (promiseAll3 (profileCall a) (currentWaits pb) (overdueWaits pc)) s
    = raced pb pc m a s.
Proof.
  induction a as [v|e|rq k IH|pa k IH|f k IH]; intros m s.
  - refine (eq_trans (load_profile_settled v pb pc m s) _). unfold raced.
    destruct (onCurrent (outcome pb)), (onOverdue (outcome pc));
      try destruct (received pb <=? received pc)%nat; reflexivity.
  - refine (eq_trans (load_profile_settled JNull pb pc m s) _). unfold raced.
    destruct (onCurrent (outcome pb)), (onOverdue (outcome pc));
      try destruct (received pb <=? received pc)%nat; reflexivity.
  - rewrite profileCall_Issue, all3_Issue, raced_Issue. cbn [run]. now rewrite IH.
  - rewrite profileCall_Await.
    destruct (received pa <=? received pb)%nat eqn:Hab.
    + assert (Hinner :
        promiseAll2 (Await pa (fun r => profileCall (k r))) (currentWaits pb) =
        Await pa (fun r => promiseAll2 (profileCall (k r)) (currentWaits pb)))
        by (unfold currentWaits; now rewrite all2_Await_Await, Hab).
      unfold promiseAll3. rewrite Hinner. unfold overdueWaits at 1.
      rewrite all2_Await_Await.
      destruct (received pa <=? received pc)%nat eqn:Hac; cbn [run].
      * rewrite (raced_Await pb pc pa m k s Hab Hac). apply IH.
      * rewrite <- Hinner.
        apply Nat.leb_le in Hab. apply Nat.leb_gt in Hac.
        destruct (onOverdue (outcome pc)) as [vc|e2] eqn:HFc; cbn [await].
        -- refine (eq_trans (load_current_awaited (Await pa k) pb vc m s) _).
           unfold raced. rewrite HFc. now destruct (onCurrent (outcome pb)).
        -- rewrite Hinner, all2_Await_Throw. cbn [run].
           unfold raced, cut. rewrite HFc. cbn [requestsUntil].
           replace (received pa <=? received pc)%nat with false
             by (symmetry; apply Nat.leb_gt; lia).
           replace (received pb <=? received pc)%nat with false
             by (symmetry; apply Nat.leb_gt; lia).
           now destruct (onCurrent (outcome pb)).
    + assert (Hinner :
        promiseAll2 (Await pa (fun r => profileCall (k r))) (currentWaits pb) =
        Await pb (fun r => promiseAll2 (Await pa (fun r => profileCall (k r)))
                                        (await (onCurrent r))))
        by (unfold currentWaits; now rewrite all2_Await_Await, Hab).
      unfold promiseAll3. rewrite Hinner. unfold overdueWaits at 1.
      rewrite all2_Await_Await.
      apply Nat.leb_gt in Hab.
      destruct (received pb <=? received pc)%nat eqn:Hbc; cbn [run].
      * destruct (onCurrent (outcome pb)) as [vb|e1] eqn:HFb; cbn [await].
        -- refine (eq_trans (load_overdue_awaited (Await pa k) vb pc m s) _).
           unfold raced. rewrite HFb. now destruct (onOverdue (outcome pc)).
        -- rewrite all2_Await_Throw, all2_Throw_l by reflexivity. cbn [run].
           unfold raced, cut. rewrite HFb, Hbc. cbn [requestsUntil].
           replace (received pa <=? received pb)%nat with false
             by (symmetry; apply Nat.leb_gt; lia).
           now destruct (onOverdue (outcome pc)).
      * rewrite <- Hinner. apply Nat.leb_gt in Hbc.
        destruct (onOverdue (outcome pc)) as [vc|e2] eqn:HFc; cbn [await].
        -- refine (eq_trans (load_current_awaited (Await pa k) pb vc m s) _).
           unfold raced. rewrite HFc. now destruct (onCurrent (outcome pb)).
        -- rewrite Hinner, all2_Await_Throw. cbn [run].
           unfold raced, cut. rewrite HFc. cbn [requestsUntil].
           replace (received pa <=? received pc)%nat with false
             by (symmetry; apply Nat.leb_gt; lia).
           replace (received pb <=? received pc)%nat with false
             by (symmetry; apply Nat.leb_gt; lia).
           now destruct (onCurrent (outcome pb)).
  - refine (eq_trans (IH m s) _). now rewrite raced_SetState.
Qed.

(** The start of the three calls: the profile call issues what it has
    before its first wait, then the two borrow requests leave. *)
Lemma load_start (rqB rqC : Request) (a : Async.t unit value) :
  forall n s,
    run net n (promiseAll3 (profileCall a)
                 (Fetch rqB (fun r => await (onCurrent r)))
                 (Fetch rqC (fun r => await (onOverdue r)))) s =
    let n1 := (n + List.length (started net n a))%nat in
    let '(tr, o, s1) :=
      raced (promise net n1 rqB) (promise net (Datatypes.S n1) rqC)
            (Datatypes.S (Datatypes.S n1)) (waiting net n a) s in
    ((started net n a ++ rqB :: rqC :: tr)%list, o, s1).
Proof.
  assert (Hidle : forall (a : Async.t unit value) n s,
            idle (profileCall a) = true ->
            run net n (promiseAll3 (profileCall a)
                         (Fetch rqB (fun r => await (onCurrent r)))
                         (Fetch rqC (fun r => await (onOverdue r)))) s =
            let '(tr, o, s1) :=
              raced (promise net n rqB) (promise net (Datatypes.S n) rqC)
                    (Datatypes.S (Datatypes.S n)) a s in
            (rqB :: rqC :: tr, o, s1)).
  { intros a0 n s Hi. unfold promiseAll3, Fetch.
    rewrite (all2_Issue_r _ _ _ Hi), all2_Issue_l. cbn [run].
    rewrite all2_Issue_r by (apply all2_idle; [exact Hi | reflexivity]).
    cbn [run].
    pose proof (load_both_awaited a0 (promise net n rqB) (promise net (Datatypes.S n) rqC)
                  (Datatypes.S (Datatypes.S n)) s) as H.
    unfold promiseAll3, currentWaits, overdueWaits in H. rewrite H.
    now destruct (raced _ _ _ a0 s) as [[tr o] s1]. }
  induction a as [v|e|rq k IH|pa k IH|f k IH]; intros n s.
  - cbn [started waiting List.length app]. rewrite Nat.add_0_r. now apply Hidle.
  - cbn [started waiting List.length app]. rewrite Nat.add_0_r. now apply Hidle.
  - rewrite profileCall_Issue, all3_Issue. cbn [run started waiting List.length].
    rewrite IH. cbv zeta. rewrite Nat.add_succ_r. cbn [plus].
    now destruct (raced _ _ _ _ s) as [[tr o] s1].
  - cbn [started waiting List.length app]. rewrite Nat.add_0_r. now apply Hidle.
  - refine (eq_trans (IH n s) _). reflexivity.
Qed.
End Load.

Section HookFacts.

Variable env : Env.
Variable getProfile : Async.t unit value.

(** What [Promise.all] of the three calls of a load settles to. *)
Lemma promiseAll3_run (net : Network) (n : nat) (s : DashboardState) :
  run net n (promiseAll3 (catchNull (lift getProfile))
                         (BorrowService.getCurrentBorrows env)
                         (BorrowService.getOverdueBorrows env)) s =
  (loadRequests env getProfile net n, fetched env getProfile net n, s).
Proof.
  unfold BorrowService.getCurrentBorrows, BorrowService.getOverdueBorrows, get.
  rewrite (load_start net (receive env "GET" "/api/borrow/current")
             (receive env "GET" "/api/borrow/overdue")).
  cbv zeta.
  unfold loadRequests, fetched, rejectedAt, currentFirst, currentAnswer,
    overdueAnswer, profileAnswer, profileLater, currentPromise, overduePromise,
    overdueNumber, currentNumber, profileStarted.
  set (n1 := (n + List.length (started net n getProfile))%nat).
  set (pb := promise net n1 (getRequest env "/api/borrow/current")).
  set (pc := promise net (Datatypes.S n1) (getRequest env "/api/borrow/overdue")).
  destruct (receive env "GET" "/api/borrow/current" (outcome pb)) as [vb|e1];
    destruct (receive env "GET" "/api/borrow/overdue" (outcome pc)) as [vc|e2];
    try destruct (received pb <=? received pc)%nat;
    reflexivity.
Qed.

(** A load issues the first requests of its three calls, never rejects,
    and leaves the fetched data or the failure in the state. *)
Lemma fetchData_run (net : Network) (n : nat) (s : DashboardState) :
  run net n (fetchData env getProfile) s =
  (loadRequests env getProfile net n,
   Resolved tt,
   match fetchedData env getProfile net n with
   | Resolved d => loaded d s
   | Rejected e => failed e s
   end).
Proof.
  unfold fetchData. cbn [run].
  rewrite run_tryCatch, run_bind, promiseAll3_run. unfold fetchedData.
  destruct (fetched env getProfile net n) as [[[profile cur] ov]|e];
    [|cbn; now rewrite app_nil_r].
  rewrite run_bind, run_await.
  destruct (buildData profile cur ov) as [d|e]; cbn; now rewrite !app_nil_r.
Qed.

(** [payFine] in full: when the POST fails nothing else is requested and
    the failure goes to [payError]; when it succeeds the load is started
    and has settled before the promise resolves. *)
Lemma payFine_run (net : Network) (n : nat) (s : DashboardState)
  (fineId : string) (amount : float) :
  run net n (payFine env getProfile fineId amount) s =
  match receive env "POST" "/api/borrow/pay-fine"
                (net n (payFineRequest env fineId amount)) with
  | Rejected e =>
      ([payFineRequest env fineId amount],
       Resolved {| success := false;
                   failureMessage := Some (message (handleApiError e)) |},
       payFailed e s)
  | Resolved _ =>
      ((payFineRequest env fineId amount ::
        loadRequests env getProfile net (Datatypes.S n))%list,
       Resolved {| success := true; failureMessage := None |},
       donePaying match fetchedData env getProfile net (Datatypes.S n) with
                  | Resolved d => loaded d (startPaying s)
                  | Rejected e => failed e (startPaying s)
                  end)
  end.
Proof.
  unfold payFine. cbn [run]. unfold tryFinally.
  rewrite run_bind, run_settle, run_tryCatch, run_bind.
  unfold BorrowService.payFine. rewrite run_post.
  fold (payFineRequest env fineId amount).
  destruct (receive env "POST" "/api/borrow/pay-fine" _) as [paid|e].
  - rewrite run_bind, fetchData_run. cbn [List.length]. rewrite Nat.add_1_r.
    cbn. rewrite !app_nil_r.
    destruct (fetchedData env getProfile net (Datatypes.S n)); reflexivity.
  - reflexivity.
Qed.

End HookFacts.

(** C7.  When [payFine] fails (it resolves to [success: false]) only
    [payError] and [isPaying] have changed: the data, the load error and
    the loading and refreshing flags are those from before the call.
    Nothing but the POST was requested, [isPaying] is off again, and
    [payError] holds the message returned to the caller. *)
Theorem payFine_failure_keeps_data (env : Env) (getProfile : Async.t unit value)
  (net : Network) (n : nat) (s : DashboardState) (fineId : string) (amount : float)
  (res : PayResult) :
  outcomeOf (run net n (payFine env getProfile fineId amount) s) = Resolved res ->
  success res = false ->
  let after := stateOf (run net n (payFine env getProfile fineId amount) s) in
  data after = data s /\
  error after = error s /\
  isLoading after = isLoading s /\
  isRefreshing after = isRefreshing s /\
  isPaying after = false /\
  payError after = failureMessage res /\
  (exists msg, failureMessage res = Some msg) /\
  requestsOf (run net n (payFine env getProfile fineId amount) s)
    = [payFineRequest env fineId amount].
Proof.
  rewrite payFine_run.
  destruct (receive env "POST" "/api/borrow/pay-fine" _) as [paid|e];
    unfold outcomeOf, stateOf, requestsOf; cbn [fst snd];
    intros Hres Hfail; injection Hres as <-; [discriminate Hfail|].
  cbn. repeat split. now eexists.
Qed.

(** A payment attempted while offline: the loaded dashboard keeps its
    data. *)
Lemma payFine_failure_offline :
  let after :=
    stateOf (run (noResponse (PlainError "Network request failed")) 0
                 (payFine sampleEnv (Return JNull) "b1" 12.5) loadedState) in
  data after = Some staleData /\
  payError after = Some "Network request failed" /\
  isPaying after = false.
Proof.
  pose proof (payFine_failure_keeps_data sampleEnv (Return JNull)
                (noResponse (PlainError "Network request failed")) 0 loadedState
                "b1" 12.5
                {| success := false;
                   failureMessage := Some "Network request failed" |}
                eq_refl eq_refl) as H.
  cbv zeta in H. destruct H as [Hd [_ [_ [_ [Hp [He _]]]]]].
  intros after. split; [exact Hd|]. split; [exact He | exact Hp].
Defined.

(** The lists of a dashboard that could be built are the arrays
    received. *)
Lemma buildData_lists (profile currentBorrowsRaw overdueBorrowsRaw : value)
  (d : StudentDashboardData) :
  buildData profile currentBorrowsRaw overdueBorrowsRaw = Resolved d ->
  currentBorrows d = arrayOrEmpty currentBorrowsRaw /\
  overdueBooks d = arrayOrEmpty overdueBorrowsRaw.
Proof.
  unfold buildData.
  destruct (totalFinesOf (arrayOrEmpty overdueBorrowsRaw)); [|discriminate].
  intros H. injection H as <-. split; reflexivity.
Qed.

(** Of the answers to the two borrow requests the one that arrives
    earlier is received first. *)
Lemma currentFirst_order (env : Env) (getProfile : Async.t unit value)
  (net : Network) (n : nat) :
  let n1 := currentNumber getProfile net n in
  ((arrivesAt net n1 < arrivesAt net (Datatypes.S n1))%nat ->
   currentFirst env getProfile net n = true) /\
  ((arrivesAt net (Datatypes.S n1) < arrivesAt net n1)%nat ->
   currentFirst env getProfile net n = false).
Proof.
  cbv zeta. unfold currentFirst, received, currentPromise, overduePromise,
    overdueNumber, promise.
  cbn [outcome arrives].
  set (n1 := currentNumber getProfile net n).
  destruct (net n1 _), (net (Datatypes.S n1) _); split; intros H;
    try (apply Nat.leb_le; lia); apply Nat.leb_gt; lia.
Qed.

(** What a load leaves in the data and the error of a state, by the
    answers to the two borrow requests. *)
Lemma load_state (env : Env) (getProfile : Async.t unit value) (net : Network)
  (n : nat) (s : DashboardState) :
  let after := match fetchedData env getProfile net n with
               | Resolved d => loaded d s
               | Rejected e => failed e s
               end in
  let n1 := currentNumber getProfile net n in
  isLoading after = false /\
  isRefreshing after = isRefreshing s /\
  isPaying after = isPaying s /\
  payError after = payError s /\
  match receive env "GET" "/api/borrow/current"
                (net n1 (getRequest env "/api/borrow/current")),
        receive env "GET" "/api/borrow/overdue"
                (net (Datatypes.S n1) (getRequest env "/api/borrow/overdue")) with
  | Resolved currentBorrowsRaw, Resolved overdueBorrowsRaw =>
      match buildData (profileAnswer getProfile net n)
                      currentBorrowsRaw overdueBorrowsRaw with
      | Resolved d =>
          data after = Some d /\ error after = None /\
          currentBorrows d = arrayOrEmpty currentBorrowsRaw /\
          overdueBooks d = arrayOrEmpty overdueBorrowsRaw
      | Rejected e =>
          data after = data s /\ error after = Some (message (handleApiError e))
      end
  | Rejected e, Resolved _ | Resolved _, Rejected e =>
      data after = data s /\ error after = Some (message (handleApiError e))
  | Rejected e1, Rejected e2 =>
      data after = data s /\
      error after =
        Some (message (handleApiError
                         (if currentFirst env getProfile net n then e1 else e2)))
  end.
Proof.
  cbv zeta. unfold fetchedData, fetched, currentAnswer, overdueAnswer,
    currentPromise, overduePromise, overdueNumber, promise.
  cbn [outcome].
  destruct (receive env "GET" "/api/borrow/current" _) as [cur|e1];
    destruct (receive env "GET" "/api/borrow/overdue" _) as [ov|e2];
    try (repeat split; reflexivity).
  destruct (buildData (profileAnswer getProfile net n) cur ov) as [d|e] eqn:Hd;
    [|repeat split; reflexivity].
  destruct (buildData_lists _ _ _ _ Hd) as [Hc Ho]. repeat split; assumption.
Qed.

(** The requests of a load begin with the first requests of its three
    calls, in array order. *)
Lemma loadRequests_start (env : Env) (getProfile : Async.t unit value)
  (net : Network) (n : nat) :
  exists later,
    loadRequests env getProfile net n =
    (profileStarted getProfile net n ++
     [getRequest env "/api/borrow/current"; getRequest env "/api/borrow/overdue"] ++
     later)%list /\
    (rejectedAt env getProfile net n = None -> later = profileLater getProfile net n).
Proof.
  unfold loadRequests. eexists. split; [reflexivity|]. now intros ->.
Qed.




(** On that server [payFine] resolves while a request of the load is
    still in flight: the payment and the two borrow requests were issued,
    the answers to the first two were received, and the load ended on
    the rejection of the current borrows without waiting for the answer
    about the overdue ones. *)
Example payFine_resolves_before_the_load_is_answered :
  let p := payFine sampleEnv (Return JNull) "b1" 12.5 in
  map url (requestsOf (run serverDownAfterPayment 0 p loadedState))
  = ["http://192.168.1.6:3000/api/borrow/pay-fine";
     "http://192.168.1.6:3000/api/borrow/current";
     "http://192.168.1.6:3000/api/borrow/overdue"] /\
  answered serverDownAfterPayment 0 p = [0; 1]%nat /\
  outcomeOf (run serverDownAfterPayment 0 p loadedState)
  = Resolved {| success := true; failureMessage := None |}.
Proof. repeat split; reflexivity. Qed.

End DashboardFacts.

(* ------------------------------------------------------------------ *)
(** ** The auth store *)

Module AuthStoreFacts.
Import JsString AuthStore.

Lemma Boolean_truthy (token : option string) :
  Boolean token = true <-> truthyToken token.
Proof.
  unfold truthyToken. destruct token as [[|c s]|]; simpl; split;
    try discriminate; try (intros [c' [s' H]]; discriminate); eauto.
Qed.

Lemma initial_consistent : consistent initial.
Proof. apply (Boolean_truthy None). Qed.

Lemma setAuth_consistent (u : Field AuthUser) (t : Field string) (s : AuthState) :
  consistent (setAuth u t s).
Proof. apply Boolean_truthy. Qed.

Lemma logout_consistent (s : AuthState) : consistent (logout s).
Proof. apply (Boolean_truthy None). Qed.

Lemma setHydrated_consistent (v : bool) (s : AuthState) :
  consistent s -> consistent (setHydrated v s).
Proof. intros H. exact H. Qed.

Lemma step_consistent (s : AuthState) (a : Action) :
  consistent s -> consistent (step s a).
Proof.
  destruct a as [v|u t|]; intros H.
  - now apply setHydrated_consistent.
  - apply setAuth_consistent.
  - apply logout_consistent.
Qed.

Lemma runActions_consistent (actions : list Action) :
  forall s, consistent s -> consistent (runActions actions s).
Proof.
  unfold runActions. induction actions as [|a rest IH]; intros s H; [exact H|].
  cbn [fold_left]. apply IH. now apply step_consistent.
Qed.

(** C9.  In every state the store reaches from its initial state by
    [setHydrated], [setAuth] and [logout], [isAuthenticated] is true
    exactly when the token is a non-empty string.  [setAuth] stores the
    given user and token ([null] for a missing one) and sets
    [isAuthenticated] to [Boolean(token)]; [logout] clears the three
    together; [setHydrated] changes none of them. *)
Theorem auth_store_invariant :
  consistent initial /\
  (forall actions, consistent (runActions actions initial)) /\
  (forall u t s,
     user (setAuth u t s) = defaultNull u /\
     token (setAuth u t s) = defaultNull t /\
     isAuthenticated (setAuth u t s) = Boolean (defaultNull t) /\
     hydrated (setAuth u t s) = hydrated s) /\
  (forall s,
     user (logout s) = None /\
     token (logout s) = None /\
     isAuthenticated (logout s) = false /\
     hydrated (logout s) = hydrated s) /\
  (forall v s,
     user (setHydrated v s) = user s /\
     token (setHydrated v s) = token s /\
     isAuthenticated (setHydrated v s) = isAuthenticated s /\
     hydrated (setHydrated v s) = v).
Proof.
  split; [exact initial_consistent|].
  split; [intro actions; apply runActions_consistent, initial_consistent|].
  repeat split.
Qed.

Example auth_store_run :
  let s := runActions [SetHydrated true; SetAuth (Given {| id := Some "7"; name := None;
                                                          email := None |})
                                                 (Given "token-1");
                       SetAuth Absent (Given "")] initial in
  isAuthenticated s = false /\ token s = Some "" /\ hydrated s = true.
Proof. repeat split. Qed.

End AuthStoreFacts.

(* ------------------------------------------------------------------ *)
(** ** More on the API client *)

Module ApiClientMoreFacts.
Import JsString JsStringFacts Json Async ApiClient ApiClientMethods AsyncFacts ApiClientFacts.

Lemma run_put {S} (env : Env) (endpoint : string) (data : option value)
  (net : Network) (n : nat) (s : S) :
  run net n (put env endpoint data) s =
  ([putRequest env endpoint data],
   receive env "PUT" endpoint (net n (putRequest env endpoint data)), s).
Proof. unfold put. now rewrite run_Fetch, run_await. Qed.

Lemma run_delete {S} (env : Env) (endpoint : string)
  (net : Network) (n : nat) (s : S) :
  run net n (delete env endpoint) s =
  ([deleteRequest env endpoint],
   receive env "DELETE" endpoint (net n (deleteRequest env endpoint)), s).
Proof. unfold delete. now rewrite run_Fetch, run_await. Qed.

Lemma receive_resolved (env : Env) (verb endpoint : string)
  (fetched : Outcome Response) (v : value) :
  receive env verb endpoint fetched = Resolved v <->
  exists response,
    fetched = Resolved response /\ ok response = true /\ json response = Resolved v.
Proof.
  unfold receive. split.
  - destruct fetched as [response|e]; [|discriminate].
    destruct (ok response) eqn:Hok; cbn [negb]; [|discriminate].
    intros H. now exists response.
  - intros [response [-> [Hok Hjson]]]. now rewrite Hok.
Qed.

(** X2.  Each of the four methods issues exactly one request on every
    call, whether the call resolves or rejects: a request with its own
    verb, to the base URL followed by the endpoint; and it leaves the
    component state alone.  The call resolves to a value exactly when a
    response arrived for that request, its status was in 200-299 and its
    body parsed as JSON to that value; GET and DELETE send no body. *)
Theorem client_methods_resolve_only_on_ok (S : Type) (env : Env) (endpoint : string)
  (data : option value) (net : Network) (n : nat) (s : S) :
  let calls (r : list Request * Outcome value * S) (rq : Request) (verb : string) :=
    requestsOf r = [rq] /\ stateOf r = s /\
    method rq = verb /\ url rq = API_BASE_URL env ++ endpoint /\
    forall v,
      outcomeOf r = Resolved v <->
      exists response,
        net n rq = Resolved response /\ ok response = true /\
        json response = Resolved v in
  calls (run net n (get env endpoint) s) (getRequest env endpoint) "GET" /\
  calls (run net n (post env endpoint data) s) (postRequest env endpoint data) "POST" /\
  calls (run net n (put env endpoint data) s) (putRequest env endpoint data) "PUT" /\
  calls (run net n (delete env endpoint) s) (deleteRequest env endpoint) "DELETE" /\
  body (getRequest env endpoint) = None /\
  body (deleteRequest env endpoint) = None.
Proof.
  intros calls. subst calls. cbv beta.
  rewrite run_get, run_post, run_put, run_delete.
  unfold outcomeOf, requestsOf, stateOf. cbn [fst snd].
  repeat split; try reflexivity; apply receive_resolved.
Qed.

Lemma getAuthHeaders_cases (env : Env) :
  getAuthHeaders env =
  match storedToken env with
  | Some (String c t) =>
      [("Content-Type", "application/json");
       ("Authorization", "Bearer " ++ String c t)]
  | _ => [("Content-Type", "application/json")]
  end.
Proof.
  unfold getAuthHeaders, getAuthToken.
  destruct (storedToken env) as [[|c t]|]; reflexivity.
Qed.

(** X3.  Every request carries the JSON content type.  It carries an
    Authorization header exactly when the stored token is a non-empty
    string, and then the header is "Bearer " followed by that token; with
    no token or an empty one no Authorization header is sent at all. *)
Theorem authorization_header (env : Env) (v : string) :
  In ("Content-Type", "application/json") (getAuthHeaders env) /\
  (In ("Authorization", v) (getAuthHeaders env) <->
   exists token, storedToken env = Some token /\ token <> "" /\ v = "Bearer " ++ token) /\
  (forall endpoint data,
     headers (getRequest env endpoint) = getAuthHeaders env /\
     headers (postRequest env endpoint data) = getAuthHeaders env /\
     headers (putRequest env endpoint data) = getAuthHeaders env /\
     headers (deleteRequest env endpoint) = getAuthHeaders env).
Proof.
  split; [|split; [|intros endpoint data; repeat split]].
  - rewrite getAuthHeaders_cases.
    destruct (storedToken env) as [[|c t]|]; cbn; auto.
  - rewrite getAuthHeaders_cases.
    destruct (storedToken env) as [[|c t]|]; cbn; split.
    + intros [H|[]]. discriminate H.
    + intros [token [H [Hne _]]]. injection H as <-. now elim Hne.
    + intros [H|[H|[]]]; [discriminate H|]. injection H as <-.
      exists (String c t). split; [reflexivity|]. split; [discriminate | reflexivity].
    + intros [token [H [_ ->]]]. injection H as <-. right. left. reflexivity.
    + intros [H|[]]. discriminate H.
    + intros [token [H _]]. discriminate H.
Qed.

End ApiClientMoreFacts.

(* ------------------------------------------------------------------ *)
(** ** More on the dashboard hook *)

Module DashboardMoreFacts.
Import JsString Json Async ApiClient AsyncFacts ApiClientFacts Dashboard DashboardFacts.

Lemma reduceFines_null (borrows : list value) :
  forallb isRecord borrows = false ->
  forall sum, reduceFines borrows sum = Rejected (PlainError (nullReadMessage "book")).
Proof.
  induction borrows as [|b rest IH]; intros Hall sum; [discriminate Hall|].
  cbn [forallb] in Hall. cbn [reduceFines].
  destruct (isRecord b) eqn:Hb.
  - destruct (fineOf_record b Hb) as [fine [-> _]]. now apply IH.
  - destruct b; try discriminate Hb. reflexivity.
Qed.

(** X4.  The total of the fines is all or nothing: it is the sum over
    the items when none of them is [null], and as soon as one item is
    [null] the reducer throws the TypeError of reading [book] of [null],
    whatever the other items hold. *)
Theorem totalFines_all_or_nothing (overdueBorrows : list value) :
  totalFinesOf overdueBorrows =
  if forallb isRecord overdueBorrows
  then Resolved (sumOf (map (fun b => amountOrZero (fineAmount b)) overdueBorrows))
  else Rejected (PlainError (nullReadMessage "book")).
Proof.
  unfold totalFinesOf, sumOf.
  destruct (forallb isRecord overdueBorrows) eqn:Hall.
  - now apply reduceFines_records.
  - now apply reduceFines_null.
Qed.

Lemma firstTruthy_truthy (profile : option value) (keys : list string) (c : ascii)
  (fallback : string) :
  truthy (Some (firstTruthy profile keys (String c fallback))) = true.
Proof.
  induction keys as [|key rest IH]; cbn [firstTruthy]; [reflexivity|].
  destruct (optMember profile key) as [v|]; [|exact IH].
  destruct (truthy (Some v)) eqn:Hv; [exact Hv | exact IH].
Qed.

(** X5.  The data of the dashboard is built whenever no overdue item is
    [null], and only then.  The borrow lists are the arrays received, or
    empty when what was received is not an array; both counters are the
    number of current borrows; the name, id and major are never empty
    (they fall back to "Student", "N/A" and "Major not set", which is what
    a profile that could not be fetched gives). *)
Theorem buildData_shape (profile currentBorrowsRaw overdueBorrowsRaw : value) :
  match buildData profile currentBorrowsRaw overdueBorrowsRaw with
  | Resolved d =>
      forallb isRecord (arrayOrEmpty overdueBorrowsRaw) = true /\
      currentBorrows d = arrayOrEmpty currentBorrowsRaw /\
      overdueBooks d = arrayOrEmpty overdueBorrowsRaw /\
      totalBorrows d = List.length (arrayOrEmpty currentBorrowsRaw) /\
      activeBorrows d = totalBorrows d /\
      truthy (Some (studentName d)) = true /\
      truthy (Some (studentId d)) = true /\
      truthy (Some (major d)) = true /\
      (profile = JNull ->
       studentName d = JStr "Student" /\ studentId d = JStr "N/A" /\
       major d = JStr "Major not set")
  | Rejected e =>
      forallb isRecord (arrayOrEmpty overdueBorrowsRaw) = false /\
      e = PlainError (nullReadMessage "book")
  end.
Proof.
  unfold buildData, totalFinesOf.
  destruct (forallb isRecord (arrayOrEmpty overdueBorrowsRaw)) eqn:Hall;
    [rewrite (reduceFines_records _ Hall)
    |rewrite (reduceFines_null _ Hall); split; reflexivity].
  cbn [studentName studentId major currentBorrows overdueBooks totalBorrows activeBorrows].
  repeat split; try apply firstTruthy_truthy; subst; reflexivity.
Qed.

Section MoreHookFacts.

Variable env : Env.
Variable getProfile : Async.t unit value.

Lemma refresh_run (net : Network) (n : nat) (s : DashboardState) :
  run net n (refresh env getProfile) s =
  (loadRequests env getProfile net n,
   Resolved tt,
   let t := match fetchedData env getProfile net n with
            | Resolved d => loaded d s
            | Rejected e => failed e s
            end in
   {| data := data t; isLoading := isLoading t; isRefreshing := false;
      isPaying := isPaying t; error := error t; payError := payError t |}).
Proof.
  unfold refresh. cbn [run]. rewrite run_bind, fetchData_run. cbn [run].
  rewrite app_nil_r.
  destruct (fetchedData env getProfile net n); reflexivity.
Qed.

End MoreHookFacts.

(** X6.  A load never rejects and always ends with [isLoading] off;
    the refreshing and payment fields are not touched.  Its three calls
    are made in array order: the requests the profile call issues before
    it first waits, then the request for the current and the one for the
    overdue borrows, the second also when the first fails; what follows
    is what the profile call issues later, all of it when no borrow
    request is rejected.  A failure of the profile call never fails the
    load.  When both borrow requests resolve, the dashboard built from
    the answers replaces the data and [error] is cleared.  When one is
    rejected the data shown before stays and [error] holds the message
    of the rejection; when both are rejected it is the rejection
    received first, which is the one of the overdue borrows when that
    answer arrives earlier. *)
Theorem fetchData_settles (env : Env) (getProfile : Async.t unit value)
  (net : Network) (n : nat) (s : DashboardState) :
  let r := run net n (fetchData env getProfile) s in
  let after := stateOf r in
  let n1 := currentNumber getProfile net n in
  let current :=
    receive env "GET" "/api/borrow/current"
            (net n1 (getRequest env "/api/borrow/current")) in
  let overdue :=
    receive env "GET" "/api/borrow/overdue"
            (net (Datatypes.S n1) (getRequest env "/api/borrow/overdue")) in
  outcomeOf r = Resolved tt /\
  (exists later,
     requestsOf r =
     (profileStarted getProfile net n ++
      [getRequest env "/api/borrow/current"; getRequest env "/api/borrow/overdue"] ++
      later)%list /\
     ((exists c o, current = Resolved c /\ overdue = Resolved o) ->
      later = profileLater getProfile net n)) /\
  isLoading after = false /\
  isRefreshing after = isRefreshing s /\
  isPaying after = isPaying s /\
  payError after = payError s /\
  match current, overdue with
  | Resolved currentBorrowsRaw, Resolved overdueBorrowsRaw =>
      match buildData (profileAnswer getProfile net n)
                      currentBorrowsRaw overdueBorrowsRaw with
      | Resolved d =>
          data after = Some d /\ error after = None /\
          currentBorrows d = arrayOrEmpty currentBorrowsRaw /\
          overdueBooks d = arrayOrEmpty overdueBorrowsRaw
      | Rejected e =>
          data after = data s /\ error after = Some (message (handleApiError e))
      end
  | Rejected e, Resolved _ | Resolved _, Rejected e =>
      data after = data s /\ error after = Some (message (handleApiError e))
  | Rejected e1, Rejected e2 =>
      data after = data s /\
      error after =
        Some (message (handleApiError
                         (if currentFirst env getProfile net n then e1 else e2)))
  end /\
  ((arrivesAt net n1 < arrivesAt net (Datatypes.S n1))%nat ->
   currentFirst env getProfile net n = true) /\
  ((arrivesAt net (Datatypes.S n1) < arrivesAt net n1)%nat ->
   currentFirst env getProfile net n = false).
Proof.
  cbv zeta. rewrite fetchData_run. unfold outcomeOf, requestsOf, stateOf.
  cbn [fst snd].
  pose proof (load_state env getProfile net n s) as H. cbv zeta in H.
  destruct H as [Hl [Hr [Hp [He H]]]].
  split; [reflexivity|].
  split; [|repeat split; try assumption;
           apply (currentFirst_order env getProfile net n)].
  destruct (loadRequests_start env getProfile net n) as [later [-> Hlater]].
  exists later. split; [reflexivity|].
  intros [c [o [Hc Ho]]]. apply Hlater.
  unfold rejectedAt, currentAnswer, overdueAnswer, currentPromise, overduePromise,
    overdueNumber, promise.
  cbn [outcome]. now rewrite Hc, Ho.
Qed.

(** Three loads on networks that differ only in when the answers
    arrive.  The request for the current borrows is answered by a 500
    with the message "current failed", the one for the overdue borrows
    gets no response ("Failed to fetch").  The load records the rejection
    received first: the missing response when both answers are there at
    once or the one about the overdue borrows arrives first, the 500 when
    it arrives first. *)
Example first_rejection_in_time :
  let answers := fun (_ : nat) rq =>
    if includes (url rq) "overdue" then Rejected (PlainError "Failed to fetch")
    else Resolved {| status := 500;
                     json := Resolved (JObj [("message", JStr "current failed")]) |} in
  let together := {| answer := answers; arrivesAt := atOnce |} in
  let overdueEarlier := {| answer := answers; arrivesAt := fun n => (10 - n)%nat |} in
  let currentEarlier := {| answer := answers; arrivesAt := inOrder |} in
  let recorded net :=
    error (stateOf (run net 0 (fetchData sampleEnv (Return JNull)) initialState)) in
  recorded together = Some "Failed to fetch" /\
  recorded overdueEarlier = Some "Failed to fetch" /\
  recorded currentEarlier = Some "current failed".
Proof. repeat split; reflexivity. Qed.

(** A profile call of two requests, one after the other: the second
    leaves after the two borrow requests, once the first is answered. *)
Example profile_requests_interleave :
  let profile : Async.t unit value :=
    (_ <- get sampleEnv "/api/auth/refresh" ;; get sampleEnv "/api/auth/profile")%async in
  map url (requestsOf (run (always {| status := 200; json := Resolved (JArr []) |}) 0
                           (fetchData sampleEnv profile) initialState))
  = ["http://192.168.1.6:3000/api/auth/refresh";
     "http://192.168.1.6:3000/api/borrow/current";
     "http://192.168.1.6:3000/api/borrow/overdue";
     "http://192.168.1.6:3000/api/auth/profile"].
Proof. reflexivity. Qed.

(** X7.  A refresh issues the requests of a load, never rejects, and
    always ends with [isRefreshing] and [isLoading] off.  It replaces the
    data when the load succeeds and keeps the data shown before when it
    fails, and it leaves the payment fields alone. *)
Theorem refresh_settles (env : Env) (getProfile : Async.t unit value)
  (net : Network) (n : nat) (s : DashboardState) :
  let r := run net n (refresh env getProfile) s in
  outcomeOf r = Resolved tt /\
  requestsOf r = requestsOf (run net n (fetchData env getProfile) s) /\
  isRefreshing (stateOf r) = false /\
  isLoading (stateOf r) = false /\
  isPaying (stateOf r) = isPaying s /\
  payError (stateOf r) = payError s /\
  data (stateOf r) = data (stateOf (run net n (fetchData env getProfile) s)) /\
  error (stateOf r) = error (stateOf (run net n (fetchData env getProfile) s)) /\
  (data (stateOf r) = data s \/ error (stateOf r) = None).
Proof.
  cbv zeta. rewrite refresh_run, fetchData_run.
  unfold outcomeOf, requestsOf, stateOf. cbn [fst snd].
  destruct (fetchedData env getProfile net n) as [d|e]; repeat split; auto.
Qed.

(** X8.  [payFine] never rejects: it always resolves to a result, with
    [isPaying] off again.  The POST is its first request.  The result is
    a success exactly when the POST was answered by an ok response with a
    JSON body, whatever that body says; otherwise it is a failure whose
    message is also what [payError] holds, and a success leaves
    [payError] empty. *)
Theorem payFine_always_resolves (env : Env) (getProfile : Async.t unit value)
  (net : Network) (n : nat) (s : DashboardState) (fineId : string) (amount : float) :
  let r := run net n (payFine env getProfile fineId amount) s in
  exists res,
    outcomeOf r = Resolved res /\
    hd_error (requestsOf r) = Some (payFineRequest env fineId amount) /\
    isPaying (stateOf r) = false /\
    isRefreshing (stateOf r) = isRefreshing s /\
    (success res = true <->
     exists response v,
       net n (payFineRequest env fineId amount) = Resolved response /\
       ok response = true /\ json response = Resolved v) /\
    (if success res
     then failureMessage res = None /\ payError (stateOf r) = None
     else exists msg, failureMessage res = Some msg /\ payError (stateOf r) = Some msg).
Proof.
  cbv zeta. rewrite payFine_run.
  destruct (receive env "POST" "/api/borrow/pay-fine" _) as [paid|e] eqn:Hr;
    eexists; unfold outcomeOf, requestsOf, stateOf; cbn [fst snd];
    (split; [reflexivity|]); (split; [reflexivity|]).
  - split; [reflexivity|].
    split; [destruct (fetchedData env getProfile net (Datatypes.S n)); reflexivity|].
    split.
    + split; [intros _|reflexivity].
      apply ApiClientMoreFacts.receive_resolved in Hr as [response H].
      exists response, paid. exact H.
    + cbn [success failureMessage].
      split; [reflexivity|].
      destruct (fetchedData env getProfile net (Datatypes.S n)); reflexivity.
  - split; [reflexivity|]. split; [reflexivity|]. split.
    + split; [discriminate|]. intros [response [v H]].
      assert (Hv : receive env "POST" "/api/borrow/pay-fine"
                     (net n (payFineRequest env fineId amount)) = Resolved v)
        by (apply ApiClientMoreFacts.receive_resolved; now exists response).
      rewrite Hr in Hv. discriminate Hv.
    + cbn [success failureMessage]. eexists. split; reflexivity.
Qed.

End DashboardMoreFacts.

(* ------------------------------------------------------------------ *)
(** ** The days-left badge *)

Module WebDashboardFacts.
Import Numbers Dates DatesFacts WebDashboard.
Open Scope Z_scope.

(** X9.  The badge has three bands: the check mark for more than 7 days,
    the timer for 3 to 7, the alert for fewer than 3.  The alert band also
    takes every overdue item (a negative count) and the NaN of an
    unparseable due date; their text is the raw count followed by "Days
    Left", the singular being used for exactly 1.  On a host with a fixed
    offset the count shown on a borrow card is the due date's local day
    minus today's. *)
Theorem daysLeft_badge_bands (daysLeft : option Z) :
  (icon (DaysLeftBadge daysLeft) = CheckCircle <->
   exists d, daysLeft = Some d /\ 7 < d) /\
  (icon (DaysLeftBadge daysLeft) = Timer <->
   exists d, daysLeft = Some d /\ 3 <= d <= 7) /\
  (icon (DaysLeftBadge daysLeft) = AlertCircle <->
   daysLeft = None \/ exists d, daysLeft = Some d /\ d < 3) /\
  text (DaysLeftBadge daysLeft) =
    match daysLeft with
    | Some 1 => "1 Day Left"
    | _ => (countText daysLeft ++ " Days Left")%string
    end /\
  (forall offset now parse iso dueDate,
     cardBadge (fixedOffsetHost offset now parse iso) dueDate =
     DaysLeftBadge (match parse dueDate with
                    | Some D => Some (Day (D + offset) - Day (now + offset))
                    | None => None
                    end)).
Proof.
  split; [|split; [|split; [|split]]].
  - unfold DaysLeftBadge, gt, ge. destruct daysLeft as [d|]; cbn.
    + destruct (7 <? d) eqn:H7; [|destruct (3 <=? d) eqn:H3]; cbn; split;
        try discriminate; try reflexivity.
      * intros _. exists d. split; [reflexivity | lia].
      * intros [d' [E H]]. injection E as <-. lia.
      * intros [d' [E H]]. injection E as <-. lia.
    + split; [discriminate|]. intros [d [E _]]. discriminate E.
  - unfold DaysLeftBadge, gt, ge. destruct daysLeft as [d|]; cbn.
    + destruct (7 <? d) eqn:H7; [|destruct (3 <=? d) eqn:H3]; cbn; split;
        try discriminate; try reflexivity.
      * intros [d' [E H]]. injection E as <-. lia.
      * intros _. exists d. split; [reflexivity | lia].
      * intros [d' [E H]]. injection E as <-. lia.
    + split; [discriminate|]. intros [d [E _]]. discriminate E.
  - unfold DaysLeftBadge, gt, ge. destruct daysLeft as [d|]; cbn.
    + destruct (7 <? d) eqn:H7; [|destruct (3 <=? d) eqn:H3]; cbn; split;
        try discriminate; try reflexivity.
      * intros [E|[d' [E H]]]; [discriminate E|]. injection E as <-. lia.
      * intros [E|[d' [E H]]]; [discriminate E|]. injection E as <-. lia.
      * intros _. right. exists d. split; [reflexivity | lia].
    + split; auto.
  - unfold DaysLeftBadge, gt, ge. destruct daysLeft as [d|]; [|reflexivity].
    destruct (7 <? d) eqn:H7; [|destruct (3 <=? d) eqn:H3]; cbn [text].
    + destruct d as [|[p|p|]|]; try reflexivity. discriminate H7.
    + destruct d as [|[p|p|]|]; try reflexivity. discriminate H3.
    + reflexivity.
  - intros offset now parse iso dueDate. unfold cardBadge. f_equal.
    destruct (parse dueDate) as [D|] eqn:HD.
    + now apply calculateDaysLeft_fixed.
    + unfold calculateDaysLeft. cbn [Date_parse fixedOffsetHost]. now rewrite HD.
Qed.

Example overdue_and_invalid_badges :
  text (cardBadge (utcAt jan08) "2024-01-05") = "-3 Days Left" /\
  icon (cardBadge (utcAt jan08) "2024-01-05") = AlertCircle /\
  text (cardBadge (utcAt jan08) "soon") = "NaN Days Left" /\
  icon (cardBadge (utcAt jan08) "soon") = AlertCircle /\
  text (cardBadge (utcAt jan08) "2024-01-10") = "2 Days Left".
Proof. repeat split; reflexivity. Qed.

End WebDashboardFacts.

(* ------------------------------------------------------------------ *)
(** ** The mobile dashboard *)

Module MobileDashboardFacts.
Import JsString Numbers Dates DatesFacts MobileDashboard.
Open Scope Z_scope.

(** X10.  On every host a due date that is missing, empty or unparseable
    counts as today: the item has 0 days left and is 0 days overdue.  On
    a host with a fixed offset at most one of the two counts is positive,
    and their difference is the due date's local day minus today's. *)
Theorem days_left_and_overdue :
  (forall h : Host,
     getDaysLeft h None = 0 /\ getDaysOverdue h None = 0 /\
     getDaysLeft h (Some "") = 0 /\ getDaysOverdue h (Some "") = 0) /\
  (forall (h : Host) (s : string),
     parseISO h s = None -> Date_parse h s = None ->
     getDaysLeft h (Some s) = 0 /\ getDaysOverdue h (Some s) = 0) /\
  (forall (offset now : Z) (parse iso : string -> option Z) (dueDate : option string),
     let h := fixedOffsetHost offset now parse iso in
     (getDaysLeft h dueDate = 0 \/ getDaysOverdue h dueDate = 0) /\
     getDaysLeft h dueDate - getDaysOverdue h dueDate =
       Day (parseDate h dueDate + offset) - Day (now + offset)).
Proof.
  split; [|split].
  - intros h. unfold getDaysLeft, getDaysOverdue. cbn [parseDate].
    rewrite differenceInCalendarDays_self. repeat split.
  - intros h s Hiso Hparse. unfold getDaysLeft, getDaysOverdue, parseDate.
    rewrite Hiso, Hparse. destruct s; rewrite differenceInCalendarDays_self; split; reflexivity.
  - intros offset now parse iso dueDate h. unfold getDaysLeft, getDaysOverdue. subst h.
    rewrite !differenceInCalendarDays_fixed.
    change (Date_now (fixedOffsetHost offset now parse iso)) with now. lia.
Qed.




Close Scope Z_scope.

Lemma recentActivity_cases (h : Host) (fmt : Z -> string)
  (overdueBooks currentBorrows : list Borrow) :
  recentActivity h fmt overdueBooks currentBorrows =
  match overdueBooks, currentBorrows with
  | [], [] =>
      [ {| activityTitle := "No recent activity";
           subtitle := "Borrow a book to see updates here.";
           timestamp := fmt (Date_now h);
           tone := info |} ]
  | _, _ =>
      (map (overdueActivity h fmt) (firstn 2 overdueBooks) ++
       map (currentActivity h fmt) (firstn 3 currentBorrows))%list
  end.
Proof.
  unfold recentActivity.
  destruct overdueBooks as [|o os]; [destruct currentBorrows as [|c cs]|]; reflexivity.
Qed.

(** X12.  The recent-activity list is never empty and never longer than
    five.  With no borrow at all it is the one "No recent activity"
    entry; otherwise it is the first two overdue books, as warnings,
    followed by the first three current borrows, in their order, and the
    placeholder is absent. *)
Theorem recentActivity_shape (h : Host) (fmt : Z -> string)
  (overdueBooks currentBorrows : list Borrow) :
  let activity := recentActivity h fmt overdueBooks currentBorrows in
  List.length activity =
    Nat.max 1 (Nat.min 2 (List.length overdueBooks) +
               Nat.min 3 (List.length currentBorrows)) /\
  1 <= List.length activity <= 5 /\
  (hasContent overdueBooks currentBorrows = false ->
   map activityTitle activity = ["No recent activity"]) /\
  (hasContent overdueBooks currentBorrows = true ->
   activity =
     (map (overdueActivity h fmt) (firstn 2 overdueBooks) ++
      map (currentActivity h fmt) (firstn 3 currentBorrows))%list /\
   map tone activity =
     (repeat warning (Nat.min 2 (List.length overdueBooks)) ++
      repeat info (Nat.min 3 (List.length currentBorrows)))%list).
Proof.
  cbv zeta. rewrite recentActivity_cases.
  assert (Hlen : forall o c,
            List.length (map (overdueActivity h fmt) (firstn 2 o) ++
                         map (currentActivity h fmt) (firstn 3 c))%list =
            Nat.min 2 (List.length o) + Nat.min 3 (List.length c)).
  { intros o c. now rewrite length_app, !length_map, !length_firstn. }
  assert (Htone : forall o c,
            map tone (map (overdueActivity h fmt) (firstn 2 o) ++
                      map (currentActivity h fmt) (firstn 3 c))%list =
            (repeat warning (Nat.min 2 (List.length o)) ++
             repeat info (Nat.min 3 (List.length c)))%list).
  { intros o c. rewrite map_app, !map_map. cbn [tone overdueActivity currentActivity].
    f_equal.
    - rewrite <- (length_firstn 2 o). induction (firstn 2 o); cbn; congruence.
    - rewrite <- (length_firstn 3 c). induction (firstn 3 c); cbn; congruence. }
  destruct overdueBooks as [|o os]; [destruct currentBorrows as [|c cs]|].
  - cbn. repeat split; auto; discriminate.
  - rewrite Hlen, Htone. cbn [List.length].
    assert (Hc : hasContent [] (c :: cs) = true) by reflexivity.
    rewrite Hc. repeat split; try discriminate; try reflexivity; try lia.
  - rewrite Hlen, Htone. cbn [List.length].
    assert (Hc : hasContent (o :: os) currentBorrows = true)
      by (unfold hasContent; cbn; apply orb_true_r).
    rewrite Hc. repeat split; try discriminate; try reflexivity; try lia.
Qed.

End MobileDashboardFacts.

(* ------------------------------------------------------------------ *)
(** ** The book detail view *)

Module BookDetailFacts.
Import JsString JsStringFacts Availability AvailabilityFacts BookDetail.

Lemma substring_short (n : nat) (s : string) :
  String.length s <= n -> String.substring 0 n s = s.
Proof.
  revert n; induction s as [|c s IH]; intros n H.
  - now destruct n.
  - destruct n as [|n]; cbn in H; [lia|]. cbn. f_equal. apply IH. lia.
Qed.

Lemma substring_long (n : nat) (s : string) :
  n <= String.length s ->
  String.length (String.substring 0 n s) = n /\
  exists rest, s = String.substring 0 n s ++ rest.
Proof.
  revert n; induction s as [|c s IH]; intros n H.
  - cbn in H. assert (n = 0) as -> by lia. split; [reflexivity | now exists ""].
  - destruct n as [|n].
    + split; [reflexivity | now exists (String c s)].
    + cbn in H. destruct (IH n) as [Hlen [rest Hrest]]; [lia|].
      cbn. split; [now rewrite Hlen|]. exists rest. now rewrite <- Hrest.
Qed.

Lemma length_append (a b : string) :
  String.length (a ++ b) = String.length a + String.length b.
Proof. induction a as [|c a IH]; cbn; [reflexivity | now rewrite IH]. Qed.

(** X13.  A description of at most 320 characters is shown whole.  A
    longer one is cut to its first 320 characters followed by "...", so
    the preview never exceeds 323 characters, until the reader asks for
    the full text, which is then shown unchanged.  A book with no
    description, or an empty one, shows "No description available.", so
    the text on screen is never empty. *)
Theorem description_preview (d : string) :
  descriptionPreview None false = None /\
  descriptionPreview (Some d) true = Some d /\
  (String.length d <= 320 -> descriptionPreview (Some d) false = Some d) /\
  (320 < String.length d ->
   exists head rest,
     d = head ++ rest /\ String.length head = 320 /\
     descriptionPreview (Some d) false = Some (head ++ "...")) /\
  (forall p, descriptionPreview (Some d) false = Some p -> String.length p <= 323) /\
  (forall description showFull, shownDescription description showFull <> "") /\
  shownDescription None false = "No description available." /\
  shownDescription (Some "") false = "No description available.".
Proof.
  assert (Hshort : String.length d <= 320 -> descriptionPreview (Some d) false = Some d).
  { intros H. unfold descriptionPreview, slice0.
    destruct (isEmpty d); [reflexivity|]. cbn [negb andb].
    rewrite (substring_short 320 d H).
    assert ((320 <? String.length d)%nat = false) as -> by (apply Nat.ltb_ge; exact H).
    now rewrite append_empty_r. }
  assert (Hlong : 320 < String.length d ->
                  exists head rest,
                    d = head ++ rest /\ String.length head = 320 /\
                    descriptionPreview (Some d) false = Some (head ++ "...")).
  { intros H. destruct (substring_long 320 d) as [Hlen [rest Hrest]]; [lia|].
    exists (String.substring 0 320 d), rest. split; [exact Hrest|]. split; [exact Hlen|].
    unfold descriptionPreview, slice0.
    destruct d as [|c d']; [cbn in H; lia|]. cbn [isEmpty negb andb].
    assert ((320 <? String.length (String c d'))%nat = true) as -> by (now apply Nat.ltb_lt).
    reflexivity. }
  split; [reflexivity|]. split.
  { unfold descriptionPreview. now rewrite andb_false_r. }
  split; [exact Hshort|]. split; [exact Hlong|]. split; [|split].
  - intros p Hp. destruct (Nat.le_gt_cases (String.length d) 320) as [H|H].
    + rewrite (Hshort H) in Hp. injection Hp as <-. lia.
    + destruct (Hlong H) as [head [rest [_ [Hlen Hpre]]]].
      rewrite Hpre in Hp. injection Hp as <-. rewrite length_append, Hlen. cbn. lia.
  - intros description showFull. unfold shownDescription.
    destruct (descriptionPreview description showFull) as [[|c s]|]; cbn; discriminate.
  - split; reflexivity.
Qed.

(** X14.  The Borrow button is rendered exactly when "available" occurs
    in the status in any letter case, which is when the browsing page
    gives the book the available badge.  The badge of the detail view
    agrees with the button except for a book whose status is missing or
    empty: it is badged "Available" and has no Borrow button. *)
Theorem borrow_button_and_badge (availability : option string) :
  (isAvailable availability = true <->
   occursIgnoringCase "available" (orElse availability "")) /\
  (isAvailable availability = true <->
   kindOfBadgeClass (badgeClassByAvailability availability) = Some available) /\
  (kindOfStyles (availabilityStyles availability) = available <->
   isAvailable availability = true \/ orElse availability "" = "").
Proof.
  assert (H1 : isAvailable availability = true <->
               occursIgnoringCase "available" (orElse availability ""))
    by apply includes_available.
  split; [exact H1|]. split.
  - rewrite H1. symmetry. apply (badgeClass_classifies availability available).
  - rewrite (styles_classifies availability available). cbn [classifies].
    destruct availability as [[|c s]|].
    + split; [auto|]. intros _. now apply includes_available.
    + cbn [orElse]. rewrite H1. cbn [orElse]. split; [auto|].
      intros [H|H]; [exact H | discriminate H].
    + split; [auto|]. intros _. now apply includes_available.
Qed.

End BookDetailFacts.

(* ------------------------------------------------------------------ *)
(** ** The book browsing page *)

Module BookBrowsingFacts.
Import JsString JsStringFacts Json Async ApiClient AsyncFacts ApiClientFacts.
Import Availability BookBrowsing.

Lemma matchesFilter_readable (f : string) (book : value) :
  readable book = true -> matchesFilter f book = Resolved (keeps f book).
Proof.
  unfold readable, matchesFilter, loweredAvailability, keeps, statusOf.
  destruct book as [|b|x|s|items|fields]; try discriminate; cbn [member optMember];
    try reflexivity.
  destruct (lookup "availability" fields) as [[|b|x|[|c s]|items|fs]|];
    cbn; intros H; try discriminate H; try reflexivity;
    try (rewrite negb_true_iff in H; cbn in H; now rewrite H).
Qed.

Lemma matchesFilter_unreadable (f : string) (book : value) :
  readable book = false -> exists e, matchesFilter f book = Rejected e.
Proof.
  unfold readable, matchesFilter, loweredAvailability.
  destruct book as [|b|x|s|items|fields]; try discriminate; cbn [member optMember];
    try (intros _; eexists; reflexivity).
  destruct (lookup "availability" fields) as [[|b|x|[|c s]|items|fs]|];
    cbn; intros H; try discriminate H;
    try (eexists; reflexivity);
    try (rewrite negb_false_iff in H; cbn in H; rewrite H; eexists; reflexivity).
Qed.

(** The filter keeps exactly the readable books whose status equals the
    filter up to letter case, in order, and fails on the first book it
    cannot read. *)
Lemma filterArray_cases (f : string) (books : list value) :
  match filterArray (matchesFilter f) books with
  | Resolved kept =>
      forallb readable books = true /\ kept = List.filter (keeps f) books
  | Rejected _ => forallb readable books = false
  end.
Proof.
  induction books as [|b rest IH]; [now split|].
  cbn [filterArray forallb List.filter].
  destruct (readable b) eqn:Hb.
  - rewrite (matchesFilter_readable f b Hb).
    destruct (filterArray (matchesFilter f) rest) as [kept|e].
    + destruct IH as [Hall ->]. split; [exact Hall|]. now destruct (keeps f b).
    + exact IH.
  - destruct (matchesFilter_unreadable f b Hb) as [e ->]. reflexivity.
Qed.

(** X15.  With a filter other than "all", a page that [fetchBooks]
    resolves to holds exactly the books of the response whose status
    equals the filter up to letter case, in the order received: a book
    whose status merely contains the word ("available now") is dropped.
    Every book of the response was readable: one [null] book, or one
    whose availability is a truthy non-string, fails the whole page. *)
Theorem filtered_page (f : string) (response : value) (page : Page) :
  toPage f response = Resolved page ->
  String.eqb f "all" = false ->
  exists books,
    (response = JArr books \/ optMember (Some response) "items" = Some (JArr books)) /\
    forallb readable books = true /\
    itemsOf page = Some (List.filter (keeps f) books) /\
    Forall (fun b => toLowerCase (orElse (statusOf b) "") = toLowerCase f)
           (List.filter (keeps f) books).
Proof.
  intros Hpage Hf.
  assert (Hkept : forall books,
            Forall (fun b => toLowerCase (orElse (statusOf b) "") = toLowerCase f)
                   (List.filter (keeps f) books)).
  { intros books. apply Forall_forall. intros b Hb.
    apply filter_In in Hb as [_ Hb]. now apply String.eqb_eq in Hb. }
  unfold toPage in Hpage. rewrite Hf in Hpage.
  destruct response as [|b|x|s|items|fields]; cbn [member] in Hpage;
    try discriminate Hpage.
  - pose proof (filterArray_cases f items) as Hc.
    destruct (filterArray (matchesFilter f) items) as [kept|e]; [|discriminate Hpage].
    destruct Hc as [Hall ->]. injection Hpage as <-.
    exists items. repeat split; auto.
  - cbn [optMember].
    destruct (lookup "items" fields) as [[|b|x|s|items|fs]|]; try discriminate Hpage.
    pose proof (filterArray_cases f items) as Hc.
    destruct (filterArray (matchesFilter f) items) as [kept|e]; [|discriminate Hpage].
    destruct Hc as [Hall ->]. injection Hpage as <-.
    exists items. repeat split; auto.
Qed.

(** The sample listing filtered by "Available": only the first book
    stays. *)
Lemma filtered_page_sample :
  exists books,
    (sampleListing = JArr books \/
     optMember (Some sampleListing) "items" = Some (JArr books)) /\
    forallb readable books = true /\
    Some [JObj [("id", JStr "b1"); ("availability", JStr "AVAILABLE")]]
      = Some (List.filter (keeps "Available") books) /\
    Forall (fun b => toLowerCase (orElse (statusOf b) "") = toLowerCase "Available")
           (List.filter (keeps "Available") books).
Proof.
  exact (filtered_page "Available" sampleListing
           (FinalPage [JObj [("id", JStr "b1"); ("availability", JStr "AVAILABLE")]])
           eq_refl eq_refl).
Defined.

(** X16.  Filtering never changes the paging.  A response that is an
    array becomes a last page; any other response keeps its own
    [nextPage], and a missing or [null] one means there is no further
    page.  With the filter "all" the items of the response are passed on
    untouched. *)
Theorem paging_of_page (f : string) (response : value) (page : Page) :
  toPage f response = Resolved page ->
  getNextPageParam page =
    match response with
    | JArr _ => None
    | _ =>
        match optMember (Some response) "nextPage" with
        | None | Some JNull => None
        | Some p => Some p
        end
    end /\
  (String.eqb f "all" = true ->
   page = match response with
          | JArr books => FinalPage books
          | _ => SpreadPage response (optMember (Some response) "items")
          end).
Proof.
  unfold toPage. intros Hpage.
  destruct response as [|b|x|s|items|fields]; cbn [member optMember] in *;
    try discriminate Hpage;
    destruct (String.eqb f "all");
    try (injection Hpage as <-; split; [reflexivity | intros _; reflexivity]);
    try discriminate Hpage.
  - destruct (filterArray (matchesFilter f) items); [|discriminate Hpage].
    injection Hpage as <-. split; [reflexivity | discriminate].
  - destruct (lookup "items" fields) as [[|b|x|s|items|fs]|]; try discriminate Hpage.
    destruct (filterArray (matchesFilter f) items); [|discriminate Hpage].
    injection Hpage as <-. split; [reflexivity | discriminate].
Qed.

Lemma paging_of_page_sample :
  getNextPageParam
    (SpreadPage (JObj [("items", JArr []); ("nextPage", JNum 2)]) (Some (JArr [])))
  = Some (JNum 2) /\
  (String.eqb "Available" "all" = true ->
   SpreadPage (JObj [("items", JArr []); ("nextPage", JNum 2)]) (Some (JArr []))
   = SpreadPage (JObj [("items", JArr []); ("nextPage", JNum 2)])
                (optMember (Some (JObj [("items", JArr []); ("nextPage", JNum 2)])) "items")).
Proof.
  exact (paging_of_page "Available" (JObj [("items", JArr []); ("nextPage", JNum 2)])
           (SpreadPage (JObj [("items", JArr []); ("nextPage", JNum 2)]) (Some (JArr [])))
           eq_refl).
Defined.

Lemma fetchBooks_run {S} (env : Env) (search category f : string)
  (pageParam : option float) (net : Network) (n : nat) (s : S) :
  run net n (fetchBooks env search category f pageParam) s =
  match booksEndpoint env search category pageParam with
  | Rejected e => ([], Rejected e, s)
  | Resolved endpoint =>
      ([getRequest env endpoint],
       match receive env "GET" endpoint (net n (getRequest env endpoint)) with
       | Rejected e => Rejected e
       | Resolved response => toPage f response
       end, s)
  end.
Proof.
  unfold fetchBooks.
  destruct (booksEndpoint env search category pageParam) as [endpoint|e]; [|reflexivity].
  cbn [await bind]. rewrite run_bind, run_get.
  destruct (receive env "GET" endpoint _) as [response|e]; [|reflexivity].
  rewrite run_await. cbn. reflexivity.
Qed.

(** X17.  [fetchBooks] issues at most one request, a GET, and leaves the
    component state alone; it issues none when encoding the search term
    or the category throws.  It searches only when at least two
    characters of the term remain after trimming; otherwise it requests
    the listing of available books, whatever was typed. *)
Theorem fetchBooks_request (S : Type) (env : Env) (search category f : string)
  (pageParam : option float) (net : Network) (n : nat) (s : S) :
  let r := run net n (fetchBooks env search category f pageParam) s in
  stateOf r = s /\
  match booksEndpoint env search category pageParam with
  | Rejected e => requestsOf r = [] /\ outcomeOf r = Rejected e
  | Resolved endpoint =>
      requestsOf r = [getRequest env endpoint] /\
      startsWith endpoint "/books/search?q=" = (2 <=? String.length (trim search))%nat /\
      startsWith endpoint "/books/available?page="
        = negb (2 <=? String.length (trim search))%nat
  end.
Proof.
  cbv zeta. rewrite fetchBooks_run.
  destruct (booksEndpoint env search category pageParam) as [endpoint|e] eqn:He;
    [|repeat split].
  split; [reflexivity|]. split; [reflexivity|].
  unfold booksEndpoint in He.
  destruct (2 <=? String.length (trim search))%nat.
  - destruct (encodeURIComponent env search); [|discriminate He].
    injection He as <-. split; [|reflexivity].
    apply startsWith_spec. eexists. reflexivity.
  - destruct (negb (isEmpty category) && negb (String.eqb category "All")).
    + destruct (encodeURIComponent env category); [|discriminate He].
      injection He as <-. split; [reflexivity|].
      apply startsWith_spec. eexists. reflexivity.
    + injection He as <-. split; [reflexivity|].
      apply startsWith_spec. eexists. reflexivity.
Qed.

(** X18.  The badge of a book that passed the availability filter is
    the badge of the filter's own label: what is listed under
    "Available" is badged available, what is listed under "Checked Out"
    is badged checked-out. *)
Theorem kept_books_share_the_badge (f : string) (books kept : list value) (b : value) :
  filterArray (matchesFilter f) books = Resolved kept ->
  In b kept ->
  In b books /\
  badgeClassByAvailability (statusOf b) = badgeClassByAvailability (Some f).
Proof.
  intros Hkept Hb. pose proof (filterArray_cases f books) as Hc.
  rewrite Hkept in Hc. destruct Hc as [_ ->].
  apply filter_In in Hb as [Hin Hkeep]. split; [exact Hin|].
  apply String.eqb_eq in Hkeep. unfold badgeClassByAvailability.
  rewrite Hkeep. now destruct f.
Qed.

Lemma kept_books_sample :
  In (JObj [("id", JStr "b1"); ("availability", JStr "AVAILABLE")])
     [JObj [("id", JStr "b1"); ("availability", JStr "AVAILABLE")];
      JObj [("id", JStr "b3"); ("availability", JStr "Checked Out")]] /\
  badgeClassByAvailability
    (statusOf (JObj [("id", JStr "b1"); ("availability", JStr "AVAILABLE")]))
  = badgeClassByAvailability (Some "Available").
Proof.
  exact (kept_books_share_the_badge "Available"
           [JObj [("id", JStr "b1"); ("availability", JStr "AVAILABLE")];
            JObj [("id", JStr "b3"); ("availability", JStr "Checked Out")]]
           [JObj [("id", JStr "b1"); ("availability", JStr "AVAILABLE")]]
           (JObj [("id", JStr "b1"); ("availability", JStr "AVAILABLE")])
           eq_refl (or_introl eq_refl)).
Defined.

End BookBrowsingFacts.

(* ------------------------------------------------------------------ *)
(** ** The theme provider *)

Module ThemeFacts.
Import Json Theme.

Lemma toggleTheme_writes (captured : ThemeMode) (store : SecureStore)
  (s t : ThemeState) :
  outOfOrder store = false ->
  outOfOrder (fst (toggleTheme captured store s)) = false /\
  load (fst (toggleTheme captured store s)) t =
    {| mode := flip captured; ready := true |}.
Proof.
  intros Hok. unfold toggleTheme, setItemAsync, load, getItemAsync.
  rewrite Hok. cbn. destruct captured; split; reflexivity.
Qed.

(** X19.  [toggleTheme] sets the mode to the opposite of the mode of the
    render it comes from, whether or not the store works, and leaves
    [ready] alone.  On a working store it also persists that mode: a
    provider mounted afterwards on the store loads it, whatever mode it
    starts from.  On a store out of order nothing is written, and a
    provider mounted on it still becomes ready, with the mode it had. *)
Theorem theme_survives_restart (captured : ThemeMode) (store : SecureStore)
  (s t : ThemeState) :
  mode (snd (toggleTheme captured store s)) = flip captured /\
  mode (snd (toggleTheme captured store s)) <> captured /\
  ready (snd (toggleTheme captured store s)) = ready s /\
  (outOfOrder store = false ->
   load (fst (toggleTheme captured store s)) t =
     {| mode := mode (snd (toggleTheme captured store s)); ready := true |}) /\
  (outOfOrder store = true ->
   fst (toggleTheme captured store s) = store /\
   load store t = {| mode := mode t; ready := true |}).
Proof.
  split; [reflexivity|]. split; [destruct captured; discriminate|].
  split; [reflexivity|]. split.
  - intros Hok. exact (proj2 (toggleTheme_writes captured store s t Hok)).
  - intros Hbad. unfold toggleTheme, setItemAsync, load, getItemAsync.
    rewrite Hbad. split; reflexivity.
Qed.

Example theme_survives_restart_sample :
  mode (load (fst (toggleTheme light {| entries := []; outOfOrder := false |}
                                initialTheme))
             initialTheme) = dark.
Proof. reflexivity. Qed.

(** What a sequence of events leaves, whatever the events: [ready] as it
    was, the store in order if it was, and once the function was called
    the mode on the screen is the one a restart would load. *)
Lemma after_events (events : list Event) (t : ThemeState) :
  forall p,
    outOfOrder (device p) = false ->
    ready (current (after events p)) = ready (current p) /\
    outOfOrder (device (after events p)) = false /\
    (load (device p) t = {| mode := mode (current p); ready := true |} \/
     In Press events ->
     load (device (after events p)) t =
       {| mode := mode (current (after events p)); ready := true |}).
Proof.
  induction events as [|e rest IH]; intros p Hok.
  - cbn. split; [reflexivity|]. split; [exact Hok|]. intros [H|[]]. exact H.
  - change (after (e :: rest) p) with (after rest (handle p e)).
    destruct e.
    + destruct (toggleTheme_writes (rendered p) (device p) (current p) t Hok)
        as [Hok1 Hload].
      assert (Hs : device (handle p Press)
                   = fst (toggleTheme (rendered p) (device p) (current p)) /\
                   current (handle p Press)
                   = snd (toggleTheme (rendered p) (device p) (current p))).
      { unfold handle.
        now destruct (toggleTheme (rendered p) (device p) (current p)). }
      destruct Hs as [Hd Hc].
      destruct (IH (handle p Press)) as [Hr [Ho Hl]]; [now rewrite Hd|].
      split; [now rewrite Hr, Hc|]. split; [exact Ho|].
      intros _. apply Hl. left. now rewrite Hd, Hc, Hload.
    + destruct (IH (handle p Render) Hok) as [Hr [Ho Hl]].
      split; [exact Hr|]. split; [exact Ho|].
      intros [H|[H|H]]; [apply Hl; left; exact H | discriminate H | apply Hl; now right].
Qed.

Lemma presses_of_one_render (events : list Event) :
  forall p,
    (forall e, In e events -> e = Press) ->
    rendered (after events p) = rendered p /\
    (events <> [] -> mode (current (after events p)) = flip (rendered p)).
Proof.
  induction events as [|e rest IH]; intros p Hall.
  - split; [reflexivity | intros H; now elim H].
  - change (after (e :: rest) p) with (after rest (handle p e)).
    rewrite (Hall e (or_introl eq_refl)).
    destruct (IH (handle p Press)) as [Hr Hm]; [intros e' He'; apply Hall; now right|].
    assert (Hs : rendered (handle p Press) = rendered p /\
                 mode (current (handle p Press)) = flip (rendered p))
      by (unfold handle, toggleTheme; cbn; split; reflexivity).
    destruct Hs as [Hs1 Hs2].
    split; [now rewrite Hr|]. intros _.
    destruct rest as [|e' rest']; [exact Hs2|].
    rewrite Hm by discriminate. now rewrite Hs1.
Qed.

Lemma rounds_alternate (n : nat) :
  forall p,
    rendered p = mode (current p) ->
    rendered (after (rounds n) p) = mode (current (after (rounds n) p)) /\
    mode (current (after (rounds n) p)) =
      (if Nat.even n then mode (current p) else flip (mode (current p))).
Proof.
  induction n as [|n IH]; intros p Hp; [split; [exact Hp | reflexivity]|].
  change (after (rounds (S n)) p)
    with (after (rounds n) (handle (handle p Press) Render)).
  assert (Hs : rendered (handle (handle p Press) Render)
               = mode (current (handle (handle p Press) Render)) /\
               mode (current (handle (handle p Press) Render)) = flip (mode (current p)))
    by (unfold handle, toggleTheme; cbn; rewrite Hp; split; reflexivity).
  destruct Hs as [Hs1 Hs2].
  destruct (IH _ Hs1) as [Hr Hm]. split; [exact Hr|].
  rewrite Hm, Hs2, Nat.even_succ, <- Nat.negb_even.
  destruct (Nat.even n), (mode (current p)); reflexivity.
Qed.

(** X20.  Calls of [toggleTheme] and renders in any order.  The calls
    made between two renders all set the same mode, the opposite of the
    mode rendered: a second call does not switch back.  With a render
    after each call the mode alternates, and an even number of calls
    gives back the mode started from.  [ready] is never touched.  On a
    working store, once the function has been called the store holds the
    mode on the screen: a provider mounted on it loads that mode. *)
Theorem theme_toggles (events : list Event) (n : nat) (p : Provider) (t : ThemeState) :
  ((forall e, In e events -> e = Press) -> events <> [] ->
   mode (current (after events p)) = flip (rendered p)) /\
  (rendered p = mode (current p) ->
   mode (current (after (rounds n) p)) =
     (if Nat.even n then mode (current p) else flip (mode (current p)))) /\
  ready (current (after events p)) = ready (current p) /\
  (outOfOrder (device p) = false -> In Press events ->
   load (device (after events p)) t =
     {| mode := mode (current (after events p)); ready := true |}).
Proof.
  split; [|split; [|split]].
  - intros Hall. exact (proj2 (presses_of_one_render events p Hall)).
  - intros Hp. exact (proj2 (rounds_alternate n p Hp)).
  - clear. revert p. induction events as [|e rest IH]; intros p; [reflexivity|].
    change (after (e :: rest) p) with (after rest (handle p e)).
    rewrite IH. destruct e; [|reflexivity].
    unfold handle. now destruct (toggleTheme (rendered p) (device p) (current p)) eqn:H;
      unfold toggleTheme in H; injection H as _ <-.
  - intros Hok Hin.
    apply (proj2 (proj2 (after_events events t p Hok))). now right.
Qed.

(** Two calls of the function of one render, from the light mode: the
    screen is dark, not light again. *)
Example two_calls_of_one_render :
  let p := {| current := {| mode := light; ready := true |};
              rendered := light;
              device := {| entries := []; outOfOrder := false |} |} in
  mode (current (after [Press; Press] p)) = dark /\
  mode (current (after [Press; Render; Press] p)) = light.
Proof. split; reflexivity. Qed.

End ThemeFacts.

(* ------------------------------------------------------------------ *)
(** ** The navigator *)

Module NavigatorFacts.
Import AuthStore AuthStoreFacts Navigator.

(** X21.  In every state the store reaches from its initial state, the
    navigator shows the dashboard exactly when the store is hydrated and
    holds a non-empty token, the sign-in screens exactly when it is
    hydrated without one, and the spinner until it is hydrated.  After a
    logout the dashboard is never shown. *)
Theorem dashboard_needs_a_token (actions : list Action) :
  let s := runActions actions initial in
  (AppNavigator s = DashboardStack <-> hydrated s = true /\ truthyToken (token s)) /\
  (AppNavigator s = AuthStack <-> hydrated s = true /\ ~ truthyToken (token s)) /\
  (AppNavigator s = Spinner <-> hydrated s = false) /\
  AppNavigator (logout s) <> DashboardStack /\
  AppNavigator initial = Spinner.
Proof.
  intros s. pose proof (runActions_consistent actions initial initial_consistent) as Hc.
  fold s in Hc. unfold consistent in Hc.
  split; [|split; [|split; [|split]]].
  - unfold AppNavigator. destruct (hydrated s); cbn [negb].
    + destruct (isAuthenticated s); split.
      * intros _. split; [reflexivity | now apply Hc].
      * reflexivity.
      * discriminate.
      * intros [_ H]. apply Hc in H. discriminate H.
    + split; [discriminate | intros [H _]; discriminate H].
  - unfold AppNavigator. destruct (hydrated s); cbn [negb].
    + destruct (isAuthenticated s); split.
      * discriminate.
      * intros [_ H]. elim H. now apply Hc.
      * intros _. split; [reflexivity|]. intros H. apply Hc in H. discriminate H.
      * reflexivity.
    + split; [discriminate | intros [H _]; discriminate H].
  - unfold AppNavigator. destruct (hydrated s); cbn [negb].
    + destruct (isAuthenticated s); split; discriminate.
    + split; reflexivity.
  - unfold AppNavigator, logout. cbn. destruct (hydrated s); discriminate.
  - reflexivity.
Qed.

End NavigatorFacts.

(* ------------------------------------------------------------------ *)
(** ** The password form *)

Module ProfilePageFacts.
Import JsString ProfilePage.

(** X22.  The only password error is "Passwords do not match", raised
    exactly when the new password and its confirmation are both
    non-empty and differ.  The Update Password button is therefore
    enabled, when nothing is pending, also for an empty form and for a new
    password whose confirmation is still empty. *)
Theorem password_mismatch (form : PasswordPayload) (isPending : bool) :
  (passwordError form = Some "Passwords do not match" <->
   newPassword form <> "" /\ confirmPassword form <> "" /\
   newPassword form <> confirmPassword form) /\
  (passwordError form = None \/ passwordError form = Some "Passwords do not match") /\
  (updateDisabled form isPending = false <->
   isPending = false /\
   (newPassword form = "" \/ confirmPassword form = "" \/
    newPassword form = confirmPassword form)).
Proof.
  unfold updateDisabled, passwordError.
  destruct (String.eqb_spec (newPassword form) (confirmPassword form)) as [He|He];
    destruct (newPassword form) as [|c1 n1] eqn:Hn;
    destruct (confirmPassword form) as [|c2 n2] eqn:Hc;
    destruct isPending; cbn; repeat split; auto;
    try discriminate; try tauto;
    try (intros [H1 [H2 H3]]; congruence);
    try (intros [_ H]; discriminate H);
    try (intros [_ [H|[H|H]]]; congruence).
Qed.

End ProfilePageFacts.
